(** * oxidx_ollama: the protocol client, the response extractor, the schema
    sanitizer and the history bound of [oxidx_ollama.py].

    A Python [str] is modelled by the [string] of the bytes of its UTF-8
    encoding; a JSON value (what [json.loads] returns and [json.dumps]
    accepts) by the inductive type [json]; a [dict] by the list of its
    entries in insertion order.  Code that may raise returns a [result].
    The limits of the interpreter (the depth of recursion, the number of
    digits of an integer literal) are not modelled. *)

From Stdlib Require Import List String Ascii ZArith Lia Bool Arith PeanoNat.
From Stdlib Require Import Decimal DecimalString.
Import ListNotations.

Local Open Scope string_scope.
Local Open Scope list_scope.
Local Open Scope nat_scope.

(** ** Strings *)

Module Str.

(** The string whose bytes have the codes [l]. *)
Definition bytes (l : list nat) : string :=
  string_of_list_ascii (map ascii_of_nat l).

(** [strip_prefix p s] is [Some r] when [s = p ++ r]. *)
Fixpoint strip_prefix (p s : string) : option string :=
  match p with
  | EmptyString => Some s
  | String a p' =>
      match s with
      | EmptyString => None
      | String b s' => if Ascii.eqb a b then strip_prefix p' s' else None
      end
  end.

(** [s.startswith(p)] *)
Definition startswith (p s : string) : bool :=
  match strip_prefix p s with Some _ => true | None => false end.

(** [s.endswith(p)] *)
Fixpoint endswith (p s : string) : bool :=
  String.eqb s p ||
  match s with
  | EmptyString => false
  | String _ s' => endswith p s'
  end.

(** The characters [str.strip()] removes, each by its UTF-8 encoding:
    U+0009..U+000D, U+001C..U+0020, U+0085, U+00A0, U+1680,
    U+2000..U+200A, U+2028, U+2029, U+202F, U+205F, U+3000. *)
Definition whitespace : list string :=
  map bytes
    [ [9]; [10]; [11]; [12]; [13]; [28]; [29]; [30]; [31]; [32];
      [194; 133]; [194; 160]; [225; 154; 128];
      [226; 128; 128]; [226; 128; 129]; [226; 128; 130]; [226; 128; 131];
      [226; 128; 132]; [226; 128; 133]; [226; 128; 134]; [226; 128; 135];
      [226; 128; 136]; [226; 128; 137]; [226; 128; 138];
      [226; 128; 168]; [226; 128; 169]; [226; 128; 175];
      [226; 129; 159]; [227; 128; 128] ].

(** The rest of [s] after the first pattern of [ps] that it begins with. *)
Fixpoint first_match (ps : list string) (s : string) : option string :=
  match ps with
  | [] => None
  | p :: ps' =>
      match strip_prefix p s with
      | Some r => Some r
      | None => first_match ps' s
      end
  end.

(** [ws_prefix s] is [Some r] when [s] is one whitespace character
    followed by [r]. *)
Definition ws_prefix (s : string) : option string :=
  first_match whitespace s.

Fixpoint lstrip_fuel (fuel : nat) (s : string) : string :=
  match fuel with
  | 0 => s
  | S n =>
      match ws_prefix s with
      | Some r => lstrip_fuel n r
      | None => s
      end
  end.

(** [s.lstrip()] *)
Definition lstrip (s : string) : string := lstrip_fuel (String.length s) s.

(** [s] holds whitespace only. *)
Definition all_ws (s : string) : bool :=
  match lstrip s with EmptyString => true | String _ _ => false end.

(** [s.rstrip()] *)
Fixpoint rstrip (s : string) : string :=
  match s with
  | EmptyString => EmptyString
  | String a r => if all_ws s then EmptyString else String a (rstrip r)
  end.

(** [s.strip()] *)
Definition strip (s : string) : string := rstrip (lstrip s).

(** [s.find(sub)]: the lowest index of [sub] in [s], or -1. *)
Fixpoint find (sub s : string) : Z :=
  if startswith sub s then 0%Z
  else
    match s with
    | EmptyString => (-1)%Z
    | String _ s' =>
        let r := find sub s' in
        if (r <? 0)%Z then (-1)%Z else (r + 1)%Z
    end.

(** [s.rfind(sub)]: the highest index of [sub] in [s], or -1. *)
Fixpoint rfind (sub s : string) : Z :=
  match s with
  | EmptyString => if startswith sub s then 0%Z else (-1)%Z
  | String _ s' =>
      let r := rfind sub s' in
      if (0 <=? r)%Z then (r + 1)%Z
      else if startswith sub s then 0%Z else (-1)%Z
  end.

(** [s[start:stop]] for indices that are not negative. *)
Definition slice (s : string) (start stop : Z) : string :=
  substring (Z.to_nat start) (Z.to_nat stop - Z.to_nat start) s.

(** [s.partition(sep)] when [sep] occurs in [s]: the text before and the
    text after its first occurrence. *)
Fixpoint partition (sep s : string) : option (string * string) :=
  match strip_prefix sep s with
  | Some r => Some (EmptyString, r)
  | None =>
      match s with
      | EmptyString => None
      | String a s' =>
          match partition sep s' with
          | Some (b, r) => Some (String a b, r)
          | None => None
          end
      end
  end.

(** [sub in s] *)
Definition contains (sub s : string) : bool :=
  match partition sub s with Some _ => true | None => false end.

(** [s.split(sep)[0]] *)
Definition split0 (sep s : string) : string :=
  match partition sep s with Some (b, _) => b | None => s end.

(** No whitespace character is the beginning of another one. *)
Definition prefix_free (ps : list string) : bool :=
  forallb (fun p =>
    forallb (fun q =>
      match strip_prefix p q with
      | Some EmptyString | None => true
      | Some (String _ _) => false
      end) ps) ps.

(** A run of whitespace characters. *)
Inductive WS : string -> Prop :=
| WS_nil : WS EmptyString
| WS_cons p s : In p whitespace -> WS s -> WS (p ++ s).

End Str.

(** ** JSON values *)

Set Warnings "-register-all".
Unset Elimination Schemes.

Inductive json : Type :=
| JNull
| JBool (b : bool)
| JInt (n : Z)
| JFloat (numeral : string)
| JStr (s : string)
| JList (items : list json)
| JDict (entries : list (string * json)).

Set Elimination Schemes.

Definition is_dict (v : json) : bool :=
  match v with JDict _ => true | _ => false end.

Definition is_list (v : json) : bool :=
  match v with JList _ => true | _ => false end.

Definition is_str (v : json) : bool :=
  match v with JStr _ => true | _ => false end.

Fixpoint jsize (v : json) : nat :=
  match v with
  | JStr s => S (String.length s)
  | JList l => S (list_sum (map jsize l))
  | JDict d => S (list_sum (map (fun kv => let '(_, x) := kv in jsize x) d))
  | _ => 1
  end.

Definition dsize (d : list (string * json)) : nat :=
  list_sum (map (fun kv => let '(_, x) := kv in jsize x) d).

Definition lsize (l : list json) : nat := list_sum (map jsize l).

(** ** Dictionaries: the entries of a [dict], in insertion order *)

Definition dict := list (string * json).

(** [d.get(k)], [None] when the key is absent. *)
Fixpoint dict_get (k : string) (d : dict) : option json :=
  match d with
  | [] => None
  | (k', v) :: d' => if String.eqb k k' then Some v else dict_get k d'
  end.

(** [k in d] *)
Definition dict_has (k : string) (d : dict) : bool :=
  match dict_get k d with Some _ => true | None => false end.

(** [d[k] = v]: a key already present keeps its place and takes the new
    value, a new key goes to the end. *)
Fixpoint dict_set (k : string) (v : json) (d : dict) : dict :=
  match d with
  | [] => [(k, v)]
  | (k', v') :: d' =>
      if String.eqb k k' then (k', v) :: d' else (k', v') :: dict_set k v d'
  end.

(** [dict(pairs)] *)
Definition dict_of_pairs (pairs : list (string * json)) : dict :=
  fold_left (fun d kv => dict_set (fst kv) (snd kv) d) pairs [].

Definition keys (d : dict) : list string := map fst d.

(** The loop [for k, v in data.items(): new_data[k] = f(v)]. *)
Definition fold_set (f : json -> json) (d : dict) (acc : dict) : dict :=
  fold_left (fun new_data kv => dict_set (fst kv) (f (snd kv)) new_data) d acc.

(** ** [json.loads]

    The decoder of the standard library, as its scanner reads a document:
    JSON with the constants [NaN], [Infinity] and [-Infinity]; [None] stands
    for [JSONDecodeError].  A float is kept as its numeral. *)

Module Decoder.

Definition dquote : ascii := ascii_of_nat 34.
Definition backslash : ascii := ascii_of_nat 92.

Definition is_json_ws (c : ascii) : bool :=
  let n := nat_of_ascii c in
  (n =? 32) || (n =? 9) || (n =? 10) || (n =? 13).

Fixpoint skip_ws (s : string) : string :=
  match s with
  | String c r => if is_json_ws c then skip_ws r else s
  | EmptyString => s
  end.

(** The next character must be [c]. *)
Definition expect (c : ascii) (s : string) : option string :=
  match s with
  | String a r => if Ascii.eqb a c then Some r else None
  | EmptyString => None
  end.

Definition is_digit (c : ascii) : bool :=
  let n := nat_of_ascii c in (48 <=? n) && (n <=? 57).

Definition hex_digit (c : ascii) : option N :=
  let n := nat_of_ascii c in
  if (48 <=? n) && (n <=? 57) then Some (N.of_nat (n - 48))
  else if (65 <=? n) && (n <=? 70) then Some (N.of_nat (n - 55))
  else if (97 <=? n) && (n <=? 102) then Some (N.of_nat (n - 87))
  else None.

(** The value of four hexadecimal digits. *)
Definition hex4 (a b c d : ascii) : option N :=
  match hex_digit a, hex_digit b, hex_digit c, hex_digit d with
  | Some x, Some y, Some z, Some w =>
      Some (x * 4096 + y * 256 + z * 16 + w)%N
  | _, _, _, _ => None
  end.

Definition byte_of_N (n : N) : ascii := ascii_of_N n.

(** [chr(u)], in UTF-8 (a lone surrogate takes three bytes). *)
Definition chr (u : N) : string :=
  if (u <? 128)%N then String (byte_of_N u) EmptyString
  else if (u <? 2048)%N then
    String (byte_of_N (192 + u / 64))
      (String (byte_of_N (128 + u mod 64)) EmptyString)
  else if (u <? 65536)%N then
    String (byte_of_N (224 + u / 4096))
      (String (byte_of_N (128 + (u / 64) mod 64))
        (String (byte_of_N (128 + u mod 64)) EmptyString))
  else
    String (byte_of_N (240 + u / 262144))
      (String (byte_of_N (128 + (u / 4096) mod 64))
        (String (byte_of_N (128 + (u / 64) mod 64))
          (String (byte_of_N (128 + u mod 64)) EmptyString))).

(** The escapes of one character. *)
Definition unescape (e : ascii) : option ascii :=
  let n := nat_of_ascii e in
  if (n =? 34) || (n =? 92) || (n =? 47) then Some e
  else if n =? 98 then Some (ascii_of_nat 8)
  else if n =? 102 then Some (ascii_of_nat 12)
  else if n =? 110 then Some (ascii_of_nat 10)
  else if n =? 114 then Some (ascii_of_nat 13)
  else if n =? 116 then Some (ascii_of_nat 9)
  else None.

Definition is_high_surrogate (u : N) : bool := (55296 <=? u)%N && (u <=? 56319)%N.
Definition is_low_surrogate (u : N) : bool := (56320 <=? u)%N && (u <=? 57343)%N.

(** [push chunk r] puts [chunk] before the string decoded from the rest. *)
Definition push (chunk : string) (r : option (string * string))
  : option (string * string) :=
  match r with
  | Some (str, rest) => Some ((chunk ++ str)%string, rest)
  | None => None
  end.

(** [scanstring]: [s] begins after the opening quote; the result is the
    decoded string and the text after the closing quote. *)
Fixpoint scanstring (s : string) : option (string * string) :=
  match s with
  | EmptyString => None
  | String c r =>
      if Ascii.eqb c dquote then Some (EmptyString, r)
      else if Ascii.eqb c backslash then
        match r with
        | EmptyString => None
        | String e r1 =>
            if Ascii.eqb e "u" then
              match r1 with
              | String h1 (String h2 (String h3 (String h4 r2))) =>
                  match hex4 h1 h2 h3 h4 with
                  | None => None
                  | Some uni =>
                      match r2 with
                      | String b (String u r3) =>
                          if is_high_surrogate uni && Ascii.eqb b backslash
                             && Ascii.eqb u "u" then
                            match r3 with
                            | String k1 (String k2 (String k3 (String k4 r4))) =>
                                match hex4 k1 k2 k3 k4 with
                                | None => None
                                | Some uni2 =>
                                    if is_low_surrogate uni2 then
                                      push (chr (65536 + (uni - 55296) * 1024
                                                 + (uni2 - 56320))%N)
                                           (scanstring r4)
                                    else push (chr uni) (scanstring r2)
                                end
                            | _ => None
                            end
                          else push (chr uni) (scanstring r2)
                      | _ => push (chr uni) (scanstring r2)
                      end
                  end
              | _ => None
              end
            else
              match unescape e with
              | Some ch => push (String ch EmptyString) (scanstring r1)
              | None => None
              end
        end
      else if nat_of_ascii c <? 32 then None
      else push (String c EmptyString) (scanstring r)
  end.

(** The longest run of digits at the head of [s], and the rest. *)
Fixpoint span_digits (s : string) : string * string :=
  match s with
  | String c r =>
      if is_digit c then
        let (ds, r') := span_digits r in (String c ds, r')
      else (EmptyString, s)
  | EmptyString => (EmptyString, s)
  end.

Definition int_of_digits (ds : string) : Z :=
  fold_left (fun acc c => (acc * 10 + Z.of_nat (nat_of_ascii c - 48))%Z)
            (list_ascii_of_string ds) 0%Z.

(** [0|[1-9][0-9]*] *)
Definition int_part (s : string) : option (string * string) :=
  match s with
  | String c r =>
      if Ascii.eqb c "0" then Some (String c EmptyString, r)
      else if is_digit c then
        let (ds, r') := span_digits r in Some (String c ds, r')
      else None
  | EmptyString => None
  end.

(** [\.[0-9]+] *)
Definition frac_part (s : string) : option (string * string) :=
  match s with
  | String c (String d r) =>
      if Ascii.eqb c "." && is_digit d then
        let (ds, r') := span_digits (String d r) in Some (String c ds, r')
      else None
  | _ => None
  end.

(** [[eE][-+]?[0-9]+] *)
Definition exp_part (s : string) : option (string * string) :=
  match s with
  | String e (String g r) =>
      if Ascii.eqb e "e" || Ascii.eqb e "E" then
        if Ascii.eqb g "-" || Ascii.eqb g "+" then
          match r with
          | String d _ =>
              if is_digit d then
                let (ds, r') := span_digits r in
                Some (String e (String g ds), r')
              else None
          | EmptyString => None
          end
        else if is_digit g then
          let (ds, r') := span_digits (String g r) in Some (String e ds, r')
        else None
      else None
  | _ => None
  end.

(** The number at the head of [s]: an [int] when it has neither fraction
    nor exponent, a [float] otherwise. *)
Definition match_number (s : string) : option (json * string) :=
  let (neg, s1) :=
    match s with
    | String c r => if Ascii.eqb c "-" then (true, r) else (false, s)
    | EmptyString => (false, s)
    end in
  match int_part s1 with
  | None => None
  | Some (integer, s2) =>
      let (frac, s3) :=
        match frac_part s2 with
        | Some (f, r) => (f, r)
        | None => (EmptyString, s2)
        end in
      let (exp, s4) :=
        match exp_part s3 with
        | Some (e, r) => (e, r)
        | None => (EmptyString, s3)
        end in
      match frac, exp with
      | EmptyString, EmptyString =>
          Some (JInt (if neg then - int_of_digits integer
                      else int_of_digits integer)%Z, s4)
      | _, _ =>
          Some (JFloat ((if neg then "-" else EmptyString)
                        ++ integer ++ frac ++ exp)%string, s4)
      end
  end.

(** A constant of the grammar. *)
Definition constant (word : string) (v : json) (s : string)
  : option (json * string) :=
  match Str.strip_prefix word s with
  | Some r => Some (v, r)
  | None => None
  end.

Definition or_else {A} (x y : option A) : option A :=
  match x with Some _ => x | None => y end.

(** [scan_once], with [JSONArray] and [JSONObject]: the value at the head
    of [s] and the text after it.  [array_items] begins at an item,
    [object_pairs] after the opening quote of a key. *)
Fixpoint scan_once (fuel : nat) (s : string) : option (json * string) :=
  match fuel with
  | 0 => None
  | S n =>
      match s with
      | EmptyString => None
      | String c r =>
          if Ascii.eqb c dquote then
            match scanstring r with
            | Some (str, r') => Some (JStr str, r')
            | None => None
            end
          else if Ascii.eqb c "{" then
            match skip_ws r with
            | String k r' =>
                if Ascii.eqb k "}" then Some (JDict [], r')
                else if Ascii.eqb k dquote then
                  match object_pairs n r' [] with
                  | Some (pairs, rest) => Some (JDict (dict_of_pairs pairs), rest)
                  | None => None
                  end
                else None
            | EmptyString => None
            end
          else if Ascii.eqb c "[" then
            match skip_ws r with
            | String k r' =>
                if Ascii.eqb k "]" then Some (JList [], r')
                else
                  match array_items n (String k r') [] with
                  | Some (values, rest) => Some (JList values, rest)
                  | None => None
                  end
            | EmptyString => None
            end
          else
            or_else (constant "null" JNull s)
           (or_else (constant "true" (JBool true) s)
           (or_else (constant "false" (JBool false) s)
           (or_else (match_number s)
           (or_else (constant "NaN" (JFloat "NaN") s)
           (or_else (constant "Infinity" (JFloat "Infinity") s)
                    (constant "-Infinity" (JFloat "-Infinity") s))))))
      end
  end

with array_items (fuel : nat) (s : string) (values : list json)
  : option (list json * string) :=
  match fuel with
  | 0 => None
  | S n =>
      match scan_once n s with
      | None => None
      | Some (value, s1) =>
          let values := values ++ [value] in
          match skip_ws s1 with
          | String c s2 =>
              if Ascii.eqb c "]" then Some (values, s2)
              else if Ascii.eqb c "," then array_items n (skip_ws s2) values
              else None
          | EmptyString => None
          end
      end
  end

with object_pairs (fuel : nat) (s : string) (pairs : list (string * json))
  : option (list (string * json) * string) :=
  match fuel with
  | 0 => None
  | S n =>
      match scanstring s with
      | None => None
      | Some (key, s1) =>
          match expect ":" (skip_ws s1) with
          | None => None
          | Some s2 =>
              match scan_once n (skip_ws s2) with
              | None => None
              | Some (value, s3) =>
                  let pairs := pairs ++ [(key, value)] in
                  match skip_ws s3 with
                  | String c s4 =>
                      if Ascii.eqb c "}" then Some (pairs, s4)
                      else if Ascii.eqb c "," then
                        match expect dquote (skip_ws s4) with
                        | Some s5 => object_pairs n s5 pairs
                        | None => None
                        end
                      else None
                  | EmptyString => None
                  end
              end
          end
      end
  end.

(** Fuel that every document of this length is read with. *)
Definition fuel_for (s : string) : nat := 2 * String.length s + 2.

End Decoder.

(** [json.loads(s)]: one value between optional whitespace, nothing after
    it. *)
Definition json_loads (s : string) : option json :=
  match Decoder.scan_once (Decoder.fuel_for s) (Decoder.skip_ws s) with
  | Some (obj, rest) =>
      match Decoder.skip_ws rest with
      | EmptyString => Some obj
      | String _ _ => None
      end
  | None => None
  end.

(** ** Exceptions and dynamic typing *)

Inductive exn : Type :=
| JSONDecodeError | AttributeError | TypeError | KeyError | IndexError
| BrokenPipeError.

Inductive result (A : Type) : Type :=
| Ok (a : A)
| Raise (e : exn).

Arguments Ok {A} a.
Arguments Raise {A} e.

Definition bind {A B} (r : result A) (f : A -> result B) : result B :=
  match r with
  | Ok a => f a
  | Raise e => Raise e
  end.

Notation "x <- r ;; k" := (bind r (fun x => k))
  (at level 61, r at next level, right associativity).

(** [try: r  except (handled): h] *)
Definition try_except {A} (r : result A) (handled : exn -> bool)
  (h : result A) : result A :=
  match r with
  | Ok a => Ok a
  | Raise e => if handled e then h else Raise e
  end.

Module Py.

(** [v.get(k, default)] *)
Definition get (v : json) (k : string) (default : json) : result json :=
  match v with
  | JDict d =>
      match dict_get k d with
      | Some x => Ok x
      | None => Ok default
      end
  | _ => Raise AttributeError
  end.

(** [v[k]] for a string [k] *)
Definition getitem (v : json) (k : string) : result json :=
  match v with
  | JDict d =>
      match dict_get k d with
      | Some x => Ok x
      | None => Raise KeyError
      end
  | _ => Raise TypeError
  end.

Definition is_continuation (c : ascii) : bool :=
  let n := nat_of_ascii c in (128 <=? n) && (n <? 192).

Fixpoint continuation (s : string) : string :=
  match s with
  | String c r => if is_continuation c then String c (continuation r)
                  else EmptyString
  | EmptyString => EmptyString
  end.

(** [v[0]]; the keys of a decoded [dict] are strings, so [0] is none of
    them. *)
Definition getitem0 (v : json) : result json :=
  match v with
  | JList (x :: _) => Ok x
  | JList [] => Raise IndexError
  | JStr (String c r) => Ok (JStr (String c (continuation r)))
  | JStr EmptyString => Raise IndexError
  | JDict _ => Raise KeyError
  | _ => Raise TypeError
  end.

(** [k in v] for a string [k] *)
Definition contains (k : string) (v : json) : result bool :=
  match v with
  | JDict d => Ok (dict_has k d)
  | JList l =>
      Ok (existsb (fun x => match x with
                            | JStr s => String.eqb s k
                            | _ => false
                            end) l)
  | JStr s => Ok (Str.contains k s)
  | _ => Raise TypeError
  end.

Fixpoint count_chars (s : string) : nat :=
  match s with
  | String c r => (if is_continuation c then 0 else 1) + count_chars r
  | EmptyString => 0
  end.

(** [len(v)] *)
Definition len (v : json) : result nat :=
  match v with
  | JList l => Ok (List.length l)
  | JDict d => Ok (List.length d)
  | JStr s => Ok (count_chars s)
  | _ => Raise TypeError
  end.

Section Truth.

(** Whether the float a numeral denotes is not zero. *)
Variable float_nonzero : string -> bool.

(** The truth value of [v] in a condition. *)
Definition truthy (v : json) : bool :=
  match v with
  | JNull => false
  | JBool b => b
  | JInt n => negb (n =? 0)%Z
  | JFloat x => float_nonzero x
  | JStr s => negb (String.eqb s EmptyString)
  | JList l => match l with [] => false | _ => true end
  | JDict d => match d with [] => false | _ => true end
  end.

End Truth.

End Py.

(** ** The MCP client *)

Module MCPClient.

(** The child process as the client sees it: the messages written to its
    standard input, one line each, the lines not yet read from its
    standard output, and the number of writes it still takes.  A child that
    has exited takes none: the pipe to it is broken.  For a child that stays,
    the number is any that the run does not reach. *)
Record process : Type := {
  stdin : list json;
  stdout : list string;
  takes : nat
}.

(** Client code: it runs on the process and may raise. *)
Definition M (A : Type) : Type := process -> result (A * process).

Definition ret {A} (a : A) : M A := fun p => Ok (a, p).

Definition mbind {A B} (m : M A) (f : A -> M B) : M B :=
  fun p => match m p with
           | Ok (a, p') => f a p'
           | Raise e => Raise e
           end.

Definition lift {A} (r : result A) : M A :=
  fun p => match r with
           | Ok a => Ok (a, p)
           | Raise e => Raise e
           end.

Notation "x <~ m ;; k" := (mbind m (fun x => k))
  (at level 61, m at next level, right associativity).
Notation "m ;;; k" := (mbind m (fun _ => k))
  (at level 61, right associativity).

(** [self.process.stdout.readline()]: the empty string at the end of the
    stream. *)
Definition readline : M string :=
  fun p => match stdout p with
           | [] => Ok (EmptyString, p)
           | line :: rest =>
               Ok (line, {| stdin := stdin p; stdout := rest; takes := takes p |})
           end.

(** [_send]: the line is written and flushed at once (the pipe is line
    buffered), and the write raises when the pipe is broken. *)
Definition _send (data : json) : M unit :=
  fun p => match takes p with
           | 0 => Raise BrokenPipeError
           | S n =>
               Ok (tt, {| stdin := stdin p ++ [data]; stdout := stdout p;
                          takes := n |})
           end.

Definition _recv : M json :=
  line <~ readline ;;
  match line with
  | EmptyString => ret (JDict [])
  | String _ _ =>
      match json_loads line with
      | Some v => ret v
      | None => lift (Raise JSONDecodeError)
      end
  end.

Definition init_req : json :=
  JDict [("jsonrpc", JStr "2.0"); ("id", JInt 1); ("method", JStr "initialize");
         ("params",
          JDict [("protocolVersion", JStr "2024-11-05");
                 ("capabilities", JDict []);
                 ("clientInfo",
                  JDict [("name", JStr "magic-ide"); ("version", JStr "1.0")])])].

Definition initialized : json :=
  JDict [("jsonrpc", JStr "2.0"); ("method", JStr "notifications/initialized")].

Definition tools_req : json :=
  JDict [("jsonrpc", JStr "2.0"); ("id", JInt 2); ("method", JStr "tools/list")].

(** [_handshake]: the value stored in [self.tools].  The last step is the
    [len(self.tools)] of the message it prints. *)
Definition _handshake : M json :=
  _send init_req ;;;
  _recv ;;;
  _send initialized ;;;
  _send tools_req ;;;
  res <~ _recv ;;
  r <~ lift (Py.get res "result" (JDict [])) ;;
  tools <~ lift (Py.get r "tools" (JList [])) ;;
  lift (Py.len tools) ;;;
  ret tools.

(** The steps of the client taken apart, for the statements about it. *)

(** What [_recv] makes of the line it reads. *)
Definition reply_of (line : string) : result json :=
  match line with
  | EmptyString => Ok (JDict [])
  | String _ _ =>
      match json_loads line with
      | Some v => Ok v
      | None => Raise JSONDecodeError
      end
  end.

(** The next line of the output, empty at the end of the stream. *)
Definition next_line (p : process) : string :=
  match stdout p with
  | [] => EmptyString
  | line :: _ => line
  end.

(** The process once that line is read. *)
Definition advance (p : process) : process :=
  {| stdin := stdin p; stdout := tl (stdout p); takes := takes p |}.

(** The process once [data] is written to it, for a process that takes the
    write. *)
Definition sent (data : json) (p : process) : process :=
  {| stdin := stdin p ++ [data]; stdout := stdout p; takes := pred (takes p) |}.

(** The tool list a [tools/list] reply yields. *)
Definition tools_of (res : json) : result json :=
  r <- Py.get res "result" (JDict []) ;;
  tools <- Py.get r "tools" (JList []) ;;
  _ <- Py.len tools ;;
  Ok tools.

(** The process after the three messages of the handshake are written and
    its two replies read. *)
Definition shaken (p : process) : process :=
  advance (sent tools_req (sent initialized (advance (sent init_req p)))).

Section CallTool.

(** [str(v)], the built-in rendering of a value. *)
Variable py_str : json -> string.

(** A value inside an f-string. *)
Definition format (v : json) : string :=
  match v with
  | JStr s => s
  | _ => py_str v
  end.

Definition tools_call (name : string) (args : json) : json :=
  JDict [("jsonrpc", JStr "2.0"); ("id", JInt 3); ("method", JStr "tools/call");
         ("params", JDict [("name", JStr name); ("arguments", args)])].

Definition key_or_index (e : exn) : bool :=
  match e with
  | KeyError | IndexError => true
  | _ => false
  end.

Definition error_prefix : string := "❌ Error: ".

Definition call_tool (name : string) (args : json) : M json :=
  _send (tools_call name args) ;;;
  res <~ _recv ;;
  has_error <~ lift (Py.contains "error" res) ;;
  if has_error : bool then
    lift (error <- Py.getitem res "error" ;;
          message <- Py.getitem error "message" ;;
          Ok (JStr (error_prefix ++ format message)%string))
  else
    lift (try_except
            (result <- Py.getitem res "result" ;;
             content <- Py.getitem result "content" ;;
             first <- Py.getitem0 content ;;
             Py.getitem first "text")
            key_or_index
            (Ok (JStr (py_str res)))).

(** What [call_tool] returns for the reply [res]. *)
Definition answer (res : json) : result json :=
  has_error <- Py.contains "error" res ;;
  if has_error : bool then
    error <- Py.getitem res "error" ;;
    message <- Py.getitem error "message" ;;
    Ok (JStr (error_prefix ++ format message)%string)
  else
    try_except
      (result <- Py.getitem res "result" ;;
       content <- Py.getitem result "content" ;;
       first <- Py.getitem0 content ;;
       Py.getitem first "text")
      key_or_index
      (Ok (JStr (py_str res))).

End CallTool.

End MCPClient.

(** ** Utilities *)

(** The tag that opens a block fenced as JSON, and the fence. *)
Definition fence_json : string := "```json".
Definition fence : string := "```".

(** [extract_json_from_text]; [None] is the [None] it returns.  The test
    [fence_json in text] and [text.split(fence_json)[1]] are one
    [partition]: the piece is what follows the first tag, up to the next
    one. *)
Definition extract_json_from_text (text : string) : option json :=
  let text := Str.strip text in
  let text :=
    match Str.partition fence_json text with
    | Some (_, rest) =>
        Str.strip (Str.split0 fence (Str.split0 fence_json rest))
    | None => text
    end in
  let start := Str.find "{" text in
  let end_ := Str.rfind "}" text in
  if negb (start =? -1)%Z && negb (end_ =? -1)%Z then
    json_loads (Str.slice text start (end_ + 1)%Z)
  else None.

(** The test on a stripped string that opens the decoding branch. *)
Definition bracketed (data : string) : bool :=
  (Str.startswith "{" data && Str.endswith "}" data)
  || (Str.startswith "[" data && Str.endswith "]" data).

(** The three fix-ups of a sanitized mapping, in the order of the code. *)
Definition fix_type_name (new_data : dict) : dict :=
  if (dict_has "children" new_data || dict_has "props" new_data)
     && negb (dict_has "type_name" new_data)
  then dict_set "type_name" (JStr "VStack") new_data
  else new_data.

Definition fix_children (new_data : dict) : dict :=
  match dict_get "children" new_data with
  | Some c => if is_list c then new_data
              else dict_set "children" (JList []) new_data
  | None => new_data
  end.

Definition fix_props (new_data : dict) : dict :=
  match dict_get "props" new_data with
  | Some p => if is_dict p then new_data
              else dict_set "props" (JDict []) new_data
  | None => new_data
  end.

Definition fixups (new_data : dict) : dict :=
  fix_props (fix_children (fix_type_name new_data)).

(** [recursive_sanitize] with a bound on the depth of its calls: [None] is
    the bound reached, never an exception. *)
Fixpoint sanitize_fuel (fuel : nat) (data : json) : option json :=
  match fuel with
  | 0 => None
  | S n =>
      match data with
      | JStr s =>
          let data := Str.strip s in
          if bracketed data then
            match json_loads data with
            | Some parsed => sanitize_fuel n parsed
            | None => Some (JStr data)
            end
          else Some (JStr data)
      | JList l =>
          option_map JList
            (fold_left
               (fun cleaned item =>
                  match cleaned, sanitize_fuel n item with
                  | Some cleaned, Some sanitized =>
                      Some (if is_dict sanitized then cleaned ++ [sanitized]
                            else cleaned)
                  | _, _ => None
                  end) l (Some []))
      | JDict d =>
          option_map (fun new_data => JDict (fixups new_data))
            (fold_left
               (fun new_data kv =>
                  match new_data, sanitize_fuel n (snd kv) with
                  | Some new_data, Some v => Some (dict_set (fst kv) v new_data)
                  | _, _ => None
                  end) d (Some []))
      | _ => Some data
      end
  end.

(** [recursive_sanitize]: the size of the value bounds the depth of the
    calls ([sanitize_fuel_enough]), so the second branch is never taken. *)
Definition recursive_sanitize (data : json) : json :=
  match sanitize_fuel (jsize data) data with
  | Some v => v
  | None => data
  end.

(** ** The sanitizer, for the statements about it *)

(** The first loop of the mapping branch: every value sanitized. *)
Definition sanitize_values (d : dict) : dict :=
  fold_set recursive_sanitize d [].

(** One call, with the calls inside it already [recursive_sanitize]. *)
Definition unfolded (data : json) : json :=
  match data with
  | JStr s =>
      let data := Str.strip s in
      if bracketed data then
        match json_loads data with
        | Some parsed => recursive_sanitize parsed
        | None => JStr data
        end
      else JStr data
  | JList l => JList (filter is_dict (map recursive_sanitize l))
  | JDict d => JDict (fixups (sanitize_values d))
  | _ => data
  end.

(** What the three fix-ups establish. *)
Definition fixed (e : dict) : Prop :=
  ((dict_has "children" e || dict_has "props" e) = true ->
   dict_has "type_name" e = true)
  /\ (forall c, dict_get "children" e = Some c -> is_list c = true)
  /\ (forall p, dict_get "props" e = Some p -> is_dict p = true).

(** The guarantee on a sanitized mapping: [children], when present, is a
    sequence of mappings with the same guarantee; [props], when present, is a
    mapping. *)
Inductive guaranteed : json -> Prop :=
| guaranteed_dict (d : dict) :
    (forall c, dict_get "children" d = Some c ->
               exists l, c = JList l /\ Forall guaranteed l) ->
    (forall p, dict_get "props" d = Some p -> is_dict p = true) ->
    guaranteed (JDict d).

(** The guarantee, as a test. *)
Fixpoint guaranteedb (v : json) : bool :=
  match v with
  | JDict d =>
      (fix children_ok (es : list (string * json)) : bool :=
         match es with
         | [] => true
         | (k, x) :: es' =>
             if String.eqb "children" k then
               match x with
               | JList l => forallb guaranteedb l
               | _ => false
               end
             else children_ok es'
         end) d
      && match dict_get "props" d with
         | Some p => is_dict p
         | None => true
         end
  | _ => false
  end.

(** What a sanitized value is made of: a mapping has the guarantee, and a
    sequence holds only mappings that have it. *)
Definition shaped (v : json) : Prop :=
  match v with
  | JDict _ => guaranteed v
  | JList l => Forall guaranteed l
  | _ => True
  end.

(** ** The extractor, in the words of its description *)

(** The string of the one character [c]. *)
Definition one (c : ascii) : string := String c EmptyString.

(** The index of the first [c] in [s]. *)
Fixpoint first_index (c : ascii) (s : string) : option nat :=
  match s with
  | EmptyString => None
  | String a r => if Ascii.eqb c a then Some 0 else option_map S (first_index c r)
  end.

(** The index of the last [c] in [s]. *)
Fixpoint last_index (c : ascii) (s : string) : option nat :=
  match s with
  | EmptyString => None
  | String a r =>
      match last_index c r with
      | Some j => Some (S j)
      | None => if Ascii.eqb c a then Some 0 else None
      end
  end.

(** The span from the first opening brace to the last closing brace. *)
Definition brace_span (s : string) : option string :=
  match first_index "{" s, last_index "}" s with
  | Some i, Some j => Some (substring i (S j - i) s)
  | _, _ => None
  end.

(** No brace in [s]. *)
Definition brace_free (s : string) : Prop :=
  first_index "{" s = None /\ first_index "}" s = None.

(** The contents of the first block fenced as JSON: what follows the tag,
    up to the next fence. *)
Definition fenced_json (s : string) : option string :=
  match Str.partition fence_json s with
  | Some (_, rest) => Some (Str.split0 fence rest)
  | None => None
  end.

(** The algorithm as described: strip, narrow to the fenced block when there
    is one, decode the span between the braces. *)
Definition extractor_spec (text : string) : option json :=
  let text := Str.strip text in
  let text :=
    match fenced_json text with
    | Some contents => contents
    | None => text
    end in
  match brace_span text with
  | Some span => json_loads span
  | None => None
  end.

(** [t] is a stretch of [s]. *)
Definition within (t s : string) : Prop :=
  exists p q, s = (p ++ t ++ q)%string.

(** An opening brace with a closing brace somewhere after it. *)
Definition balanced (text : string) : Prop :=
  exists a b c, text = (a ++ "{" ++ b ++ "}" ++ c)%string.

(** ** The main loop *)

Module Main.

Definition default_components : json :=
  JList [JStr "VStack"; JStr "HStack"; JStr "ZStack"; JStr "Button";
         JStr "Label"; JStr "Input"; JStr "Image"; JStr "Chart"].

(** [tools[0].get('inputSchema', {}).get('properties', {})
            .get('type_name', {}).get('enum')] *)
Definition schema_enum (tools : json) : result json :=
  tool <- Py.getitem0 tools ;;
  schema <- Py.get tool "inputSchema" (JDict []) ;;
  properties <- Py.get schema "properties" (JDict []) ;;
  type_name <- Py.get properties "type_name" (JDict []) ;;
  Py.get type_name "enum" JNull.

Section Catalog.

Variable float_nonzero : string -> bool.

(** The component list [main] settles on, given the tools of the handshake.
    [len(schema_enum)] is evaluated for the message printed before the
    assignment; [except Exception] covers the whole block. *)
Definition allowed_components (tools : json) : json :=
  let attempt :=
    if Py.truthy float_nonzero tools then
      enum <- schema_enum tools ;;
      if Py.truthy float_nonzero enum then
        _ <- Py.len enum ;; Ok enum
      else Ok default_components
    else Ok default_components in
  match attempt with
  | Ok components => components
  | Raise _ => default_components
  end.

End Catalog.

Definition system_msg (prompt : string) : json :=
  JDict [("role", JStr "system"); ("content", JStr prompt)].

Definition user_msg (user_input : string) : json :=
  JDict [("role", JStr "user"); ("content", JStr user_input)].

Definition tool_msg (rust_code : json) : json :=
  JDict [("role", JStr "tool"); ("content", rust_code)].

(** What one pass of the loop reads from outside: the user's line, the
    message of the model's reply, and the tool calls of that reply (those it
    carries, or the one built from the extracted JSON), each with its
    function name and what [call_tool] returned for it.  A pass that raises
    ends the program and is no pass of the history. *)
Record turn_input : Type := {
  user_input : string;
  reply_message : json;
  tool_calls : list (string * json)
}.

Definition threshold : nat := 6.

(** [if len(messages) > 6: messages = [messages[0]]] *)
Definition truncate (messages : list json) : list json :=
  if threshold <? List.length messages then
    match messages with
    | m0 :: _ => [m0]
    | [] => []
    end
  else messages.

(** The history after one pass of the loop. *)
Definition turn (messages : list json) (t : turn_input) : list json :=
  let messages := truncate messages in
  let messages := messages ++ [user_msg (user_input t)] in
  match tool_calls t with
  | [] => messages ++ [reply_message t]
  | calls =>
      fold_left
        (fun messages call =>
           if String.eqb (fst call) "generate_oxid_ui" then
             messages ++ [reply_message t; tool_msg (snd call)]
           else messages)
        calls messages
  end.

(** The history after the passes [ts], from the first on. *)
Definition run (messages : list json) (ts : list turn_input) : list json :=
  fold_left turn ts messages.

(** [if "Error:" in rust_code] *)
Definition is_error (rust_code : json) : result bool :=
  Py.contains "Error:" rust_code.

End Main.

(** ** The history and the replies, for the statements about them *)

(** The messages one pass of the loop appends: the user's, then the reply
    alone, or the reply and the tool result for each call of the
    generator. *)
Definition turn_messages (t : Main.turn_input) : list json :=
  Main.user_msg (Main.user_input t)
  :: match Main.tool_calls t with
     | [] => [Main.reply_message t]
     | calls =>
         flat_map
           (fun call =>
              if String.eqb (fst call) "generate_oxid_ui" then
                [Main.reply_message t; Main.tool_msg (snd call)]
              else [])
           calls
     end.

(** Every message of the passes [ts]. *)
Definition transcript (ts : list Main.turn_input) : list json :=
  flat_map turn_messages ts.

(** A pass in which the model answers in plain text. *)
Definition plain_turn (line reply : string) : Main.turn_input :=
  {| Main.user_input := line;
     Main.reply_message := JDict [("role", JStr "assistant"); ("content", JStr reply)];
     Main.tool_calls := [] |}.

(** The end of a line. *)
Definition newline : string := String (ascii_of_nat 10) EmptyString.

(** A [tools/list] reply that leaves the tool list empty: none at all, an
    object without [result], or one whose [result] is an object without
    [tools]. *)
Definition degraded_reply (line : string) : Prop :=
  line = EmptyString
  \/ exists d, json_loads line = Some (JDict d)
       /\ (dict_get "result" d = None
           \/ exists r, dict_get "result" d = Some (JDict r)
                /\ dict_get "tools" r = None).

(** A reply whose text is out of reach because a key is missing or the
    content is empty. *)
Definition shape_absent (res : dict) : Prop :=
  dict_get "result" res = None
  \/ exists r, dict_get "result" res = Some (JDict r)
       /\ (dict_get "content" r = None
           \/ dict_get "content" r = Some (JList [])
           \/ (exists c, dict_get "content" r = Some (JDict c))
           \/ exists f rest, dict_get "content" r = Some (JList (JDict f :: rest))
                /\ dict_get "text" f = None).

(** The JSON text of a string without escapes. *)
Definition quoted (s : string) : string :=
  (String Decoder.dquote s ++ String Decoder.dquote EmptyString)%string.

(** ** One pass of the loop, step by step *)

Module Pass.

(** [for tool in v]: the items of a list, the characters of a string, the
    keys of a mapping. *)
Fixpoint split_chars (s : string) : string * list string :=
  match s with
  | EmptyString => (EmptyString, [])
  | String c r =>
      let (k, cs) := split_chars r in
      if Py.is_continuation c then (String c k, cs)
      else (EmptyString, String c k :: cs)
  end.

Definition chars (s : string) : list string :=
  let (k, cs) := split_chars s in
  match k with
  | EmptyString => cs
  | String _ _ => k :: cs
  end.

Definition iterate (v : json) : result (list json) :=
  match v with
  | JList l => Ok l
  | JStr s => Ok (map JStr (chars s))
  | JDict d => Ok (map (fun kv => JStr (fst kv)) d)
  | _ => Raise TypeError
  end.

(** [v[k] = x] for a string [k] *)
Definition setitem (v : json) (k : string) (x : json) : result json :=
  match v with
  | JDict d => Ok (JDict (dict_set k x d))
  | _ => Raise TypeError
  end.

(** [del d[k]] *)
Definition dict_remove (k : string) (d : dict) : dict :=
  filter (fun kv => negb (String.eqb k (fst kv))) d.

(** [v.pop(k)] for a string [k]: the value and what is left. *)
Definition pop (v : json) (k : string) : result (json * json) :=
  match v with
  | JDict d =>
      match dict_get k d with
      | Some x => Ok (x, JDict (dict_remove k d))
      | None => Raise KeyError
      end
  | JList _ => Raise TypeError
  | _ => Raise AttributeError
  end.

(** [v == s] for a string literal [s] *)
Definition equals (v : json) (s : string) : bool :=
  match v with
  | JStr t => String.eqb t s
  | _ => false
  end.

(** [extract_json_from_text(content)]: a content that is no string has no
    [strip]. *)
Definition extract_from (content : json) : result (option json) :=
  match content with
  | JStr text => Ok (extract_json_from_text text)
  | _ => Raise AttributeError
  end.

(** The number [n] in an f-string. *)
Definition decimal (n : nat) : string :=
  NilZero.string_of_uint (Nat.to_uint n).

(** What the loop acts on besides the history: the brain, the files written
    (name and text, in order), the previews launched (the file each was
    given), and the number of random draws made. *)
Record world : Type := {
  brain : MCPClient.process;
  writes : list (string * string);
  launches : list string;
  draws : nat
}.

Section Body.

Variable float_nonzero : string -> bool.

(** [str(v)], the built-in rendering of a value. *)
Variable py_str : json -> string.

(** [json.dumps(v, indent=2)]. *)
Variable dumps : json -> string.

(** What [random.randint(100, 999)] returns, draw after draw. *)
Variable randint : nat -> nat.

(** The tool calls of a reply: those it carries, or the one built from the
    JSON found in its text. *)
Definition tool_calls_of (response : json) : result json :=
  message <- Py.get response "message" (JDict []) ;;
  tool_calls <- Py.get message "tool_calls" JNull ;;
  if Py.truthy float_nonzero tool_calls then Ok tool_calls
  else
    message <- Py.getitem response "message" ;;
    content <- Py.getitem message "content" ;;
    extracted <- extract_from content ;;
    match extracted with
    | Some extracted =>
        if Py.truthy float_nonzero extracted then
          inner <- Py.get extracted "arguments" extracted ;;
          args <- Py.get extracted "parameters" inner ;;
          Ok (JList [JDict [("function",
                             JDict [("name", JStr "generate_oxid_ui");
                                    ("arguments", args)])]])
        else Ok tool_calls
    | None => Ok tool_calls
    end.

(** The arguments made ready for the brain: sanitized, the two defaults put
    in, the view name taken out.  The result is the view name, the schema
    and the number of draws made so far. *)
Definition prepare (drawn : nat) (fn_args : json) : result (json * json * nat) :=
  let fn_args := recursive_sanitize fn_args in
  has_type <- Py.contains "type_name" fn_args ;;
  fn_args <- (if has_type : bool then Ok fn_args
              else setitem fn_args "type_name" (JStr "VStack")) ;;
  has_view <- Py.contains "view_name" fn_args ;;
  state <- (if has_view : bool then Ok (fn_args, drawn)
            else
              fn_args <- setitem fn_args "view_name"
                           (JStr ("AutoView_" ++ decimal (randint drawn))) ;;
              Ok (fn_args, S drawn)) ;;
  popped <- pop (fst state) "view_name" ;;
  Ok (fst popped, snd popped, snd state).

(** [save_rust_code]: the file is opened under the view name rendered by
    the f-string, and [f.write] takes a string only.  The file system is
    taken to accept every name; the text printed is not kept. *)
Definition save_rust_code (view_name code : json) (w : world) : result world :=
  let filename := (MCPClient.format py_str view_name ++ ".rs")%string in
  match code with
  | JStr text =>
      Ok {| brain := brain w; writes := writes w ++ [(filename, text)];
            launches := launches w; draws := draws w |}
  | _ => Raise TypeError
  end.

(** [launch_viewer]: whether the viewer starts is not seen, the attempt
    is. *)
Definition launch_viewer (schema_json : json) (w : world) : world :=
  let temp_file := "temp_preview.json" in
  {| brain := brain w;
     writes := writes w ++ [(temp_file, dumps schema_json)];
     launches := launches w ++ [temp_file];
     draws := draws w |}.

(** The body of [for tool in tool_calls]. *)
Definition handle_call (response tool : json) (messages : list json)
  (w : world) : result (list json * world) :=
  function <- Py.getitem tool "function" ;;
  fn_name <- Py.getitem function "name" ;;
  function <- Py.getitem tool "function" ;;
  fn_args <- Py.getitem function "arguments" ;;
  if equals fn_name "generate_oxid_ui" then
    prepared <- prepare (draws w) fn_args ;;
    let view_name := fst (fst prepared) in
    let fn_args := snd (fst prepared) in
    let schema_for_viewer := fn_args in
    let mcp_args := JDict [("view_name", view_name); ("schema", fn_args)] in
    called <- MCPClient.call_tool py_str "generate_oxid_ui" mcp_args (brain w) ;;
    let rust_code := fst called in
    let w := {| brain := snd called; writes := writes w;
                launches := launches w; draws := snd prepared |} in
    failed <- Main.is_error rust_code ;;
    w <- (if failed : bool then Ok w
          else
            w <- save_rust_code view_name rust_code w ;;
            Ok (launch_viewer schema_for_viewer w)) ;;
    message <- Py.getitem response "message" ;;
    Ok (messages ++ [message; Main.tool_msg rust_code], w)
  else Ok (messages, w).

Fixpoint handle_calls (response : json) (tools : list json)
  (messages : list json) (w : world) : result (list json * world) :=
  match tools with
  | [] => Ok (messages, w)
  | tool :: rest =>
      state <- handle_call response tool messages w ;;
      handle_calls response rest (fst state) (snd state)
  end.

(** The body of the loop from the truncation on, for the line the user
    typed and the reply the model gave. *)
Definition pass (user_input : string) (response : json)
  (messages : list json) (w : world) : result (list json * world) :=
  let messages := Main.truncate messages in
  let messages := messages ++ [Main.user_msg user_input] in
  tool_calls <- tool_calls_of response ;;
  if Py.truthy float_nonzero tool_calls then
    tools <- iterate tool_calls ;;
    handle_calls response tools messages w
  else
    message <- Py.getitem response "message" ;;
    _ <- Py.getitem message "content" ;;
    message <- Py.getitem response "message" ;;
    Ok (messages ++ [message], w).

End Body.

(** A mapping once the default kind is in. *)
Definition with_type (d : dict) : dict :=
  if dict_has "type_name" d then d else dict_set "type_name" (JStr "VStack") d.

(** A tool call whose function has the name [name] and some arguments. *)
Definition names (tool : json) (name : json) : Prop :=
  exists t f args,
    tool = JDict t /\ dict_get "function" t = Some (JDict f)
    /\ dict_get "name" f = Some name /\ dict_get "arguments" f = Some args.

(** The message of a reply, [null] when it has none. *)
Definition message_of (response : json) : json :=
  match Py.getitem response "message" with
  | Ok message => message
  | Raise _ => JNull
  end.

(** What the model is called with in a pass. *)
Definition prompt (user_input : string) (messages : list json) : list json :=
  Main.truncate messages ++ [Main.user_msg user_input].

End Pass.

(** * Properties *)

(** ** Strings *)

Module StrFacts.
Import Str.

Lemma append_assoc (a b c : string) : ((a ++ b) ++ c = a ++ (b ++ c))%string.
Proof. induction a; simpl; congruence. Qed.

Lemma append_nil_r (a : string) : (a ++ EmptyString)%string = a.
Proof. induction a; simpl; congruence. Qed.

Lemma length_append (a b : string) :
  String.length (a ++ b) = String.length a + String.length b.
Proof. induction a; simpl; congruence. Qed.

Lemma strip_prefix_spec (p s r : string) :
  strip_prefix p s = Some r <-> s = (p ++ r)%string.
Proof.
  revert s; induction p as [|a p IH]; intros s; simpl.
  - split; congruence.
  - destruct s as [|b s].
    + split; discriminate.
    + destruct (Ascii.eqb_spec a b) as [->|Hne].
      * rewrite IH. split; congruence.
      * split; [discriminate | intros H; inversion H; congruence].
Qed.

Lemma strip_prefix_app (p s : string) : strip_prefix p (p ++ s) = Some s.
Proof. now apply strip_prefix_spec. Qed.

(** Two prefixes of one string: one of them begins the other. *)
Lemma prefix_comparable (p q s r : string) :
  strip_prefix q (p ++ s) = Some r ->
  (exists x, strip_prefix q p = Some x) \/ (exists x, strip_prefix p q = Some x).
Proof.
  revert p; induction q as [|b q IH]; intros p H; simpl in *.
  - left; eauto.
  - destruct p as [|a p]; simpl in *.
    + right; eauto.
    + destruct (Ascii.eqb_spec b a) as [->|Hne]; [|discriminate].
      rewrite Ascii.eqb_refl. now apply IH.
Qed.

Lemma first_match_in (ps : list string) (s r : string) :
  first_match ps s = Some r ->
  exists p, In p ps /\ s = (p ++ r)%string.
Proof.
  induction ps as [|p ps IH]; simpl; [discriminate|].
  destruct (strip_prefix p s) as [r'|] eqn:E.
  - intros [= ->]. exists p. split; [now left|]. now apply strip_prefix_spec.
  - intros H. destruct (IH H) as (p' & Hin & ->). exists p'. split; [now right|reflexivity].
Qed.

Lemma first_match_none (ps : list string) (s : string) :
  first_match ps s = None ->
  forall p, In p ps -> strip_prefix p s = None.
Proof.
  induction ps as [|q ps IH]; simpl; [contradiction|].
  destruct (strip_prefix q s) eqn:E; [discriminate|].
  intros H p [<-|Hin]; auto.
Qed.

Lemma first_match_unique (ps : list string) (p s : string) :
  In p ps ->
  (forall q r, In q ps -> strip_prefix q (p ++ s) = Some r -> r = s) ->
  first_match ps (p ++ s) = Some s.
Proof.
  intros Hin Huniq.
  destruct (first_match ps (p ++ s)) as [r|] eqn:E.
  - destruct (first_match_in _ _ _ E) as (q & Hq & Heq).
    f_equal. apply (Huniq q r Hq). now apply strip_prefix_spec.
  - pose proof (first_match_none _ _ E p Hin) as H.
    rewrite strip_prefix_app in H. discriminate.
Qed.

Lemma whitespace_prefix_free : prefix_free whitespace = true.
Proof. vm_compute. reflexivity. Qed.

Lemma whitespace_nonempty :
  forallb (fun p => negb (String.eqb p EmptyString)) whitespace = true.
Proof. vm_compute. reflexivity. Qed.

Lemma prefix_free_eq (p q x : string) :
  In p whitespace -> In q whitespace -> strip_prefix p q = Some x ->
  x = EmptyString.
Proof.
  intros Hp Hq E.
  pose proof whitespace_prefix_free as H. unfold prefix_free in H.
  rewrite forallb_forall in H. specialize (H p Hp).
  rewrite forallb_forall in H. specialize (H q Hq).
  rewrite E in H. destruct x; [reflexivity|discriminate].
Qed.

Lemma ws_prefix_intro (p s : string) :
  In p whitespace -> ws_prefix (p ++ s) = Some s.
Proof.
  intros Hin. apply first_match_unique; [assumption|].
  intros q r Hq E.
  destruct (prefix_comparable _ _ _ _ E) as [[x Hx]|[x Hx]].
  - pose proof (prefix_free_eq _ _ _ Hq Hin Hx) as ->.
    apply strip_prefix_spec in Hx. rewrite append_nil_r in Hx. subst q.
    rewrite strip_prefix_app in E. congruence.
  - pose proof (prefix_free_eq _ _ _ Hin Hq Hx) as ->.
    apply strip_prefix_spec in Hx. rewrite append_nil_r in Hx. subst q.
    rewrite strip_prefix_app in E. congruence.
Qed.

Lemma ws_prefix_elim (s r : string) :
  ws_prefix s = Some r ->
  exists p, In p whitespace /\ p <> EmptyString /\ s = (p ++ r)%string.
Proof.
  intros H. destruct (first_match_in _ _ _ H) as (p & Hin & ->).
  exists p. repeat split; auto.
  pose proof whitespace_nonempty as Hne. rewrite forallb_forall in Hne.
  specialize (Hne p Hin). intros ->. discriminate.
Qed.

Lemma ws_prefix_shorter (s r : string) :
  ws_prefix s = Some r -> String.length r < String.length s.
Proof.
  intros H. destruct (ws_prefix_elim _ _ H) as (p & _ & Hne & ->).
  rewrite length_append. destruct p; [congruence|simpl; lia].
Qed.

Lemma ws_prefix_app (u x t : string) :
  ws_prefix u = Some x -> ws_prefix (u ++ t) = Some (x ++ t)%string.
Proof.
  intros H. destruct (ws_prefix_elim _ _ H) as (p & Hin & _ & ->).
  rewrite append_assoc. now apply ws_prefix_intro.
Qed.

Lemma WS_app (u t : string) : WS u -> WS t -> WS (u ++ t).
Proof.
  induction 1; intros Ht; simpl; [assumption|].
  rewrite append_assoc. constructor; auto.
Qed.

Lemma lstrip_fuel_length (n : nat) (s : string) :
  String.length (lstrip_fuel n s) <= String.length s.
Proof.
  revert s; induction n as [|n IH]; intros s; simpl; [lia|].
  destruct (ws_prefix s) as [r|] eqn:E; [|lia].
  pose proof (ws_prefix_shorter _ _ E). specialize (IH r). lia.
Qed.

Lemma lstrip_fuel_done (n : nat) (s : string) :
  String.length s <= n -> ws_prefix (lstrip_fuel n s) = None.
Proof.
  revert s; induction n as [|n IH]; intros s Hn; simpl.
  - destruct s; [reflexivity|simpl in Hn; lia].
  - destruct (ws_prefix s) as [r|] eqn:E; [|assumption].
    apply IH. pose proof (ws_prefix_shorter _ _ E). lia.
Qed.

Lemma lstrip_fuel_fixed (n : nat) (s : string) :
  ws_prefix s = None -> lstrip_fuel n s = s.
Proof. destruct n; simpl; [reflexivity|]. now intros ->. Qed.

Lemma lstrip_fuel_split (n : nat) (s : string) :
  exists pre, WS pre /\ s = (pre ++ lstrip_fuel n s)%string.
Proof.
  revert s; induction n as [|n IH]; intros s; simpl.
  - exists EmptyString. split; [constructor|reflexivity].
  - destruct (ws_prefix s) as [r|] eqn:E.
    + destruct (ws_prefix_elim _ _ E) as (p & Hin & _ & ->).
      destruct (IH r) as (pre & Hpre & Hr).
      exists (p ++ pre)%string. split; [now constructor|].
      rewrite append_assoc. congruence.
    + exists EmptyString. split; [constructor|reflexivity].
Qed.

Lemma lstrip_length (s : string) : String.length (lstrip s) <= String.length s.
Proof. apply lstrip_fuel_length. Qed.

Lemma lstrip_done (s : string) : ws_prefix (lstrip s) = None.
Proof. apply lstrip_fuel_done. lia. Qed.

Lemma lstrip_fixed (s : string) : ws_prefix s = None -> lstrip s = s.
Proof. apply lstrip_fuel_fixed. Qed.

Lemma lstrip_split (s : string) :
  exists pre, WS pre /\ s = (pre ++ lstrip s)%string.
Proof. apply lstrip_fuel_split. Qed.

Lemma WS_lstrip_fuel (s : string) :
  WS s -> forall n, String.length s <= n -> lstrip_fuel n s = EmptyString.
Proof.
  induction 1 as [|p s Hin Hs IH]; intros n Hn.
  - now destruct n.
  - assert (Hp : p <> EmptyString).
    { pose proof whitespace_nonempty as Hne. rewrite forallb_forall in Hne.
      specialize (Hne p Hin). intros ->. discriminate. }
    rewrite length_append in Hn.
    destruct n as [|n]; [destruct p; [congruence|simpl in Hn; lia]|].
    simpl. rewrite (ws_prefix_intro p s Hin). apply IH.
    destruct p; [congruence|simpl in Hn; lia].
Qed.

Lemma all_ws_WS (s : string) : all_ws s = true <-> WS s.
Proof.
  unfold all_ws, lstrip. split.
  - destruct (lstrip_fuel_split (String.length s) s) as (pre & Hpre & Hs).
    destruct (lstrip_fuel (String.length s) s); [|discriminate].
    intros _. rewrite append_nil_r in Hs. now subst.
  - intros H. now rewrite (WS_lstrip_fuel s H).
Qed.

Lemma rstrip_split (s : string) :
  exists post, WS post /\ s = (rstrip s ++ post)%string.
Proof.
  induction s as [|a r IH].
  - exists EmptyString. split; [constructor|reflexivity].
  - cbn [rstrip]. destruct (all_ws (String a r)) eqn:E.
    + exists (String a r). split; [now apply all_ws_WS|reflexivity].
    + destruct IH as (post & Hpost & Hr). exists post. split; [assumption|].
      simpl. congruence.
Qed.

Lemma rstrip_length (s : string) : String.length (rstrip s) <= String.length s.
Proof.
  destruct (rstrip_split s) as (post & _ & H).
  rewrite H at 2. rewrite length_append. lia.
Qed.

Lemma rstrip_idem (s : string) : rstrip (rstrip s) = rstrip s.
Proof.
  induction s as [|a r IH]; [reflexivity|].
  cbn [rstrip]. destruct (all_ws (String a r)) eqn:E; [reflexivity|].
  cbn [rstrip]. destruct (all_ws (String a (rstrip r))) eqn:E'.
  - exfalso. apply all_ws_WS in E'.
    destruct (rstrip_split r) as (post & Hpost & Hr).
    assert (W : WS (String a (rstrip r) ++ post)) by now apply WS_app.
    simpl in W. rewrite <- Hr in W. apply all_ws_WS in W. congruence.
  - now rewrite IH.
Qed.

Lemma rstrip_keeps_head (t : string) :
  ws_prefix t = None -> ws_prefix (rstrip t) = None.
Proof.
  intros H. destruct (rstrip_split t) as (post & _ & Ht).
  destruct (ws_prefix (rstrip t)) as [x|] eqn:E; [|reflexivity].
  apply (ws_prefix_app _ _ post) in E. rewrite <- Ht in E. congruence.
Qed.

Lemma strip_length (s : string) : String.length (strip s) <= String.length s.
Proof.
  unfold strip. pose proof (rstrip_length (lstrip s)).
  pose proof (lstrip_length s). lia.
Qed.

Lemma strip_idem (s : string) : strip (strip s) = strip s.
Proof.
  unfold strip.
  rewrite (lstrip_fixed (rstrip (lstrip s))).
  - apply rstrip_idem.
  - apply rstrip_keeps_head, lstrip_done.
Qed.

(** [strip] removes a run of whitespace at each end. *)
Lemma strip_split (s : string) :
  exists pre post, WS pre /\ WS post /\ s = (pre ++ strip s ++ post)%string.
Proof.
  destruct (lstrip_split s) as (pre & Hpre & Hs).
  destruct (rstrip_split (lstrip s)) as (post & Hpost & Hl).
  exists pre, post. repeat split; auto. unfold strip. congruence.
Qed.

End StrFacts.

(** ** The decoder: a value is no larger than its text *)

Lemma jsize_pos (v : json) : 1 <= jsize v.
Proof. destruct v; simpl; lia. Qed.

Module DecoderFacts.
Import Decoder StrFacts.

Lemma jsize_dict (d : dict) : jsize (JDict d) = S (dsize d).
Proof. reflexivity. Qed.

Lemma dsize_app (d e : list (string * json)) : dsize (d ++ e) = dsize d + dsize e.
Proof. unfold dsize. now rewrite map_app, list_sum_app. Qed.

Lemma dsize_dict_set (k : string) (v : json) (d : dict) :
  dsize (dict_set k v d) <= dsize d + jsize v.
Proof.
  induction d as [|[k' v'] d IH]; simpl.
  - unfold dsize; simpl. lia.
  - destruct (String.eqb k k'); unfold dsize in *; simpl in *; lia.
Qed.

Lemma dsize_fold_set (pairs : list (string * json)) (d : dict) :
  dsize (fold_left (fun d kv => dict_set (fst kv) (snd kv) d) pairs d)
  <= dsize d + dsize pairs.
Proof.
  revert d; induction pairs as [|[k v] pairs IH]; intros d; simpl.
  - unfold dsize at 3; simpl. lia.
  - specialize (IH (dict_set k v d)).
    pose proof (dsize_dict_set k v d).
    change (dsize ((k, v) :: pairs)) with (jsize v + dsize pairs). lia.
Qed.

Lemma dsize_dict_of_pairs (pairs : list (string * json)) :
  dsize (dict_of_pairs pairs) <= dsize pairs.
Proof. apply (dsize_fold_set pairs []). Qed.

Lemma skip_ws_length (s : string) :
  String.length (skip_ws s) <= String.length s.
Proof.
  induction s as [|c r IH]; simpl; [lia|].
  destruct (is_json_ws c); simpl; lia.
Qed.

Lemma expect_length (c : ascii) (s r : string) :
  expect c s = Some r -> String.length s = S (String.length r).
Proof.
  destruct s as [|a s]; simpl; [discriminate|].
  destruct (Ascii.eqb a c); [|discriminate]. now intros [= ->].
Qed.

Lemma chr_length (u : N) : 1 <= String.length (chr u) <= 4.
Proof.
  unfold chr.
  destruct (u <? 128)%N; [simpl; lia|].
  destruct (u <? 2048)%N; [simpl; lia|].
  destruct (u <? 65536)%N; simpl; lia.
Qed.

Lemma chr_length_bmp (u : N) : (u < 65536)%N -> String.length (chr u) <= 3.
Proof.
  intros H. unfold chr.
  destruct (u <? 128)%N; [simpl; lia|].
  destruct (u <? 2048)%N; [simpl; lia|].
  destruct (N.ltb_spec u 65536); [simpl; lia|lia].
Qed.

Lemma hex_digit_bound (c : ascii) (x : N) : hex_digit c = Some x -> (x < 16)%N.
Proof.
  unfold hex_digit. cbv zeta. generalize (nat_of_ascii c) as n. intros n.
  destruct ((48 <=? n) && (n <=? 57)) eqn:E1.
  { intros H; injection H as <-.
    apply andb_prop in E1 as [A B]. apply Nat.leb_le in A, B. lia. }
  destruct ((65 <=? n) && (n <=? 70)) eqn:E2.
  { intros H; injection H as <-.
    apply andb_prop in E2 as [A B]. apply Nat.leb_le in A, B. lia. }
  destruct ((97 <=? n) && (n <=? 102)) eqn:E3; [|discriminate].
  intros H; injection H as <-.
  apply andb_prop in E3 as [A B]. apply Nat.leb_le in A, B. lia.
Qed.

Lemma hex4_bound (a b c d : ascii) (u : N) :
  hex4 a b c d = Some u -> (u < 65536)%N.
Proof.
  unfold hex4.
  destruct (hex_digit a) eqn:Ea; [|discriminate].
  destruct (hex_digit b) eqn:Eb; [|discriminate].
  destruct (hex_digit c) eqn:Ec; [|discriminate].
  destruct (hex_digit d) eqn:Ed; [|discriminate].
  apply hex_digit_bound in Ea, Eb, Ec, Ed. intros [= <-]. lia.
Qed.

Lemma push_inv (chunk : string) (r : option (string * string)) (str rest : string) :
  push chunk r = Some (str, rest) ->
  exists str', r = Some (str', rest) /\ str = (chunk ++ str')%string.
Proof.
  destruct r as [[str' rest']|]; simpl; [|discriminate].
  intros [= <- <-]. eauto.
Qed.

(** The decoded string and what follows it fit in the text, the closing
    quote apart. *)
Lemma scanstring_bound (n : nat) :
  forall s str rest,
    String.length s <= n ->
    scanstring s = Some (str, rest) ->
    String.length str + String.length rest + 1 <= String.length s.
Proof.
  induction n as [|n IH]; intros s str rest Hn H.
  - destruct s; [discriminate|simpl in Hn; lia].
  - destruct s as [|c r]; [discriminate|]. simpl in Hn.
    cbn [scanstring] in H.
    destruct (Ascii.eqb c dquote).
    { injection H as <- <-. simpl. lia. }
    destruct (Ascii.eqb c backslash).
    2:{ destruct (nat_of_ascii c <? 32); [discriminate|].
        apply push_inv in H as (str' & H & ->).
        apply IH in H; [|lia]. simpl. lia. }
    destruct r as [|e r1]; [discriminate|]. simpl in Hn.
    destruct (Ascii.eqb e "u").
    2:{ destruct (unescape e); [|discriminate].
        apply push_inv in H as (str' & H & ->).
        apply IH in H; [|lia]. simpl. lia. }
    destruct r1 as [|h1 [|h2 [|h3 [|h4 r2]]]]; try discriminate.
    simpl in Hn.
    destruct (hex4 h1 h2 h3 h4) as [uni|] eqn:Eu; [|discriminate].
    pose proof (chr_length_bmp uni (hex4_bound _ _ _ _ _ Eu)) as Hc.
    assert (Hplain : forall str rest,
      push (chr uni) (scanstring r2) = Some (str, rest) ->
      String.length str + String.length rest + 1
      <= String.length (String c (String e (String h1 (String h2 (String h3 (String h4 r2))))))).
    { intros str0 rest0 H0. apply push_inv in H0 as (str' & H0 & ->).
      apply IH in H0; [|lia]. rewrite length_append. simpl. lia. }
    destruct r2 as [|b [|u r3]]; try (apply Hplain; exact H).
    destruct (is_high_surrogate uni && Ascii.eqb b backslash && Ascii.eqb u "u");
      [|apply Hplain; exact H].
    destruct r3 as [|k1 [|k2 [|k3 [|k4 r4]]]]; try discriminate.
    destruct (hex4 k1 k2 k3 k4) as [uni2|]; [|discriminate].
    destruct (is_low_surrogate uni2); [|apply Hplain; exact H].
    apply push_inv in H as (str' & H & ->).
    simpl in Hn. apply IH in H; [|lia].
    rewrite length_append.
    pose proof (chr_length (65536 + (uni - 55296) * 1024 + (uni2 - 56320))) as Hc2.
    revert Hc2. generalize (chr (65536 + (uni - 55296) * 1024 + (uni2 - 56320))).
    intros ch Hc2. cbn [String.length] in *. lia.
Qed.

Lemma span_digits_length (s ds r : string) :
  span_digits s = (ds, r) ->
  String.length ds + String.length r = String.length s.
Proof.
  revert ds r; induction s as [|c s IH]; intros ds r; simpl.
  - intros [= <- <-]. reflexivity.
  - destruct (is_digit c).
    + destruct (span_digits s) as [ds' r'] eqn:E. intros [= <- <-].
      specialize (IH _ _ eq_refl). simpl. lia.
    + intros [= <- <-]. reflexivity.
Qed.

Lemma int_part_length (s ip r : string) :
  int_part s = Some (ip, r) -> String.length r < String.length s.
Proof.
  destruct s as [|c s]; simpl; [discriminate|].
  destruct (Ascii.eqb c "0"). { intros [= <- <-]. lia. }
  destruct (is_digit c); [|discriminate].
  destruct (span_digits s) as [ds r'] eqn:E. intros [= <- <-].
  apply span_digits_length in E. lia.
Qed.

Lemma frac_part_length (s f r : string) :
  frac_part s = Some (f, r) -> String.length r <= String.length s.
Proof.
  unfold frac_part. destruct s as [|c [|d s]]; cbv beta iota; try discriminate.
  destruct (Ascii.eqb c "." && is_digit d); [|discriminate].
  destruct (span_digits (String d s)) as [ds r'] eqn:E. intros [= <- <-].
  apply span_digits_length in E. cbn [String.length] in *. lia.
Qed.

Lemma exp_part_length (s e r : string) :
  exp_part s = Some (e, r) -> String.length r <= String.length s.
Proof.
  unfold exp_part. destruct s as [|c [|g s]]; cbv beta iota; try discriminate.
  destruct (Ascii.eqb c "e" || Ascii.eqb c "E"); [|discriminate].
  destruct (Ascii.eqb g "-" || Ascii.eqb g "+").
  - destruct s as [|d s']; cbv beta iota; [discriminate|].
    destruct (is_digit d); [|discriminate].
    destruct (span_digits (String d s')) as [ds r'] eqn:E. intros [= <- <-].
    apply span_digits_length in E. cbn [String.length] in *. lia.
  - destruct (is_digit g); [|discriminate].
    destruct (span_digits (String g s)) as [ds r'] eqn:E. intros [= <- <-].
    apply span_digits_length in E. cbn [String.length] in *. lia.
Qed.

Lemma match_number_bound (s : string) (v : json) (r : string) :
  match_number s = Some (v, r) ->
  jsize v = 1 /\ String.length r < String.length s.
Proof.
  unfold match_number.
  set (head := match s with
               | String c r0 => if Ascii.eqb c "-" then (true, r0) else (false, s)
               | EmptyString => (false, s)
               end).
  assert (Hhead : String.length (snd head) <= String.length s).
  { subst head. destruct s as [|c r0]; simpl; [lia|].
    destruct (Ascii.eqb c "-"); simpl; lia. }
  destruct head as [neg s1]. simpl in Hhead.
  destruct (int_part s1) as [[integer s2]|] eqn:Ei; [|discriminate].
  apply int_part_length in Ei.
  set (fr := match frac_part s2 with
             | Some (f, r0) => (f, r0)
             | None => (EmptyString, s2)
             end).
  assert (Hfr : String.length (snd fr) <= String.length s2).
  { subst fr. destruct (frac_part s2) as [[f r0]|] eqn:Ef; simpl; [|lia].
    now apply frac_part_length in Ef. }
  destruct fr as [frac s3]. simpl in Hfr.
  set (ex := match exp_part s3 with
             | Some (e, r0) => (e, r0)
             | None => (EmptyString, s3)
             end).
  assert (Hex : String.length (snd ex) <= String.length s3).
  { subst ex. destruct (exp_part s3) as [[e r0]|] eqn:Ee; simpl; [|lia].
    now apply exp_part_length in Ee. }
  destruct ex as [exp s4]. simpl in Hex.
  destruct frac, exp; intros [= <- <-]; simpl; split; (reflexivity || lia).
Qed.

Lemma constant_bound (word : string) (v : json) (s : string) (v' : json) (r : string) :
  constant word v s = Some (v', r) ->
  v' = v /\ String.length s = String.length word + String.length r.
Proof.
  unfold constant. destruct (Str.strip_prefix word s) as [r'|] eqn:E; [|discriminate].
  intros [= <- <-]. apply strip_prefix_spec in E. subst s.
  now rewrite length_append.
Qed.

Lemma or_else_inv {A} (x y : option A) (a : A) :
  or_else x y = Some a -> x = Some a \/ y = Some a.
Proof. destruct x; simpl; auto. Qed.

Lemma lsize_app (l m : list json) : lsize (l ++ m) = lsize l + lsize m.
Proof. unfold lsize. now rewrite map_app, list_sum_app. Qed.

(** The three scanners together, by induction on the fuel. *)
Lemma scan_bound (n : nat) :
  (forall s v r, scan_once n s = Some (v, r) ->
     jsize v + String.length r <= String.length s)
  /\ (forall s values l r, array_items n s values = Some (l, r) ->
     lsize l + String.length r + 1 <= lsize values + String.length s)
  /\ (forall s pairs l r, object_pairs n s pairs = Some (l, r) ->
     dsize l + String.length r + 1 <= dsize pairs + String.length s).
Proof.
  induction n as [|n (IHv & IHa & IHo)]; [repeat split; discriminate|].
  split; [|split].
  - intros s v r H. cbn [scan_once] in H.
    destruct s as [|c s']; [discriminate|].
    destruct (Ascii.eqb c dquote).
    { destruct (scanstring s') as [[str r']|] eqn:E; [|discriminate].
      injection H as <- <-.
      apply (scanstring_bound _ _ _ _ (le_n _)) in E. simpl. lia. }
    destruct (Ascii.eqb c "{").
    { pose proof (skip_ws_length s') as Hws.
      destruct (skip_ws s') as [|k r']; [discriminate|]. simpl in Hws.
      destruct (Ascii.eqb k "}"). { injection H as <- <-. simpl. lia. }
      destruct (Ascii.eqb k dquote); [|discriminate].
      destruct (object_pairs n r' []) as [[pairs rest]|] eqn:E; [|discriminate].
      injection H as <- <-. apply IHo in E.
      pose proof (dsize_dict_of_pairs pairs).
      rewrite jsize_dict. unfold dsize at 2 in E. simpl in *. lia. }
    destruct (Ascii.eqb c "[").
    { pose proof (skip_ws_length s') as Hws.
      destruct (skip_ws s') as [|k r']; [discriminate|]. simpl in Hws.
      destruct (Ascii.eqb k "]"). { injection H as <- <-. simpl. lia. }
      destruct (array_items n (String k r') []) as [[values rest]|] eqn:E;
        [|discriminate].
      injection H as <- <-. apply IHa in E.
      change (jsize (JList values)) with (S (lsize values)).
      unfold lsize at 2 in E. simpl in *. lia. }
    repeat (apply or_else_inv in H as [H|H]).
    all: try (apply constant_bound in H as [-> H]; rewrite H; simpl; lia).
    apply match_number_bound in H as [-> H]. lia.
  - intros s values l r H. cbn [array_items] in H.
    destruct (scan_once n s) as [[value s1]|] eqn:E; [|discriminate].
    apply IHv in E. pose proof (skip_ws_length s1) as Hws.
    destruct (skip_ws s1) as [|c s2]; [discriminate|]. simpl in Hws.
    destruct (Ascii.eqb c "]").
    { injection H as <- <-. rewrite lsize_app. unfold lsize at 2. simpl. lia. }
    destruct (Ascii.eqb c ","); [|discriminate].
    apply IHa in H. rewrite lsize_app in H. unfold lsize at 3 in H. simpl in H.
    pose proof (skip_ws_length s2). lia.
  - intros s pairs l r H. cbn [object_pairs] in H.
    destruct (scanstring s) as [[key s1]|] eqn:Ek; [|discriminate].
    apply (scanstring_bound _ _ _ _ (le_n _)) in Ek.
    destruct (expect ":" (skip_ws s1)) as [s2|] eqn:Ec; [|discriminate].
    apply expect_length in Ec. pose proof (skip_ws_length s1).
    destruct (scan_once n (skip_ws s2)) as [[value s3]|] eqn:E; [|discriminate].
    apply IHv in E. pose proof (skip_ws_length s2).
    pose proof (skip_ws_length s3) as Hws.
    destruct (skip_ws s3) as [|c s4]; [discriminate|]. simpl in Hws.
    destruct (Ascii.eqb c "}").
    { injection H as <- <-. rewrite dsize_app. unfold dsize at 2. simpl. lia. }
    destruct (Ascii.eqb c ","); [|discriminate].
    destruct (expect dquote (skip_ws s4)) as [s5|] eqn:Eq; [|discriminate].
    apply expect_length in Eq. pose proof (skip_ws_length s4).
    apply IHo in H. rewrite dsize_app in H. unfold dsize at 3 in H. simpl in H.
    lia.
Qed.

(** The scanners do not run out of fuel: with twice the length of the text
    and one or two more, more fuel changes nothing. *)
Lemma scan_stable (n : nat) :
  (forall m s, 2 * String.length s + 1 <= n -> 2 * String.length s + 1 <= m ->
     scan_once n s = scan_once m s)
  /\ (forall m s values,
        2 * String.length s + 2 <= n -> 2 * String.length s + 2 <= m ->
        array_items n s values = array_items m s values)
  /\ (forall m s pairs,
        2 * String.length s + 2 <= n -> 2 * String.length s + 2 <= m ->
        object_pairs n s pairs = object_pairs m s pairs).
Proof.
  induction n as [|n (IHv & IHa & IHo)]; [repeat split; intros; lia|].
  split; [|split].
  - intros [|m] s Hn Hm; [lia|]. cbn [scan_once].
    destruct s as [|c s']; [reflexivity|]. cbn [String.length] in Hn, Hm.
    destruct (Ascii.eqb c dquote); [reflexivity|].
    pose proof (skip_ws_length s') as Hws.
    destruct (Ascii.eqb c "{").
    { destruct (skip_ws s') as [|k r']; [reflexivity|]. cbn [String.length] in Hws.
      destruct (Ascii.eqb k "}"); [reflexivity|].
      destruct (Ascii.eqb k dquote); [|reflexivity].
      rewrite (IHo m r' []) by lia. reflexivity. }
    destruct (Ascii.eqb c "[").
    { destruct (skip_ws s') as [|k r'] eqn:E; [reflexivity|].
      cbn [String.length] in Hws.
      destruct (Ascii.eqb k "]"); [reflexivity|].
      rewrite (IHa m (String k r') []) by (cbn [String.length]; lia).
      reflexivity. }
    reflexivity.
  - intros [|m] s values Hn Hm; [lia|]. cbn [array_items].
    rewrite (IHv m s) by lia.
    destruct (scan_once m s) as [[value s1]|] eqn:E; [|reflexivity].
    apply scan_bound in E. pose proof (jsize_pos value).
    pose proof (skip_ws_length s1) as Hws.
    destruct (skip_ws s1) as [|c s2]; [reflexivity|]. cbn [String.length] in Hws.
    destruct (Ascii.eqb c "]"); [reflexivity|].
    destruct (Ascii.eqb c ","); [|reflexivity].
    pose proof (skip_ws_length s2).
    apply IHa; lia.
  - intros [|m] s pairs Hn Hm; [lia|]. cbn [object_pairs].
    destruct (scanstring s) as [[key s1]|] eqn:Ek; [|reflexivity].
    apply (scanstring_bound _ _ _ _ (le_n _)) in Ek.
    pose proof (skip_ws_length s1).
    destruct (expect ":" (skip_ws s1)) as [s2|] eqn:Ec; [|reflexivity].
    apply expect_length in Ec. pose proof (skip_ws_length s2).
    rewrite (IHv m (skip_ws s2)) by lia.
    destruct (scan_once m (skip_ws s2)) as [[value s3]|] eqn:E; [|reflexivity].
    apply scan_bound in E. pose proof (jsize_pos value).
    pose proof (skip_ws_length s3) as Hws.
    destruct (skip_ws s3) as [|c s4]; [reflexivity|]. cbn [String.length] in Hws.
    destruct (Ascii.eqb c "}"); [reflexivity|].
    destruct (Ascii.eqb c ","); [|reflexivity].
    pose proof (skip_ws_length s4).
    destruct (expect dquote (skip_ws s4)) as [s5|] eqn:Eq; [|reflexivity].
    apply expect_length in Eq. apply IHo; lia.
Qed.

End DecoderFacts.

(** [json_loads] reads every document with fuel to spare: a [None] is a
    document that does not decode. *)
Lemma json_loads_fuel (s : string) (n : nat) :
  Decoder.fuel_for s <= n ->
  Decoder.scan_once n (Decoder.skip_ws s)
  = Decoder.scan_once (Decoder.fuel_for s) (Decoder.skip_ws s).
Proof.
  intros H. pose proof (DecoderFacts.skip_ws_length s). unfold Decoder.fuel_for in *.
  apply (proj1 (DecoderFacts.scan_stable n)); lia.
Qed.

(** What [json.loads] returns is no larger than the text it read. *)
Lemma json_loads_size (s : string) (v : json) :
  json_loads s = Some v -> jsize v <= String.length s.
Proof.
  unfold json_loads.
  destruct (Decoder.scan_once _ _) as [[obj rest]|] eqn:E; [|discriminate].
  destruct (Decoder.skip_ws rest); [|discriminate]. intros [= <-].
  apply DecoderFacts.scan_bound in E.
  pose proof (DecoderFacts.skip_ws_length s). lia.
Qed.

(** A document that begins with a brace decodes to a mapping. *)
Lemma json_loads_brace (s : string) (v : json) :
  json_loads (String "{" s) = Some v -> is_dict v = true.
Proof.
  unfold json_loads, Decoder.fuel_for.
  change (Decoder.skip_ws (String "{" s)) with (String "{"%char s).
  rewrite Nat.add_comm. cbn [Nat.add Decoder.scan_once].
  change (Ascii.eqb "{" Decoder.dquote) with false.
  change (Ascii.eqb "{" "{") with true. cbv iota.
  destruct (Decoder.skip_ws s) as [|k r']; [discriminate|].
  destruct (Ascii.eqb k "}").
  { destruct (Decoder.skip_ws r'); [|discriminate]. now intros [= <-]. }
  destruct (Ascii.eqb k Decoder.dquote); [|discriminate].
  destruct (Decoder.object_pairs _ _ _) as [[pairs rest]|]; [|discriminate].
  destruct (Decoder.skip_ws rest); [|discriminate]. now intros [= <-].
Qed.

(** ** Dictionaries *)

Module DictFacts.

Lemma dict_get_set_same (k : string) (v : json) (d : dict) :
  dict_get k (dict_set k v d) = Some v.
Proof.
  induction d as [|[k' v'] d IH]; simpl.
  - now rewrite String.eqb_refl.
  - destruct (String.eqb k k') eqn:E; simpl; rewrite E; auto.
Qed.

Lemma dict_get_set_other (k k' : string) (v : json) (d : dict) :
  k' <> k -> dict_get k' (dict_set k v d) = dict_get k' d.
Proof.
  intros Hne. induction d as [|[k0 v0] d IH]; simpl.
  - destruct (String.eqb_spec k' k); [contradiction|reflexivity].
  - destruct (String.eqb_spec k k0) as [->|Hk]; simpl.
    + destruct (String.eqb_spec k' k0); [contradiction|reflexivity].
    + destruct (String.eqb k' k0); auto.
Qed.

Lemma dict_has_set_same (k : string) (v : json) (d : dict) :
  dict_has k (dict_set k v d) = true.
Proof. unfold dict_has. now rewrite dict_get_set_same. Qed.

Lemma dict_has_set_other (k k' : string) (v : json) (d : dict) :
  k' <> k -> dict_has k' (dict_set k v d) = dict_has k' d.
Proof. intros H. unfold dict_has. now rewrite dict_get_set_other. Qed.

Lemma dict_has_set (k k' : string) (v : json) (d : dict) :
  dict_has k' (dict_set k v d) = String.eqb k' k || dict_has k' d.
Proof.
  destruct (String.eqb_spec k' k) as [->|Hne]; simpl.
  - apply dict_has_set_same.
  - now apply dict_has_set_other.
Qed.

Lemma dict_get_in (k : string) (d : dict) (v : json) :
  dict_get k d = Some v -> In (k, v) d.
Proof.
  induction d as [|[k' v'] d IH]; simpl; [discriminate|].
  destruct (String.eqb_spec k k') as [->|Hne].
  - intros [= ->]. now left.
  - intros H. right. auto.
Qed.

Lemma dict_get_not_in (k : string) (d : dict) :
  dict_get k d = None <-> ~ In k (keys d).
Proof.
  induction d as [|[k' v'] d IH]; simpl; [tauto|].
  destruct (String.eqb_spec k k') as [->|Hne].
  - split; [discriminate|]. intros H. exfalso. apply H. now left.
  - rewrite IH. split; [intros H [E|E]; [congruence|auto] | tauto].
Qed.

Lemma in_dict_set (k : string) (v : json) (d : dict) (k' : string) (x : json) :
  In (k', x) (dict_set k v d) -> (k' = k /\ x = v) \/ In (k', x) d.
Proof.
  induction d as [|[k0 v0] d IH]; simpl.
  - intros [[= <- <-]|[]]. now left.
  - destruct (String.eqb_spec k k0) as [->|Hne]; simpl.
    + intros [[= <- <-]|H]; [now left|right; now right].
    + intros [E|H]; [right; now left|].
      destruct (IH H) as [?|?]; [now left|right; now right].
Qed.

Lemma keys_dict_set (k : string) (v : json) (d : dict) :
  keys (dict_set k v d) = if dict_has k d then keys d else keys d ++ [k].
Proof.
  unfold dict_has. induction d as [|[k0 v0] d IH]; simpl; [reflexivity|].
  destruct (String.eqb_spec k k0) as [->|Hne]; simpl; [reflexivity|].
  rewrite IH. now destruct (dict_get k d).
Qed.

Lemma NoDup_dict_set (k : string) (v : json) (d : dict) :
  NoDup (keys d) -> NoDup (keys (dict_set k v d)).
Proof.
  intros H. rewrite keys_dict_set. unfold dict_has.
  destruct (dict_get k d) eqn:E; [assumption|].
  apply dict_get_not_in in E.
  apply NoDup_rev in H. rewrite <- (rev_involutive (keys d ++ [k])).
  apply NoDup_rev. rewrite rev_app_distr. simpl. constructor; [|assumption].
  now rewrite <- in_rev.
Qed.

(** A new key goes to the end. *)
Lemma dict_set_fresh (k : string) (v : json) (d : dict) :
  dict_get k d = None -> dict_set k v d = d ++ [(k, v)].
Proof.
  induction d as [|[k0 v0] d IH]; simpl; [reflexivity|].
  destruct (String.eqb k k0); [discriminate|]. intros H. now rewrite IH.
Qed.

(** Storing the value already there changes nothing. *)
Lemma dict_set_same_value (k : string) (v : json) (d : dict) :
  dict_get k d = Some v -> dict_set k v d = d.
Proof.
  induction d as [|[k0 v0] d IH]; simpl; [discriminate|].
  destruct (String.eqb_spec k k0) as [->|Hne].
  - now intros [= ->].
  - intros H. now rewrite IH.
Qed.

Section Fold.

Variable f : json -> json.

Lemma NoDup_fold_set (d acc : dict) :
  NoDup (keys acc) -> NoDup (keys (fold_set f d acc)).
Proof.
  unfold fold_set.
  revert acc; induction d as [|[k v] d IH]; intros acc H; simpl; [assumption|].
  apply IH. now apply NoDup_dict_set.
Qed.

Lemma in_fold_set (d acc : dict) (k : string) (x : json) :
  In (k, x) (fold_set f d acc) ->
  In (k, x) acc \/ exists v, In (k, v) d /\ x = f v.
Proof.
  unfold fold_set.
  revert acc; induction d as [|[k0 v0] d IH]; intros acc; simpl; [now left|].
  intros H. destruct (IH _ H) as [H'|(v & Hv & ->)].
  - apply in_dict_set in H' as [[-> ->]|H']; [|now left].
    right. exists v0. split; [now left|reflexivity].
  - right. exists v. split; [now right|reflexivity].
Qed.

Lemma dict_has_fold_set (d acc : dict) (k : string) :
  dict_has k (fold_set f d acc) = dict_has k acc || dict_has k d.
Proof.
  unfold fold_set.
  revert acc; induction d as [|[k0 v0] d IH]; intros acc; simpl.
  - now rewrite orb_false_r.
  - rewrite IH, dict_has_set.
    unfold dict_has. simpl.
    destruct (String.eqb k k0), (dict_get k acc), (dict_get k d); reflexivity.
Qed.

(** Over distinct keys whose values [f] leaves alone, the loop rebuilds the
    dictionary it reads. *)
Lemma fold_set_fixed (d acc : dict) :
  NoDup (keys (acc ++ d)) ->
  (forall k v, In (k, v) d -> f v = v) ->
  fold_set f d acc = acc ++ d.
Proof.
  unfold fold_set.
  revert acc; induction d as [|[k v] d IH]; intros acc Hnd Hf; simpl.
  - now rewrite app_nil_r.
  - rewrite (Hf k v) by now left.
    rewrite dict_set_fresh.
    + rewrite IH.
      * now rewrite <- app_assoc.
      * now rewrite <- app_assoc.
      * intros k' v' H. apply (Hf k'). now right.
    + apply dict_get_not_in. unfold keys in *. rewrite map_app in Hnd.
      simpl in Hnd. apply NoDup_remove_2 in Hnd. intros H. apply Hnd.
      apply in_or_app. now left.
Qed.

End Fold.

End DictFacts.

(** ** The sanitizer: its equations *)

Module SanitizeFacts.
Import DictFacts StrFacts.

Lemma jsize_in_list (x : json) (l : list json) :
  In x l -> jsize x < jsize (JList l).
Proof.
  intros H. simpl. induction l as [|y l IH]; [contradiction|].
  simpl. destruct H as [->|H]; [lia|]. specialize (IH H). lia.
Qed.

Lemma jsize_in_dict (k : string) (x : json) (d : dict) :
  In (k, x) d -> jsize x < jsize (JDict d).
Proof.
  intros H. simpl. induction d as [|[k' y] d IH]; [contradiction|].
  simpl. destruct H as [[= -> ->]|H]; [lia|]. specialize (IH H). lia.
Qed.

Section Loops.

Variable n : nat.
Variable f : json -> json.

Lemma list_loop (l : list json) (cleaned : list json) :
  (forall x, In x l -> sanitize_fuel n x = Some (f x)) ->
  fold_left
    (fun cleaned item =>
       match cleaned, sanitize_fuel n item with
       | Some cleaned, Some sanitized =>
           Some (if is_dict sanitized then cleaned ++ [sanitized] else cleaned)
       | _, _ => None
       end) l (Some cleaned)
  = Some (cleaned ++ filter is_dict (map f l)).
Proof.
  revert cleaned; induction l as [|x l IH]; intros cleaned H; simpl.
  - now rewrite app_nil_r.
  - rewrite (H x) by now left.
    rewrite IH by (intros y Hy; apply H; now right).
    destruct (is_dict (f x)); [|reflexivity].
    now rewrite <- app_assoc.
Qed.

Lemma dict_loop (d : dict) (new_data : dict) :
  (forall k v, In (k, v) d -> sanitize_fuel n v = Some (f v)) ->
  fold_left
    (fun new_data kv =>
       match new_data, sanitize_fuel n (snd kv) with
       | Some new_data, Some v => Some (dict_set (fst kv) v new_data)
       | _, _ => None
       end) d (Some new_data)
  = Some (fold_set f d new_data).
Proof.
  revert new_data; induction d as [|[k v] d IH]; intros new_data H; simpl.
  - reflexivity.
  - rewrite (H k v) by now left.
    apply IH. intros k' v' Hin. apply (H k'). now right.
Qed.

End Loops.

Lemma sanitize_fuel_step (n : nat) :
  (forall x, jsize x <= n -> sanitize_fuel n x = Some (recursive_sanitize x)) ->
  forall data, jsize data <= S n ->
  sanitize_fuel (S n) data = Some (unfolded data).
Proof.
  intros IH data Hn. destruct data as [| | | |s|l|d]; try reflexivity.
  - cbn [sanitize_fuel unfolded]. cbv zeta.
    destruct (bracketed (Str.strip s)); [|reflexivity].
    destruct (json_loads (Str.strip s)) as [parsed|] eqn:E; [|reflexivity].
    apply IH. apply json_loads_size in E.
    pose proof (strip_length s). simpl in Hn. lia.
  - cbn [sanitize_fuel unfolded].
    rewrite (list_loop n recursive_sanitize); [reflexivity|].
    intros x Hx. apply IH. apply jsize_in_list in Hx. lia.
  - cbn [sanitize_fuel unfolded].
    rewrite (dict_loop n recursive_sanitize); [reflexivity|].
    intros k v Hv. apply IH. apply jsize_in_dict in Hv. lia.
Qed.

Lemma sanitize_fuel_upto (n : nat) :
  forall k, k <= n ->
  forall x, jsize x <= k -> sanitize_fuel k x = Some (recursive_sanitize x).
Proof.
  induction n as [|n IH]; intros k Hk x Hx.
  - pose proof (jsize_pos x). lia.
  - destruct k as [|k]; [pose proof (jsize_pos x); lia|].
    assert (Hstep : forall m, m <= n -> forall y, jsize y <= S m ->
              sanitize_fuel (S m) y = Some (unfolded y)).
    { intros m Hm. apply sanitize_fuel_step. now apply IH. }
    rewrite (Hstep k) by lia. f_equal.
    unfold recursive_sanitize.
    pose proof (jsize_pos x) as Hp.
    destruct (jsize x) as [|j] eqn:Ej; [lia|].
    rewrite (Hstep j); [reflexivity|lia|lia].
Qed.

(** Fuel enough for the size of the value gives the result. *)
Lemma sanitize_fuel_enough (n : nat) (data : json) :
  jsize data <= n -> sanitize_fuel n data = Some (recursive_sanitize data).
Proof. intros H. now apply (sanitize_fuel_upto n n). Qed.

(** The equation of [recursive_sanitize]. *)
Lemma recursive_sanitize_eq (data : json) :
  recursive_sanitize data = unfolded data.
Proof.
  pose proof (sanitize_fuel_enough (jsize data) data (le_n _)) as H.
  pose proof (jsize_pos data) as Hp.
  destruct (jsize data) as [|j] eqn:Ej; [lia|].
  rewrite sanitize_fuel_step in H.
  - congruence.
  - intros x Hx. now apply sanitize_fuel_enough.
  - lia.
Qed.

End SanitizeFacts.

(** ** The fix-ups *)

Module FixupFacts.
Import DictFacts.

Lemma get_fix_type_name_other (k : string) (e : dict) :
  k <> "type_name" -> dict_get k (fix_type_name e) = dict_get k e.
Proof.
  intros H. unfold fix_type_name.
  destruct (_ && _); [now apply dict_get_set_other|reflexivity].
Qed.

Lemma get_fix_children_other (k : string) (e : dict) :
  k <> "children" -> dict_get k (fix_children e) = dict_get k e.
Proof.
  intros H. unfold fix_children.
  destruct (dict_get "children" e) as [c|]; [|reflexivity].
  destruct (is_list c); [reflexivity|now apply dict_get_set_other].
Qed.

Lemma get_fix_props_other (k : string) (e : dict) :
  k <> "props" -> dict_get k (fix_props e) = dict_get k e.
Proof.
  intros H. unfold fix_props.
  destruct (dict_get "props" e) as [p|]; [|reflexivity].
  destruct (is_dict p); [reflexivity|now apply dict_get_set_other].
Qed.

Lemma get_fix_children_same (e : dict) :
  dict_get "children" (fix_children e)
  = match dict_get "children" e with
    | Some c => Some (if is_list c then c else JList [])
    | None => None
    end.
Proof.
  unfold fix_children. destruct (dict_get "children" e) as [c|] eqn:E; [|assumption].
  destruct (is_list c); [assumption|apply dict_get_set_same].
Qed.

Lemma get_fix_props_same (e : dict) :
  dict_get "props" (fix_props e)
  = match dict_get "props" e with
    | Some p => Some (if is_dict p then p else JDict [])
    | None => None
    end.
Proof.
  unfold fix_props. destruct (dict_get "props" e) as [p|] eqn:E; [|assumption].
  destruct (is_dict p); [assumption|apply dict_get_set_same].
Qed.

Lemma has_fix_children (k : string) (e : dict) :
  dict_has k (fix_children e) = dict_has k e.
Proof.
  unfold dict_has. destruct (String.eqb_spec k "children") as [->|Hne].
  - rewrite get_fix_children_same. now destruct (dict_get "children" e).
  - now rewrite get_fix_children_other.
Qed.

Lemma has_fix_props (k : string) (e : dict) :
  dict_has k (fix_props e) = dict_has k e.
Proof.
  unfold dict_has. destruct (String.eqb_spec k "props") as [->|Hne].
  - rewrite get_fix_props_same. now destruct (dict_get "props" e).
  - now rewrite get_fix_props_other.
Qed.

Lemma has_fixups_other (k : string) (e : dict) :
  k <> "type_name" -> dict_has k (fixups e) = dict_has k e.
Proof.
  intros H. unfold fixups. rewrite has_fix_props, has_fix_children.
  unfold dict_has. now rewrite get_fix_type_name_other.
Qed.

Lemma has_fix_type_name (e : dict) :
  (dict_has "children" e || dict_has "props" e) = true ->
  dict_has "type_name" (fix_type_name e) = true.
Proof.
  intros H. unfold fix_type_name. rewrite H. simpl.
  destruct (dict_has "type_name" e) eqn:E; simpl; [assumption|].
  apply dict_has_set_same.
Qed.

Lemma fixups_fixed (e : dict) : fixed (fixups e).
Proof.
  repeat split.
  - rewrite !has_fixups_other by discriminate.
    intros H. unfold fixups. rewrite has_fix_props, has_fix_children.
    now apply has_fix_type_name.
  - intros c. unfold fixups. rewrite get_fix_props_other by discriminate.
    rewrite get_fix_children_same.
    destruct (dict_get "children" (fix_type_name e)) as [c'|]; [|discriminate].
    intros [= <-]. now destruct (is_list c') eqn:E.
  - intros p. unfold fixups. rewrite get_fix_props_same.
    destruct (dict_get "props" _) as [p'|]; [|discriminate].
    intros [= <-]. now destruct (is_dict p') eqn:E.
Qed.

Lemma fixed_fixups (e : dict) : fixed e -> fixups e = e.
Proof.
  intros (Ht & Hc & Hp). unfold fixups.
  assert (E1 : fix_type_name e = e).
  { unfold fix_type_name.
    destruct (dict_has "children" e || dict_has "props" e) eqn:E; [|reflexivity].
    now rewrite (Ht eq_refl). }
  rewrite E1.
  assert (E2 : fix_children e = e).
  { unfold fix_children. destruct (dict_get "children" e) as [c|] eqn:E; [|reflexivity].
    now rewrite (Hc c eq_refl). }
  rewrite E2.
  unfold fix_props. destruct (dict_get "props" e) as [p|] eqn:E; [|reflexivity].
  now rewrite (Hp p eq_refl).
Qed.

Lemma NoDup_fixups (e : dict) : NoDup (keys e) -> NoDup (keys (fixups e)).
Proof.
  intros H. unfold fixups, fix_props, fix_children, fix_type_name.
  repeat match goal with
  | |- context [match ?x with _ => _ end] => destruct x
  | |- NoDup (keys (dict_set _ _ _)) => apply NoDup_dict_set
  end; assumption.
Qed.

(** The values of a fixed-up mapping: those it had, or one of the three
    defaults. *)
Lemma in_fixups (e : dict) (k : string) (x : json) :
  In (k, x) (fixups e) ->
  In (k, x) e \/ x = JStr "VStack" \/ x = JList [] \/ x = JDict [].
Proof.
  unfold fixups, fix_props, fix_children, fix_type_name. intros H.
  repeat match type of H with
  | context [match ?y with _ => _ end] => destruct y
  | In _ (dict_set _ _ _) => apply in_dict_set in H as [[_ ->]|H]; [tauto|]
  end; tauto.
Qed.

End FixupFacts.

(** ** The sanitizer: idempotence and the shape of the result *)

Module SanitizeProps.
Import DictFacts StrFacts SanitizeFacts FixupFacts.

Lemma sanitize_default_kind : recursive_sanitize (JStr "VStack") = JStr "VStack".
Proof. vm_compute. reflexivity. Qed.

Lemma sanitize_empty_list : recursive_sanitize (JList []) = JList [].
Proof. reflexivity. Qed.

Lemma sanitize_empty_dict : recursive_sanitize (JDict []) = JDict [].
Proof. reflexivity. Qed.

Lemma is_dict_sanitize_dict (d : dict) : is_dict (recursive_sanitize (JDict d)) = true.
Proof. now rewrite recursive_sanitize_eq. Qed.

Lemma filter_map_fixed (l : list json) :
  (forall x, In x l -> recursive_sanitize (recursive_sanitize x) = recursive_sanitize x) ->
  filter is_dict (map recursive_sanitize (filter is_dict (map recursive_sanitize l)))
  = filter is_dict (map recursive_sanitize l).
Proof.
  induction l as [|x l IH]; intros H; simpl; [reflexivity|].
  destruct (is_dict (recursive_sanitize x)) eqn:E; simpl.
  - rewrite (H x) by now left. rewrite E.
    f_equal. apply IH. intros y Hy. apply H. now right.
  - apply IH. intros y Hy. apply H. now right.
Qed.

Lemma idempotent_upto (n : nat) :
  forall x, jsize x <= n ->
  recursive_sanitize (recursive_sanitize x) = recursive_sanitize x.
Proof.
  induction n as [|n IH]; intros x Hx.
  - pose proof (jsize_pos x). lia.
  - rewrite (recursive_sanitize_eq x).
    destruct x as [| | | |s|l|d]; cbn [unfolded]; try (now rewrite recursive_sanitize_eq).
    + cbv zeta.
      assert (Hkeep : bracketed (Str.strip s) = false \/ json_loads (Str.strip s) = None ->
                recursive_sanitize (JStr (Str.strip s)) = JStr (Str.strip s)).
      { intros H. rewrite recursive_sanitize_eq. cbn [unfolded]. cbv zeta.
        rewrite strip_idem. destruct H as [H|H]; rewrite H; [reflexivity|].
        now destruct (bracketed (Str.strip s)). }
      destruct (bracketed (Str.strip s)) eqn:Eb; [|now apply Hkeep; left].
      destruct (json_loads (Str.strip s)) as [parsed|] eqn:El; [|now apply Hkeep; right].
      apply IH. apply json_loads_size in El. pose proof (strip_length s).
      simpl in Hx. lia.
    + rewrite recursive_sanitize_eq. cbn [unfolded]. f_equal.
      apply filter_map_fixed. intros x Hin. apply IH.
      apply jsize_in_list in Hin. lia.
    + rewrite recursive_sanitize_eq. cbn [unfolded]. f_equal.
      set (e := fixups (sanitize_values d)).
      assert (He : sanitize_values e = e).
      { apply (fold_set_fixed recursive_sanitize e []).
        - simpl. apply NoDup_fixups. apply NoDup_fold_set. constructor.
        - intros k v Hin. apply in_fixups in Hin as [Hin | [-> | [-> | ->]]].
          + apply in_fold_set in Hin as [[]|(v0 & Hv0 & ->)].
            apply IH. apply jsize_in_dict in Hv0. lia.
          + apply sanitize_default_kind.
          + apply sanitize_empty_list.
          + apply sanitize_empty_dict. }
      rewrite He. apply fixed_fixups, fixups_fixed.
Qed.

Lemma shaped_upto (n : nat) :
  forall x, jsize x <= n -> shaped (recursive_sanitize x).
Proof.
  induction n as [|n IH]; intros x Hx.
  - pose proof (jsize_pos x). lia.
  - rewrite recursive_sanitize_eq.
    destruct x as [| | | |s|l|d]; cbn [unfolded shaped]; auto.
    + cbv zeta. destruct (bracketed (Str.strip s)); [|exact I].
      destruct (json_loads (Str.strip s)) as [parsed|] eqn:El; [|exact I].
      apply IH. apply json_loads_size in El. pose proof (strip_length s).
      simpl in Hx. lia.
    + apply Forall_forall. intros y Hy. apply filter_In in Hy as [Hy Hd].
      apply in_map_iff in Hy as (x & <- & Hin).
      assert (Hs : shaped (recursive_sanitize x)).
      { apply IH. apply jsize_in_list in Hin. lia. }
      destruct (recursive_sanitize x); try discriminate. exact Hs.
    + destruct (fixups_fixed (sanitize_values d)) as (_ & Hc & Hp).
      constructor; [|exact Hp].
      intros c Ec. specialize (Hc c Ec).
      destruct c as [| | | | |l|]; try discriminate.
      exists l. split; [reflexivity|].
      apply dict_get_in in Ec. apply in_fixups in Ec as [Hin|[E|[E|E]]];
        try discriminate.
      * apply in_fold_set in Hin as [[]|(v0 & Hv0 & E)].
        assert (Hs : shaped (recursive_sanitize v0)).
        { apply IH. apply jsize_in_dict in Hv0. lia. }
        rewrite <- E in Hs. exact Hs.
      * injection E as ->. constructor.
Qed.

Lemma guaranteedb_dict (d : dict) :
  guaranteedb (JDict d)
  = match dict_get "children" d with
    | Some (JList l) => forallb guaranteedb l
    | Some _ => false
    | None => true
    end
    && match dict_get "props" d with
       | Some p => is_dict p
       | None => true
       end.
Proof.
  cbn [guaranteedb]. f_equal.
  induction d as [|[k x] d IH]; [reflexivity|].
  cbn [dict_get]. destruct (String.eqb "children" k); [reflexivity|]. exact IH.
Qed.

Lemma guaranteedb_sound_upto (n : nat) :
  forall v, jsize v <= n -> guaranteedb v = true -> guaranteed v.
Proof.
  induction n as [|n IH]; intros v Hn H.
  - pose proof (jsize_pos v). lia.
  - destruct v as [| | | | | |d]; try discriminate.
    rewrite guaranteedb_dict in H. apply andb_prop in H as [Hc Hp].
    constructor.
    + intros c Ec. rewrite Ec in Hc.
      destruct c as [| | | | |l|]; try discriminate.
      exists l. split; [reflexivity|].
      apply Forall_forall. intros e He. apply IH.
      * apply dict_get_in, jsize_in_dict in Ec.
        apply jsize_in_list in He. lia.
      * rewrite forallb_forall in Hc. now apply Hc.
    + intros p Ep. now rewrite Ep in Hp.
Qed.

Lemma guaranteedb_complete_upto (n : nat) :
  forall v, jsize v <= n -> guaranteed v -> guaranteedb v = true.
Proof.
  induction n as [|n IH]; intros v Hn H.
  - pose proof (jsize_pos v). lia.
  - inversion H as [d Hc Hp E]. subst v.
    rewrite guaranteedb_dict. apply andb_true_intro. split.
    + destruct (dict_get "children" d) as [c|] eqn:Ec; [|reflexivity].
      destruct (Hc c eq_refl) as (l & -> & Hl).
      apply forallb_forall. intros e He. apply IH.
      * apply dict_get_in, jsize_in_dict in Ec.
        apply jsize_in_list in He. lia.
      * rewrite Forall_forall in Hl. now apply Hl.
    + destruct (dict_get "props" d) as [p|] eqn:Ep; [|reflexivity].
      now apply Hp.
Qed.

(** The test decides the guarantee. *)
Lemma guaranteedb_spec (v : json) : guaranteedb v = true <-> guaranteed v.
Proof.
  split.
  - apply (guaranteedb_sound_upto (jsize v)), le_n.
  - apply (guaranteedb_complete_upto (jsize v)), le_n.
Qed.

(** A sanitized mapping passes the test. *)
Lemma sanitize_dict_checked (d : dict) :
  guaranteedb (recursive_sanitize (JDict d)) = true.
Proof.
  apply guaranteedb_spec.
  pose proof (shaped_upto _ (JDict d) (le_n _)) as H.
  rewrite recursive_sanitize_eq in *. exact H.
Qed.

End SanitizeProps.

(** * The claims on the sanitizer *)

(** C1. The sanitizer is idempotent: sanitizing a sanitized value changes
    nothing, for every JSON value. *)
Theorem sanitize_idempotent (x : json) :
  recursive_sanitize (recursive_sanitize x) = recursive_sanitize x.
Proof. apply (SanitizeProps.idempotent_upto (jsize x)). apply le_n. Qed.

(** C2. The sanitized form of a mapping is a mapping in which [children],
    when present, is a sequence of mappings that each have the same
    guarantee, and [props], when present, is a mapping; and a sequence is
    sanitized item by item, the items that do not become a mapping being
    dropped. *)
Theorem sanitize_structure :
  (forall d : dict,
     exists d', recursive_sanitize (JDict d) = JDict d'
       /\ (forall c, dict_get "children" d' = Some c ->
             exists l, c = JList l /\ Forall guaranteed l)
       /\ (forall p, dict_get "props" d' = Some p -> is_dict p = true))
  /\ (forall l : list json,
        recursive_sanitize (JList l)
        = JList (filter is_dict (map recursive_sanitize l))).
Proof.
  split.
  - intros d. pose proof (SanitizeProps.shaped_upto _ (JDict d) (le_n _)) as H.
    rewrite SanitizeFacts.recursive_sanitize_eq in *. cbn [unfolded] in *.
    exists (fixups (sanitize_values d)). split; [reflexivity|].
    cbn [shaped] in H. inversion H; subst. split; assumption.
  - intros l. now rewrite SanitizeFacts.recursive_sanitize_eq.
Qed.

(** C8. A mapping whose sanitized values include a [children] or a [props]
    entry and no [type_name] entry gets [type_name] set to [VStack]. *)
Theorem default_kind_injected (d : dict) :
  (dict_has "children" (sanitize_values d)
   || dict_has "props" (sanitize_values d)) = true ->
  dict_has "type_name" (sanitize_values d) = false ->
  exists d', recursive_sanitize (JDict d) = JDict d'
    /\ dict_get "type_name" d' = Some (JStr "VStack").
Proof.
  intros Hcp Ht. exists (fixups (sanitize_values d)).
  split; [now rewrite SanitizeFacts.recursive_sanitize_eq|].
  unfold fixups.
  rewrite FixupFacts.get_fix_props_other, FixupFacts.get_fix_children_other
    by discriminate.
  unfold fix_type_name. rewrite Hcp, Ht. simpl.
  apply DictFacts.dict_get_set_same.
Qed.

(** The mapping with the one entry [children: []] gets the default kind. *)
Lemma default_kind_injected_example :
  exists d', recursive_sanitize (JDict [("children", JList [])]) = JDict d'
    /\ dict_get "type_name" d' = Some (JStr "VStack").
Proof. apply (default_kind_injected [("children", JList [])]); reflexivity. Defined.

(** C9. A string is stripped; when the stripped string is bracketed as an
    object or an array and decodes, the result is the sanitized form of the
    decoded value; when it does not decode, or is not bracketed, the result
    is the stripped string itself.  The text of the object with the entry
    [a: 1] becomes that object. *)
Theorem sanitize_string :
  (forall s : string,
     recursive_sanitize (JStr s)
     = let data := Str.strip s in
       if bracketed data then
         match json_loads data with
         | Some parsed => recursive_sanitize parsed
         | None => JStr data
         end
       else JStr data)
  /\ recursive_sanitize (JStr ("{" ++ quoted "a" ++ ": 1}"))
     = JDict [("a", JInt 1)].
Proof.
  split.
  - intros s. now rewrite SanitizeFacts.recursive_sanitize_eq.
  - vm_compute. reflexivity.
Qed.

(** C10. The sanitizer returns on every JSON value: a decoded value is
    smaller than the string it came from, so the calls are bounded by the
    size of the argument, and with that much fuel or more the result is
    there and is the same. *)
Theorem sanitize_total :
  (forall s parsed, json_loads (Str.strip s) = Some parsed ->
     jsize parsed < jsize (JStr s))
  /\ (forall x : json,
        exists v, forall n, jsize x <= n -> sanitize_fuel n x = Some v).
Proof.
  split.
  - intros s parsed H. apply json_loads_size in H.
    pose proof (StrFacts.strip_length s). simpl. lia.
  - intros x. exists (recursive_sanitize x). intros n.
    apply SanitizeFacts.sanitize_fuel_enough.
Qed.

(** The text of an object in a string: decoded, smaller, sanitized. *)
Lemma sanitize_total_example :
  jsize (JDict [("a", JInt 1)]) < jsize (JStr ("{" ++ quoted "a" ++ ": 1}"))
  /\ exists v, sanitize_fuel 20 (JStr ("{" ++ quoted "a" ++ ": 1}")) = Some v.
Proof.
  split.
  - apply (proj1 sanitize_total). vm_compute. reflexivity.
  - destruct (proj2 sanitize_total (JStr ("{" ++ quoted "a" ++ ": 1}"))) as [v Hv].
    exists v. apply Hv. vm_compute. lia.
Defined.

(** ** The extractor: indices, spans and splitting *)

Module ExtractFacts.
Import Str StrFacts.

Lemma find_first (c : ascii) (s : string) :
  find (one c) s
  = match first_index c s with Some i => Z.of_nat i | None => (-1)%Z end.
Proof.
  induction s as [|a r IH]; [reflexivity|].
  cbn [find first_index]. unfold startswith, one. cbn [strip_prefix].
  destruct (Ascii.eqb c a); [reflexivity|].
  fold (one c). rewrite IH.
  destruct (first_index c r) as [i|]; simpl; [|reflexivity].
  destruct (Z.ltb_spec (Z.of_nat i) 0); lia.
Qed.

Lemma rfind_last (c : ascii) (s : string) :
  rfind (one c) s
  = match last_index c s with Some j => Z.of_nat j | None => (-1)%Z end.
Proof.
  induction s as [|a r IH]; [reflexivity|].
  cbn [rfind last_index]. rewrite IH.
  destruct (last_index c r) as [j|].
  - destruct (Z.leb_spec 0 (Z.of_nat j)); lia.
  - unfold startswith, one. cbn [strip_prefix]. simpl.
    now destruct (Ascii.eqb c a).
Qed.

Lemma slice_substring (s : string) (i j : nat) :
  slice s (Z.of_nat i) (Z.of_nat j + 1) = substring i (S j - i) s.
Proof.
  unfold slice. rewrite Nat2Z.id.
  replace (Z.to_nat (Z.of_nat j + 1)) with (S j) by lia. reflexivity.
Qed.

Lemma first_index_lt (c : ascii) (s : string) (i : nat) :
  first_index c s = Some i -> i < String.length s.
Proof.
  revert i; induction s as [|a r IH]; intros i; simpl; [discriminate|].
  destruct (Ascii.eqb c a). { intros [= <-]. lia. }
  destruct (first_index c r) as [i'|]; simpl; [|discriminate].
  intros [= <-]. specialize (IH _ eq_refl). lia.
Qed.

Lemma last_index_lt (c : ascii) (s : string) (j : nat) :
  last_index c s = Some j -> j < String.length s.
Proof.
  revert j; induction s as [|a r IH]; intros j; simpl; [discriminate|].
  destruct (last_index c r) as [j'|].
  - intros [= <-]. specialize (IH _ eq_refl). lia.
  - destruct (Ascii.eqb c a); [|discriminate]. intros [= <-]. lia.
Qed.

Lemma last_none (c : ascii) (s : string) :
  last_index c s = None <-> first_index c s = None.
Proof.
  induction s as [|a r IH]; simpl; [tauto|].
  destruct (last_index c r) as [j|], (Ascii.eqb c a), (first_index c r) as [i|];
    simpl; split; try discriminate; try reflexivity; intros _.
  all: try (destruct IH as [IH1 IH2]; (specialize (IH1 eq_refl) || specialize (IH2 eq_refl)); discriminate).
Qed.

Lemma first_index_app (c : ascii) (a b : string) :
  first_index c (a ++ b)
  = match first_index c a with
    | Some i => Some i
    | None => option_map (Nat.add (String.length a)) (first_index c b)
    end.
Proof.
  induction a as [|x a IH]; simpl.
  - now destruct (first_index c b).
  - destruct (Ascii.eqb c x); [reflexivity|]. rewrite IH.
    destruct (first_index c a); [reflexivity|].
    now destruct (first_index c b).
Qed.

Lemma last_index_app (c : ascii) (a b : string) :
  last_index c (a ++ b)
  = match last_index c b with
    | Some j => Some (String.length a + j)
    | None => last_index c a
    end.
Proof.
  induction a as [|x a IH]; simpl.
  - now destruct (last_index c b).
  - rewrite IH. now destruct (last_index c b).
Qed.

Lemma substring_zero (n : nat) (s : string) : substring n 0 s = EmptyString.
Proof.
  revert n; induction s as [|a r IH]; intros [|n]; simpl; auto.
Qed.

Lemma substring_app_l (n m : nat) (a b : string) :
  n + m <= String.length a -> substring n m (a ++ b) = substring n m a.
Proof.
  revert n m; induction a as [|x a IH]; intros n m H; simpl in *.
  - assert (n = 0) by lia. assert (m = 0) by lia. subst.
    now rewrite substring_zero.
  - destruct n as [|n].
    + destruct m as [|m]; [reflexivity|]. f_equal.
      apply (IH 0 m). simpl. lia.
    + apply IH. lia.
Qed.

Lemma substring_app_r (n m : nat) (a b : string) :
  substring (String.length a + n) m (a ++ b) = substring n m b.
Proof. induction a as [|x a IH]; simpl; auto. Qed.

Lemma brace_span_app_r (s post : string) :
  brace_free post -> brace_span (s ++ post) = brace_span s.
Proof.
  intros [Ho Hc]. unfold brace_span.
  rewrite first_index_app, last_index_app, Ho.
  rewrite (proj2 (last_none _ _) Hc).
  destruct (first_index "{" s) as [i|] eqn:Ei; cbn [option_map]; [|reflexivity].
  destruct (last_index "}" s) as [j|] eqn:Ej; [|reflexivity].
  f_equal. apply substring_app_l.
  apply first_index_lt in Ei. apply last_index_lt in Ej. lia.
Qed.

Lemma brace_span_app_l (pre s : string) :
  brace_free pre -> brace_span (pre ++ s) = brace_span s.
Proof.
  intros [Ho Hc]. unfold brace_span.
  rewrite first_index_app, last_index_app, Ho.
  rewrite (proj2 (last_none _ _) Hc).
  destruct (first_index "{" s) as [i|]; cbn [option_map].
  - destruct (last_index "}" s) as [j|]; [|reflexivity].
    f_equal.
    replace (S (String.length pre + j) - (String.length pre + i)) with (S j - i) by lia.
    apply substring_app_r.
  - now destruct (last_index "}" s).
Qed.

Lemma brace_free_app (a b : string) :
  brace_free a -> brace_free b -> brace_free (a ++ b).
Proof.
  intros [Ha1 Ha2] [Hb1 Hb2]. unfold brace_free.
  now rewrite !first_index_app, Ha1, Ha2, Hb1, Hb2.
Qed.

Lemma whitespace_brace_free :
  forallb (fun p => match first_index "{" p, first_index "}" p with
                    | None, None => true
                    | _, _ => false
                    end) whitespace = true.
Proof. vm_compute. reflexivity. Qed.

Lemma WS_brace_free (s : string) : WS s -> brace_free s.
Proof.
  induction 1 as [|p s Hin _ IH]; [split; reflexivity|].
  apply brace_free_app; [|assumption].
  pose proof whitespace_brace_free as H. rewrite forallb_forall in H.
  specialize (H p Hin). unfold brace_free.
  destruct (first_index "{" p), (first_index "}" p); try discriminate. now split.
Qed.

(** Stripping leaves the span between the braces as it is. *)
Lemma brace_span_strip (s : string) : brace_span (strip s) = brace_span s.
Proof.
  destruct (strip_split s) as (pre & post & Hpre & Hpost & Hs).
  rewrite Hs at 2.
  rewrite brace_span_app_l by now apply WS_brace_free.
  now rewrite brace_span_app_r by now apply WS_brace_free.
Qed.

(** The code, with its indices read as positions. *)
Lemma extract_by_span (text : string) :
  extract_json_from_text text
  = match brace_span
            (match partition fence_json (strip text) with
             | Some (_, rest) => strip (split0 fence (split0 fence_json rest))
             | None => strip text
             end) with
    | Some span => json_loads span
    | None => None
    end.
Proof.
  unfold extract_json_from_text. cbv zeta.
  generalize (match partition fence_json (strip text) with
              | Some (_, rest) => strip (split0 fence (split0 fence_json rest))
              | None => strip text
              end) as t.
  intros t. unfold brace_span.
  change "{"%string with (one "{"). change "}"%string with (one "}").
  rewrite find_first, rfind_last.
  destruct (first_index "{" t) as [i|]; [|reflexivity].
  destruct (last_index "}" t) as [j|].
  - rewrite slice_substring.
    destruct (Z.eqb_spec (Z.of_nat i) (-1)); [lia|].
    destruct (Z.eqb_spec (Z.of_nat j) (-1)); [lia|]. reflexivity.
  - simpl. now rewrite andb_false_r.
Qed.

End ExtractFacts.

Module SplitFacts.
Import Str StrFacts ExtractFacts.

Lemma partition_spec (sep s x y : string) :
  partition sep s = Some (x, y) -> s = (x ++ sep ++ y)%string.
Proof.
  revert x y; induction s as [|a s IH]; intros x y; cbn [partition].
  - destruct (strip_prefix sep EmptyString) as [r|] eqn:E; [|discriminate].
    intros [= <- <-]. now apply strip_prefix_spec in E.
  - destruct (strip_prefix sep (String a s)) as [r|] eqn:E.
    + intros [= <- <-]. now apply strip_prefix_spec in E.
    + destruct (partition sep s) as [[b r]|]; [|discriminate].
      intros [= <- <-]. simpl. f_equal. now apply IH.
Qed.

(** The occurrence that [partition] finds is the first one. *)
Lemma partition_first (sep s x y : string) :
  partition sep s = Some (x, y) ->
  forall x' y', s = (x' ++ sep ++ y')%string ->
  String.length x <= String.length x'.
Proof.
  revert x y; induction s as [|a s IH]; intros x y; cbn [partition].
  - destruct (strip_prefix sep EmptyString); [|discriminate].
    intros [= <- <-] x' y' _. simpl. lia.
  - destruct (strip_prefix sep (String a s)) as [r|] eqn:E.
    + intros [= <- <-] x' y' _. simpl. lia.
    + destruct (partition sep s) as [[b r]|] eqn:Ep; [|discriminate].
      intros [= <- <-] x' y' Hs. destruct x' as [|a' x'].
      * simpl in Hs. rewrite Hs, strip_prefix_app in E. discriminate.
      * simpl in Hs. injection Hs as <- Hs.
        specialize (IH _ _ eq_refl _ _ Hs). simpl. lia.
Qed.

Lemma partition_some (sep x' y' : string) :
  exists x y, partition sep (x' ++ sep ++ y') = Some (x, y).
Proof.
  induction x' as [|a x' (x & y & IH)].
  - simpl. destruct (sep ++ y')%string eqn:E; cbn [partition]; rewrite <- E;
      rewrite strip_prefix_app; eauto.
  - simpl. cbn [partition].
    destruct (strip_prefix sep _); [eauto|]. rewrite IH. eauto.
Qed.

Lemma append_split (a u b w : string) :
  (a ++ u = b ++ w)%string -> String.length a <= String.length b ->
  exists e, b = (a ++ e)%string /\ u = (e ++ w)%string.
Proof.
  revert b; induction a as [|c a IH]; intros b H Hlen; simpl in *.
  - exists b. now split.
  - destruct b as [|c' b]; simpl in *; [lia|].
    injection H as <- H. destruct (IH b H) as (e & -> & ->); [lia|].
    exists e. now split.
Qed.

Lemma append_length_nil (a e : string) :
  String.length (a ++ e) <= String.length a -> e = EmptyString.
Proof.
  rewrite length_append. destruct e; [reflexivity|simpl; lia].
Qed.

(** Cutting at the next tag first and at the next fence then stops where
    cutting at the next fence does, or one or two backquotes after it. *)
Lemma split_fence_twice (rest : string) :
  exists e, split0 fence (split0 fence_json rest) = (split0 fence rest ++ e)%string
            /\ brace_free e.
Proof.
  unfold split0 at 2.
  destruct (partition fence_json rest) as [[b r]|] eqn:EA.
  2:{ exists EmptyString. rewrite append_nil_r. repeat split. }
  apply partition_spec in EA.
  assert (ER : rest = (b ++ fence ++ ("json" ++ r))%string) by (subst rest; reflexivity).
  unfold split0.
  destruct (partition fence rest) as [[S y]|] eqn:ES.
  2:{ destruct (partition_some fence b ("json" ++ r)) as (x & y & E).
      rewrite <- ER in E. congruence. }
  pose proof (partition_first _ _ _ _ ES _ _ ER) as HSb.
  pose proof (partition_spec _ _ _ _ ES) as ESs.
  rewrite ER in ESs at 1. symmetry in ESs.
  destruct (append_split _ _ _ _ ESs HSb) as (e & Eb & Ey).
  destruct (partition fence b) as [[x y']|] eqn:EC.
  - exists EmptyString. rewrite append_nil_r. split; [|split; reflexivity].
    pose proof (partition_spec _ _ _ _ EC) as ECs.
    assert (HSx : String.length S <= String.length x).
    { apply (partition_first _ _ _ _ ES x (y' ++ fence_json ++ r)).
      rewrite EA, ECs at 1. now rewrite !append_assoc. }
    rewrite Eb in ECs.
    destruct (append_split _ _ _ _ ECs HSx) as (e1 & Ex & Ee).
    assert (Hfe : String.length fence <= String.length e).
    { rewrite Ee, !length_append. lia. }
    destruct (append_split _ _ _ _ Ey Hfe) as (e2 & Ee2 & _).
    assert (HxS : String.length x <= String.length S).
    { apply (partition_first _ _ _ _ EC S e2). now rewrite Eb, Ee2. }
    rewrite Ex in HxS. apply append_length_nil in HxS. subst e1.
    now rewrite append_nil_r in Ex.
  - exists e. split; [assumption|].
    destruct (Nat.le_gt_cases (String.length fence) (String.length e)) as [Hfe|Hfe].
    + destruct (append_split _ _ _ _ Ey Hfe) as (e2 & Ee2 & _).
      destruct (partition_some fence S e2) as (x & y0 & E).
      rewrite <- Ee2, <- Eb in E. congruence.
    + symmetry in Ey.
      destruct (append_split _ _ _ _ Ey (Nat.lt_le_incl _ _ Hfe)) as (t & Et & _).
      destruct e as [|c1 [|c2 [|c3 e]]]; simpl in Hfe.
      * split; reflexivity.
      * injection Et as <- _. split; reflexivity.
      * injection Et as <- <- _. split; reflexivity.
      * unfold fence in Hfe. simpl in Hfe. lia.
Qed.

Lemma within_refl (s : string) : within s s.
Proof. exists EmptyString, EmptyString. simpl. now rewrite append_nil_r. Qed.

Lemma within_trans (a b c : string) : within a b -> within b c -> within a c.
Proof.
  intros (p & q & ->) (p' & q' & ->). exists (p' ++ p)%string, (q ++ q')%string.
  now rewrite !append_assoc.
Qed.

Lemma within_strip (s : string) : within (strip s) s.
Proof. destruct (strip_split s) as (pre & post & _ & _ & H). now exists pre, post. Qed.

Lemma within_partition (sep s x r : string) :
  partition sep s = Some (x, r) -> within r s.
Proof.
  intros H. apply partition_spec in H. exists (x ++ sep)%string, EmptyString.
  now rewrite append_nil_r, append_assoc.
Qed.

Lemma within_split0 (sep s : string) : within (split0 sep s) s.
Proof.
  unfold split0. destruct (partition sep s) as [[b r]|] eqn:E; [|apply within_refl].
  apply partition_spec in E. exists EmptyString, (sep ++ r)%string. assumption.
Qed.

Lemma first_index_split (c : ascii) (s : string) (i : nat) :
  first_index c s = Some i ->
  exists a b, s = (a ++ String c b)%string /\ String.length a = i.
Proof.
  revert i; induction s as [|x s IH]; intros i; simpl; [discriminate|].
  destruct (Ascii.eqb_spec c x) as [<-|Hne].
  - intros [= <-]. now exists EmptyString, s.
  - destruct (first_index c s) as [i'|]; simpl; [|discriminate].
    intros [= <-]. destruct (IH _ eq_refl) as (a & b & -> & <-).
    now exists (String x a), b.
Qed.

Lemma last_index_split (c : ascii) (s : string) (j : nat) :
  last_index c s = Some j ->
  exists a b, s = (a ++ String c b)%string /\ String.length a = j.
Proof.
  revert j; induction s as [|x s IH]; intros j; simpl; [discriminate|].
  destruct (last_index c s) as [j'|].
  - intros [= <-]. destruct (IH _ eq_refl) as (a & b & -> & <-).
    now exists (String x a), b.
  - destruct (Ascii.eqb_spec c x) as [<-|Hne]; [|discriminate].
    intros [= <-]. now exists EmptyString, s.
Qed.

(** A span that decodes begins with the opening brace. *)
Lemma substring_first (c : ascii) (s : string) (i m : nat) :
  first_index c s = Some i ->
  exists r, substring i (S m) s = String c r.
Proof.
  intros H. destruct (first_index_split _ _ _ H) as (a & b & -> & <-).
  rewrite <- (Nat.add_0_r (String.length a)), substring_app_r. simpl. eauto.
Qed.

Lemma json_loads_empty : json_loads EmptyString = None.
Proof. reflexivity. Qed.

(** When the span between the braces decodes, the opening brace stands
    before the closing one. *)
Lemma brace_span_balanced (t span : string) (v : json) :
  brace_span t = Some span -> json_loads span = Some v ->
  exists a b c, t = (a ++ "{" ++ b ++ "}" ++ c)%string.
Proof.
  unfold brace_span.
  destruct (first_index "{" t) as [i|] eqn:Ei; [|discriminate].
  destruct (last_index "}" t) as [j|] eqn:Ej; [|discriminate].
  intros [= <-] Hv.
  destruct (first_index_split _ _ _ Ei) as (a & b & Et & Ha).
  destruct (last_index_split _ _ _ Ej) as (a' & b' & Et' & Ha').
  destruct (Nat.lt_trichotomy i j) as [Hlt|[Heq|Hgt]].
  - rewrite Et in Et'.
    destruct (append_split a (String "{" b) a' (String "}" b')) as (e & Ea' & Eb);
      [assumption|lia|].
    destruct e as [|x e].
    + rewrite append_nil_r in Ea'. subst a'. lia.
    + simpl in Eb. injection Eb as <- Eb.
      exists a, e, b'. rewrite Et. simpl. now rewrite Eb.
  - rewrite Et in Et'.
    destruct (append_split a (String "{" b) a' (String "}" b')) as (e & Ea' & Eb);
      [assumption|lia|].
    assert (e = EmptyString).
    { apply (append_length_nil a). rewrite <- Ea'. lia. }
    subst e. simpl in Eb. discriminate.
  - assert (E0 : S j - i = 0) by lia.
    change (json_loads (substring i (S j - i) t) = Some v) in Hv.
    rewrite E0, substring_zero, json_loads_empty in Hv. discriminate.
Qed.

End SplitFacts.

Module ExtractProps.
Import Str StrFacts ExtractFacts SplitFacts.

(** The text whose braces the code looks at is a stretch of its argument. *)
Lemma narrowed_within (text : string) :
  within (match partition fence_json (strip text) with
          | Some (_, rest) => strip (split0 fence (split0 fence_json rest))
          | None => strip text
          end) text.
Proof.
  destruct (partition fence_json (strip text)) as [[x rest]|] eqn:E.
  - apply (within_trans _ (strip text)); [|apply within_strip].
    apply (within_trans _ rest); [|now apply (within_partition fence_json _ x)].
    apply (within_trans _ (split0 fence (split0 fence_json rest))); [apply within_strip|].
    apply (within_trans _ (split0 fence_json rest)); apply within_split0.
  - apply within_strip.
Qed.

Lemma balanced_within (t text : string) :
  within t text -> balanced t -> balanced text.
Proof.
  intros (p & q & ->) (a & b & c & ->).
  exists (p ++ a)%string, b, (c ++ q)%string.
  rewrite !append_assoc. simpl. rewrite ?append_assoc. reflexivity.
Qed.

Lemma balanced_indices (text : string) :
  balanced text ->
  exists i j, first_index "{" text = Some i /\ last_index "}" text = Some j /\ i < j.
Proof.
  intros (a & b & c & ->).
  assert (Hi : exists i, first_index "{" (a ++ "{" ++ b ++ "}" ++ c) = Some i
                         /\ i <= String.length a).
  { rewrite first_index_app. destruct (first_index "{" a) as [i|] eqn:E.
    - exists i. split; [reflexivity|]. apply first_index_lt in E. lia.
    - simpl. exists (String.length a + 0). split; [reflexivity|lia]. }
  destruct Hi as (i & Hi & Hle).
  assert (Hj : exists j, last_index "}" (a ++ "{" ++ b ++ "}" ++ c) = Some j
                         /\ String.length a < j).
  { rewrite last_index_app.
    change ("{" ++ b ++ "}" ++ c)%string with (String "{" (b ++ String "}" c)).
    cbn [last_index]. rewrite last_index_app. cbn [last_index].
    destruct (last_index "}" c) as [k|]; simpl;
      eexists; (split; [reflexivity|lia]). }
  destruct Hj as (j & Hj & Hlt).
  exists i, j. repeat split; auto. lia.
Qed.

End ExtractProps.

(** C5. The extractor strips the text, narrows it to the block fenced as
    JSON when there is one, and decodes the span from the first opening
    brace to the last closing brace; what it returns is a mapping; the
    fenced object with the entry [x: 1] is returned as that object; and a
    text in which no opening brace has a closing brace after it gives
    nothing. *)
Theorem extractor_correct :
  (forall text, extract_json_from_text text = extractor_spec text)
  /\ (forall text v, extract_json_from_text text = Some v -> is_dict v = true)
  /\ extract_json_from_text
       ("```json" ++ String (ascii_of_nat 10)
          ("{" ++ quoted "x" ++ ":1}" ++ String (ascii_of_nat 10) "```"))
     = Some (JDict [("x", JInt 1)])
  /\ (forall text, ~ balanced text -> extract_json_from_text text = None).
Proof.
  split; [|split; [|split]].
  - intros text. rewrite ExtractFacts.extract_by_span.
    unfold extractor_spec, fenced_json. cbv zeta.
    destruct (Str.partition fence_json (Str.strip text)) as [[x rest]|]; [|reflexivity].
    rewrite ExtractFacts.brace_span_strip.
    destruct (SplitFacts.split_fence_twice rest) as (e & -> & He).
    now rewrite ExtractFacts.brace_span_app_r.
  - intros text v. rewrite ExtractFacts.extract_by_span.
    generalize (match Str.partition fence_json (Str.strip text) with
                | Some (_, rest) =>
                    Str.strip (Str.split0 fence (Str.split0 fence_json rest))
                | None => Str.strip text
                end) as t.
    intros t. unfold brace_span.
    destruct (first_index "{" t) as [i|] eqn:Ei; [|discriminate].
    destruct (last_index "}" t) as [j|]; [|discriminate].
    destruct (S j - i) as [|m].
    + now rewrite ExtractFacts.substring_zero.
    + destruct (SplitFacts.substring_first _ _ _ m Ei) as (r & ->).
      apply json_loads_brace.
  - vm_compute. reflexivity.
  - intros text Hn. rewrite ExtractFacts.extract_by_span.
    pose proof (ExtractProps.narrowed_within text) as Hw. revert Hw.
    generalize (match Str.partition fence_json (Str.strip text) with
                | Some (_, rest) =>
                    Str.strip (Str.split0 fence (Str.split0 fence_json rest))
                | None => Str.strip text
                end) as t.
    intros t Hw.
    destruct (brace_span t) as [span|] eqn:Es; [|reflexivity].
    destruct (json_loads span) as [v|] eqn:Ev; [|reflexivity].
    exfalso. apply Hn. apply (ExtractProps.balanced_within t); [assumption|].
    exact (SplitFacts.brace_span_balanced _ _ _ Es Ev).
Qed.

(** A text whose closing brace comes first gives nothing. *)
Lemma extractor_unbalanced_example :
  extract_json_from_text "} nothing {" = None.
Proof.
  apply (proj2 (proj2 (proj2 extractor_correct))).
  intros H. apply ExtractProps.balanced_indices in H as (i & j & Hi & Hj & Hlt).
  vm_compute in Hi, Hj. injection Hi as <-. injection Hj as <-. lia.
Defined.

(** ** The MCP client: what a reply line leads to *)

Module ClientFacts.
Import MCPClient.

Lemma recv_eq (p : process) :
  _recv p = match reply_of (next_line p) with
            | Ok v => Ok (v, advance p)
            | Raise e => Raise e
            end.
Proof.
  unfold _recv, mbind, readline, next_line, advance, reply_of.
  destruct p as [i [|line rest] k]; simpl; [reflexivity|].
  destruct line as [|c line]; [reflexivity|].
  now destruct (json_loads (String c line)).
Qed.

(** A write the process takes. *)
Lemma send_eq (data : json) (p : process) :
  0 < takes p -> _send data p = Ok (tt, sent data p).
Proof.
  unfold _send, sent. destruct (takes p); [lia|reflexivity].
Qed.

(** A write to a broken pipe. *)
Lemma send_broken (data : json) (p : process) :
  takes p = 0 -> _send data p = Raise BrokenPipeError.
Proof. unfold _send. now intros ->. Qed.

Lemma handshake_eq (p : process) :
  3 <= takes p ->
  _handshake p
  = match reply_of (next_line p) with
    | Raise e => Raise e
    | Ok _ =>
        match reply_of (next_line (advance p)) with
        | Raise e => Raise e
        | Ok res =>
            match tools_of res with
            | Ok tools => Ok (tools, shaken p)
            | Raise e => Raise e
            end
        end
    end.
Proof.
  intros Hk. unfold _handshake. unfold mbind at 1.
  rewrite send_eq by lia.
  unfold mbind at 1. rewrite recv_eq.
  change (next_line (sent init_req p)) with (next_line p).
  destruct (reply_of (next_line p)) as [v1|e1]; [|reflexivity].
  unfold mbind at 1.
  rewrite send_eq by (cbn [takes advance sent]; lia).
  unfold mbind at 1.
  rewrite send_eq by (cbn [takes advance sent]; lia).
  unfold mbind at 1. rewrite recv_eq.
  match goal with
  | |- context [reply_of (next_line ?q)] =>
      change (next_line q) with (next_line (advance p))
  end.
  destruct (reply_of (next_line (advance p))) as [res|e2]; [|reflexivity].
  unfold tools_of, mbind, lift, ret, bind. fold (shaken p).
  destruct (Py.get res "result" (JDict [])) as [r|e3]; [|reflexivity].
  destruct (Py.get r "tools" (JList [])) as [tools|e4]; [|reflexivity].
  destruct (Py.len tools); reflexivity.
Qed.

(** A handshake returns only when its three writes are taken. *)
Lemma handshake_returns (p p' : process) (tools : json) :
  _handshake p = Ok (tools, p') -> 3 <= takes p.
Proof.
  unfold _handshake. unfold mbind at 1.
  destruct (takes p) as [|k] eqn:E0.
  { now rewrite send_broken. }
  rewrite send_eq by lia.
  unfold mbind at 1. rewrite recv_eq.
  destruct (reply_of (next_line (sent init_req p))); [|discriminate].
  unfold mbind at 1.
  destruct k as [|k].
  { rewrite send_broken; [discriminate|]. cbn [takes advance sent]. now rewrite E0. }
  rewrite send_eq by (cbn [takes advance sent]; lia).
  unfold mbind at 1.
  destruct k as [|k]; [|lia].
  rewrite send_broken; [discriminate|]. cbn [takes advance sent]. now rewrite E0.
Qed.

Section Answer.

Variable py_str : json -> string.

Lemma call_tool_eq (name : string) (args : json) (p : process) :
  0 < takes p ->
  call_tool py_str name args p
  = match reply_of (next_line p) with
    | Raise e => Raise e
    | Ok res =>
        match answer py_str res with
        | Ok v => Ok (v, advance (sent (tools_call name args) p))
        | Raise e => Raise e
        end
    end.
Proof.
  intros Hk. unfold call_tool. unfold mbind at 1. rewrite send_eq by exact Hk.
  unfold mbind at 1. rewrite recv_eq.
  change (next_line (sent (tools_call name args) p)) with (next_line p).
  destruct (reply_of (next_line p)) as [res|e]; [|reflexivity].
  unfold answer, mbind, lift, bind.
  destruct (Py.contains "error" res) as [[|]|e]; reflexivity.
Qed.

(** A call on a broken pipe raises at its write. *)
Lemma call_tool_broken (name : string) (args : json) (p : process) :
  takes p = 0 -> call_tool py_str name args p = Raise BrokenPipeError.
Proof.
  intros Hk. unfold call_tool. unfold mbind at 1. now rewrite send_broken.
Qed.

(** A call returns only when its write is taken. *)
Lemma call_tool_returns (name : string) (args : json) (p p' : process)
  (v : json) :
  call_tool py_str name args p = Ok (v, p') -> 0 < takes p.
Proof.
  destruct (takes p) eqn:E; [|lia].
  now rewrite call_tool_broken.
Qed.

End Answer.

(** The error text holds the mark the caller looks for. *)
Lemma error_text_detected (m : string) :
  Main.is_error (JStr (error_prefix ++ m)%string) = Ok true.
Proof.
  unfold Main.is_error, Py.contains, Str.contains, error_prefix.
  cbn [append Str.partition Str.strip_prefix Ascii.eqb Bool.eqb].
  reflexivity.
Qed.

(** A call answered with an error that has a message. *)
Lemma call_tool_error (py_str : json -> string) (name : string) (args : json)
  (p p' : process) (res e : dict) (m : json) :
  0 < takes p ->
  _recv (sent (tools_call name args) p) = Ok (JDict res, p') ->
  dict_get "error" res = Some (JDict e) ->
  dict_get "message" e = Some m ->
  call_tool py_str name args p
  = Ok (JStr (error_prefix ++ format py_str m)%string, p').
Proof.
  intros Hk Hrecv He Hm. rewrite recv_eq in Hrecv.
  change (next_line (sent (tools_call name args) p)) with (next_line p) in Hrecv.
  rewrite call_tool_eq by exact Hk.
  destruct (reply_of (next_line p)) as [v|]; [|discriminate].
  injection Hrecv as -> <-.
  unfold answer, Py.contains, dict_has. rewrite He. cbn [bind Py.getitem].
  rewrite He. cbn [bind Py.getitem]. rewrite Hm. reflexivity.
Qed.

End ClientFacts.

(** * The claims on the client, the catalog and the history *)

(** C3, as the code has it.  When the server takes the three messages of
    the handshake, the reply to [initialize] is missing or decodes, and the
    reply to [tools/list] is missing, or is an object without [result], or
    has for [result] an object without [tools], the handshake ends with the
    empty tool list, and the catalog is then the default one. *)
Theorem handshake_degrades (float_nonzero : string -> bool)
  (p : MCPClient.process) :
  3 <= MCPClient.takes p ->
  (MCPClient.next_line p = EmptyString
   \/ exists v, json_loads (MCPClient.next_line p) = Some v) ->
  degraded_reply (MCPClient.next_line (MCPClient.advance p)) ->
  MCPClient._handshake p = Ok (JList [], MCPClient.shaken p)
  /\ Main.allowed_components float_nonzero (JList []) = Main.default_components.
Proof.
  intros Hk H1 H2. split; [|reflexivity].
  rewrite ClientFacts.handshake_eq by exact Hk.
  assert (E1 : exists v, MCPClient.reply_of (MCPClient.next_line p) = Ok v).
  { destruct H1 as [->|[v Hv]]; [now exists (JDict [])|].
    unfold MCPClient.reply_of. rewrite Hv.
    destruct (MCPClient.next_line p); eauto. }
  destruct E1 as [v1 ->].
  destruct H2 as [->|(d & Hd & Hshape)]; [reflexivity|].
  unfold MCPClient.reply_of at 1. rewrite Hd.
  destruct (MCPClient.next_line (MCPClient.advance p)) as [|c l] eqn:El.
  { vm_compute in Hd. discriminate. }
  unfold MCPClient.tools_of, Py.get at 1.
  destruct Hshape as [->|(r & -> & Hr)]; [reflexivity|].
  cbn [bind Py.get]. now rewrite Hr.
Qed.

(** The server answers [initialize], takes the two messages that follow and
    ends without a reply to [tools/list]: the empty tool list. *)
Lemma handshake_degrades_example :
  MCPClient._handshake
    {| MCPClient.stdin := []; MCPClient.stdout := ["{}" ++ newline]%string;
       MCPClient.takes := 3 |}
  = Ok (JList [],
        MCPClient.shaken
          {| MCPClient.stdin := []; MCPClient.stdout := ["{}" ++ newline]%string;
             MCPClient.takes := 3 |})
  /\ Main.allowed_components (fun _ => true) (JList []) = Main.default_components.
Proof.
  apply (handshake_degrades (fun _ => true)
           {| MCPClient.stdin := []; MCPClient.stdout := ["{}" ++ newline]%string;
              MCPClient.takes := 3 |}).
  - simpl. lia.
  - right. exists (JDict []). vm_compute. reflexivity.
  - left. reflexivity.
Defined.

(** C3, as stated, fails: a reply line that is not JSON, or a [result] that
    is not an object, makes the handshake raise; and so does a reply that is
    missing because the server has exited, at the write that finds the pipe
    broken. *)
Lemma handshake_malformed_raises :
  MCPClient._handshake
    {| MCPClient.stdin := [];
       MCPClient.stdout := ["{}" ++ newline; "oops" ++ newline]%string;
       MCPClient.takes := 3 |}
  = Raise JSONDecodeError
  /\ MCPClient._handshake
       {| MCPClient.stdin := [];
          MCPClient.stdout := ["{}" ++ newline;
                               "{" ++ quoted "result" ++ ": 5}" ++ newline]%string;
          MCPClient.takes := 3 |}
     = Raise AttributeError
  /\ MCPClient._handshake
       {| MCPClient.stdin := []; MCPClient.stdout := []; MCPClient.takes := 0 |}
     = Raise BrokenPipeError
  /\ MCPClient._handshake
       {| MCPClient.stdin := []; MCPClient.stdout := []; MCPClient.takes := 1 |}
     = Raise BrokenPipeError.
Proof. repeat split; vm_compute; reflexivity. Qed.

(** C4, as the code has it.  For a request the server takes and a reply
    that is an object: with an [error]
    object that has a [message], the result is the error text, which the
    caller's test finds; without [error], when a key on the way to the text
    is missing or the content is empty, the result is the reply rendered as
    a string; without [error], when the text is there, the result is the
    text. *)
Theorem call_tool_replies (py_str : json -> string) (name : string)
  (args : json) (p p' : MCPClient.process) (res : dict) :
  0 < MCPClient.takes p ->
  MCPClient._recv (MCPClient.sent (MCPClient.tools_call name args) p)
  = Ok (JDict res, p') ->
  (forall e m,
     dict_get "error" res = Some (JDict e) -> dict_get "message" e = Some m ->
     MCPClient.call_tool py_str name args p
     = Ok (JStr (MCPClient.error_prefix ++ MCPClient.format py_str m), p')
     /\ Main.is_error (JStr (MCPClient.error_prefix ++ MCPClient.format py_str m))
        = Ok true)
  /\ (dict_get "error" res = None -> shape_absent res ->
      MCPClient.call_tool py_str name args p = Ok (JStr (py_str (JDict res)), p'))
  /\ (forall r f rest text,
        dict_get "error" res = None ->
        dict_get "result" res = Some (JDict r) ->
        dict_get "content" r = Some (JList (JDict f :: rest)) ->
        dict_get "text" f = Some text ->
        MCPClient.call_tool py_str name args p = Ok (text, p')).
Proof.
  intros Hk Hrecv. rewrite ClientFacts.recv_eq in Hrecv.
  change (MCPClient.next_line (MCPClient.sent (MCPClient.tools_call name args) p))
    with (MCPClient.next_line p) in Hrecv.
  assert (Hcall : MCPClient.call_tool py_str name args p
                  = match MCPClient.answer py_str (JDict res) with
                    | Ok v => Ok (v, p')
                    | Raise e => Raise e
                    end).
  { rewrite ClientFacts.call_tool_eq by exact Hk.
    destruct (MCPClient.reply_of (MCPClient.next_line p)) as [v|e]; [|discriminate].
    injection Hrecv as -> <-. reflexivity. }
  rewrite Hcall. unfold MCPClient.answer, Py.contains, dict_has.
  split; [|split].
  - intros e m He Hm. rewrite He. cbn [bind Py.getitem]. rewrite He.
    cbn [bind Py.getitem]. rewrite Hm. cbn [bind].
    split; [reflexivity|apply ClientFacts.error_text_detected].
  - intros He Hs. rewrite He. cbn [bind Py.getitem].
    destruct Hs as [->|(r & -> & Hr)]; [reflexivity|].
    cbn [bind Py.getitem].
    destruct Hr as [->|[->|[(c & ->)|(f & rest & -> & Hf)]]]; try reflexivity.
    cbn [bind Py.getitem0 Py.getitem]. now rewrite Hf.
  - intros r f rest text He Hr Hc Hf. rewrite He. cbn [bind Py.getitem].
    rewrite Hr. cbn [bind Py.getitem]. rewrite Hc.
    cbn [bind Py.getitem0 Py.getitem]. now rewrite Hf.
Qed.

(** An error reply with a message: the error text. *)
Lemma call_tool_replies_example :
  MCPClient.call_tool (fun _ => EmptyString) "generate_oxid_ui" (JDict [])
    {| MCPClient.stdin := [];
       MCPClient.stdout :=
         ["{" ++ quoted "error" ++ ": {" ++ quoted "message" ++ ": "
              ++ quoted "boom" ++ "}}" ++ newline]%string;
       MCPClient.takes := 1 |}
  = Ok (JStr (MCPClient.error_prefix ++ "boom"),
        {| MCPClient.stdin := [MCPClient.tools_call "generate_oxid_ui" (JDict [])];
           MCPClient.stdout := [];
           MCPClient.takes := 0 |})
  /\ Main.is_error (JStr (MCPClient.error_prefix ++ "boom")) = Ok true.
Proof.
  apply (proj1 (call_tool_replies (fun _ => EmptyString) "generate_oxid_ui"
                  (JDict [])
                  {| MCPClient.stdin := [];
                     MCPClient.stdout :=
                       ["{" ++ quoted "error" ++ ": {" ++ quoted "message" ++ ": "
                            ++ quoted "boom" ++ "}}" ++ newline]%string;
                     MCPClient.takes := 1 |}
                  {| MCPClient.stdin :=
                       [MCPClient.tools_call "generate_oxid_ui" (JDict [])];
                     MCPClient.stdout := [];
                     MCPClient.takes := 0 |}
                  [("error", JDict [("message", JStr "boom")])]
                  (le_n 1) eq_refl)
               [("message", JStr "boom")] (JStr "boom")); reflexivity.
Defined.

(** C4, as stated, fails: an [error] object without [message], and a
    [result] that is not an object, make [call_tool] raise. *)
Lemma call_tool_raises :
  MCPClient.call_tool (fun _ => EmptyString) "generate_oxid_ui" (JDict [])
    {| MCPClient.stdin := [];
       MCPClient.stdout := ["{" ++ quoted "error" ++ ": {}}" ++ newline]%string;
       MCPClient.takes := 1 |}
  = Raise KeyError
  /\ MCPClient.call_tool (fun _ => EmptyString) "generate_oxid_ui" (JDict [])
       {| MCPClient.stdin := [];
          MCPClient.stdout := ["{" ++ quoted "result" ++ ": null}" ++ newline]%string;
          MCPClient.takes := 1 |}
     = Raise TypeError.
Proof. split; vm_compute; reflexivity. Qed.

(** C6. Resolving the catalog never fails.  It is the default list when
    the tool list is empty, when the lookup of the enumeration raises, and
    when the lookup yields nothing; it is the enumeration when that is a
    sequence with an item.  The default list is the eight kinds, in this
    order. *)
Theorem catalog_resolution (float_nonzero : string -> bool) (tools : json) :
  (Py.truthy float_nonzero tools = false ->
   Main.allowed_components float_nonzero tools = Main.default_components)
  /\ (forall e, Main.schema_enum tools = Raise e ->
      Main.allowed_components float_nonzero tools = Main.default_components)
  /\ (forall enum, Main.schema_enum tools = Ok enum ->
      Py.truthy float_nonzero enum = false ->
      Main.allowed_components float_nonzero tools = Main.default_components)
  /\ (forall x l, Py.truthy float_nonzero tools = true ->
      Main.schema_enum tools = Ok (JList (x :: l)) ->
      Main.allowed_components float_nonzero tools = JList (x :: l))
  /\ Main.default_components
     = JList (map JStr ["VStack"; "HStack"; "ZStack"; "Button";
                        "Label"; "Input"; "Image"; "Chart"]).
Proof.
  unfold Main.allowed_components. split; [|split; [|split; [|split]]].
  - now intros ->.
  - intros e ->. now destruct (Py.truthy float_nonzero tools).
  - intros enum -> He. cbn [bind]. rewrite He.
    now destruct (Py.truthy float_nonzero tools).
  - intros x l -> ->. reflexivity.
  - reflexivity.
Qed.

(** A tool whose schema enumerates two kinds: they are the catalog. *)
Lemma catalog_resolution_example :
  Main.allowed_components (fun _ => true)
    (JList [JDict [("name", JStr "generate_oxid_ui");
                   ("inputSchema",
                    JDict [("properties",
                            JDict [("type_name",
                                    JDict [("enum", JList [JStr "VStack"; JStr "Grid"])])])])]])
  = JList [JStr "VStack"; JStr "Grid"].
Proof.
  apply (proj1 (proj2 (proj2 (proj2 (catalog_resolution (fun _ => true) _)))));
    reflexivity.
Defined.

(** ** The history *)

Module HistoryFacts.
Import Main.

Lemma fold_calls (t : turn_input) (calls : list (string * json)) (messages : list json) :
  fold_left
    (fun messages call =>
       if String.eqb (fst call) "generate_oxid_ui" then
         messages ++ [reply_message t; tool_msg (snd call)]
       else messages)
    calls messages
  = messages
    ++ flat_map
         (fun call =>
            if String.eqb (fst call) "generate_oxid_ui" then
              [reply_message t; tool_msg (snd call)]
            else [])
         calls.
Proof.
  revert messages; induction calls as [|call calls IH]; intros messages; simpl.
  - now rewrite app_nil_r.
  - rewrite IH. destruct (String.eqb (fst call) "generate_oxid_ui").
    + now rewrite <- app_assoc.
    + reflexivity.
Qed.

(** A pass truncates, then appends its messages. *)
Lemma turn_eq (messages : list json) (t : turn_input) :
  turn messages t = truncate messages ++ turn_messages t.
Proof.
  unfold turn, turn_messages.
  destruct (tool_calls t) as [|call calls] eqn:E.
  - now rewrite <- app_assoc.
  - rewrite fold_calls. now rewrite <- app_assoc.
Qed.

Lemma turn_messages_length (t : turn_input) : 1 <= List.length (turn_messages t).
Proof. unfold turn_messages. simpl. lia. Qed.

Lemma truncate_length (messages : list json) :
  List.length (truncate messages) <= List.length messages.
Proof.
  unfold truncate. destruct (Nat.ltb_spec threshold (List.length messages)); [|lia].
  destruct messages; simpl; lia.
Qed.

Lemma run_length (ts : list turn_input) (messages : list json) :
  List.length (run messages ts)
  <= List.length messages + List.length (transcript ts).
Proof.
  revert messages; induction ts as [|t ts IH]; intros messages.
  - unfold run, transcript. simpl. lia.
  - change (run messages (t :: ts)) with (run (turn messages t) ts).
    change (transcript (t :: ts)) with (turn_messages t ++ transcript ts).
    rewrite length_app. specialize (IH (turn messages t)).
    assert (Hturn : List.length (turn messages t)
                    <= List.length messages + List.length (turn_messages t)).
    { rewrite turn_eq, length_app. pose proof (truncate_length messages). lia. }
    lia.
Qed.

(** Once enough passes follow, a truncation has taken place. *)
Lemma run_truncated (ts : list turn_input) (messages : list json) :
  ts <> [] ->
  threshold + 1 < List.length messages + List.length ts ->
  List.length (run messages ts)
  < List.length messages + List.length (transcript ts).
Proof.
  revert messages; induction ts as [|t ts IH]; intros messages Hne Hlen;
    [congruence|].
  change (run messages (t :: ts)) with (run (turn messages t) ts).
  change (transcript (t :: ts)) with (turn_messages t ++ transcript ts).
  rewrite length_app.
  pose proof (turn_messages_length t) as Ht.
  destruct (Nat.ltb_spec threshold (List.length messages)) as [Hfire|Hkeep].
  - pose proof (run_length ts (turn messages t)) as Hr.
    assert (Hturn : List.length (turn messages t)
                    = 1 + List.length (turn_messages t)).
    { rewrite turn_eq, length_app. unfold truncate.
      destruct (Nat.ltb_spec threshold (List.length messages)); [|lia].
      destruct messages; [simpl in Hfire; lia|reflexivity]. }
    unfold threshold in *. lia.
  - assert (Hturn : List.length (turn messages t)
                    = List.length messages + List.length (turn_messages t)).
    { rewrite turn_eq, length_app. unfold truncate.
      destruct (Nat.ltb_spec threshold (List.length messages)); [lia|reflexivity]. }
    cbn [List.length] in Hlen.
    destruct ts as [|t' ts']; [cbn [List.length] in Hlen; lia|].
    specialize (IH (turn messages t)). rewrite Hturn in IH.
    assert (Hgo : threshold + 1
                  < List.length messages + List.length (turn_messages t)
                    + List.length (t' :: ts')) by lia.
    specialize (IH ltac:(discriminate) Hgo). lia.
Qed.

(** The first message stays the first. *)
Lemma run_head (ts : list turn_input) (sys : json) (rest : list json) :
  exists rest', run (sys :: rest) ts = sys :: rest'.
Proof.
  revert rest; induction ts as [|t ts IH]; intros rest; simpl; [eauto|].
  rewrite turn_eq. unfold truncate.
  destruct (threshold <? List.length (sys :: rest)); simpl; apply IH.
Qed.

End HistoryFacts.

(** C7, as the code has it.  When the history holds more than six messages
    as a pass begins, the pass leaves the system message and its own
    messages, nothing else; and after more than six passes the history is
    shorter than the system message with the whole transcript. *)
Theorem history_bounded (sys : json) (ts : list Main.turn_input)
  (t : Main.turn_input) :
  (Main.threshold < List.length (Main.run [sys] ts) ->
   Main.run [sys] (ts ++ [t]) = sys :: turn_messages t)
  /\ (Main.threshold < List.length ts ->
      List.length (Main.run [sys] (ts ++ [t]))
      < List.length (sys :: transcript (ts ++ [t]))).
Proof.
  split.
  - intros H. unfold Main.run in *. rewrite fold_left_app. simpl.
    rewrite HistoryFacts.turn_eq. unfold Main.truncate.
    destruct (HistoryFacts.run_head ts sys []) as [rest E].
    unfold Main.run in E. rewrite E in *.
    destruct (Nat.ltb_spec Main.threshold (List.length (sys :: rest))); [reflexivity|lia].
  - intros H.
    pose proof (HistoryFacts.run_truncated (ts ++ [t]) [sys]) as Hr.
    rewrite length_app in Hr. simpl in *. apply Hr.
    + destruct ts; discriminate.
    + unfold Main.threshold in *. lia.
Qed.

(** Three passes in plain text make seven messages; the fourth pass leaves
    three. *)
Lemma history_bounded_example :
  Main.run [Main.system_msg "s"]
    ([plain_turn "a" "1"; plain_turn "b" "2"; plain_turn "c" "3"]
     ++ [plain_turn "d" "4"])
  = Main.system_msg "s" :: turn_messages (plain_turn "d" "4").
Proof.
  apply (proj1 (history_bounded (Main.system_msg "s")
                  [plain_turn "a" "1"; plain_turn "b" "2"; plain_turn "c" "3"]
                  (plain_turn "d" "4"))).
  vm_compute. lia.
Defined.

(** C7, as stated, fails: after seven passes in plain text, the eighth
    leaves the messages of the seventh in the history too. *)
Lemma history_after_seven_turns :
  let ts := map (fun line => plain_turn line "ok") ["1"; "2"; "3"; "4"; "5"; "6"; "7"] in
  let t := plain_turn "8" "ok" in
  Main.threshold < List.length ts
  /\ Main.run [Main.system_msg "s"] (ts ++ [t])
     = Main.system_msg "s"
       :: turn_messages (plain_turn "7" "ok") ++ turn_messages t
  /\ Main.run [Main.system_msg "s"] (ts ++ [t])
     <> Main.system_msg "s" :: turn_messages t.
Proof.
  cbv zeta. split; [vm_compute; lia|]. split; [vm_compute; reflexivity|].
  vm_compute. discriminate.
Qed.

(** * More of the code *)

(** ** The sanitizer on the entries of a mapping *)

Module EntryFacts.
Import DictFacts StrFacts SanitizeFacts FixupFacts.

Lemma dict_get_app (k : string) (a b : dict) :
  dict_get k (a ++ b)
  = match dict_get k a with Some v => Some v | None => dict_get k b end.
Proof.
  induction a as [|[k' v'] a IH]; simpl; [reflexivity|].
  now destruct (String.eqb k k').
Qed.

Lemma dict_get_map (f : json -> json) (k : string) (d : dict) :
  dict_get k (map (fun kv => (fst kv, f (snd kv))) d)
  = option_map f (dict_get k d).
Proof.
  induction d as [|[k' v'] d IH]; simpl; [reflexivity|].
  now destruct (String.eqb k k').
Qed.

(** Over distinct keys the loop keeps the order and maps every value. *)
Lemma fold_set_map (f : json -> json) (d acc : dict) :
  NoDup (keys (acc ++ d)) ->
  fold_set f d acc = acc ++ map (fun kv => (fst kv, f (snd kv))) d.
Proof.
  unfold fold_set.
  revert acc; induction d as [|[k v] d IH]; intros acc Hnd; simpl.
  - now rewrite app_nil_r.
  - rewrite dict_set_fresh.
    + rewrite IH.
      * now rewrite <- app_assoc.
      * unfold keys in *. rewrite <- app_assoc, !map_app in *. simpl in *.
        exact Hnd.
    + apply dict_get_not_in. unfold keys in *. rewrite map_app in Hnd.
      simpl in Hnd. apply NoDup_remove_2 in Hnd. intros H. apply Hnd.
      apply in_or_app. now left.
Qed.

Lemma sanitize_values_map (d : dict) :
  NoDup (keys d) ->
  sanitize_values d = map (fun kv => (fst kv, recursive_sanitize (snd kv))) d.
Proof. intros H. apply (fold_set_map recursive_sanitize d []). exact H. Qed.

Lemma get_sanitize_values (d : dict) (k : string) :
  NoDup (keys d) ->
  dict_get k (sanitize_values d) = option_map recursive_sanitize (dict_get k d).
Proof. intros H. rewrite sanitize_values_map by assumption. apply dict_get_map. Qed.

Lemma has_sanitize_values (d : dict) (k : string) :
  dict_has k (sanitize_values d) = dict_has k d.
Proof. unfold sanitize_values. now rewrite dict_has_fold_set. Qed.

Lemma get_fix_type_name_present (e : dict) :
  dict_has "type_name" e = true -> fix_type_name e = e.
Proof.
  intros H. unfold fix_type_name. rewrite H. simpl. now rewrite andb_false_r.
Qed.

Lemma sanitize_string_clean_upto (n : nat) :
  forall x t, jsize x <= n -> recursive_sanitize x = JStr t ->
  Str.strip t = t /\ (bracketed t = false \/ json_loads t = None).
Proof.
  induction n as [|n IH]; intros x t Hn H.
  - pose proof (jsize_pos x). lia.
  - rewrite recursive_sanitize_eq in H.
    destruct x as [| | | |s|l|d]; cbn [unfolded] in H; try discriminate.
    cbv zeta in H.
    destruct (bracketed (Str.strip s)) eqn:Eb.
    + destruct (json_loads (Str.strip s)) as [parsed|] eqn:El.
      * apply (IH parsed); [|assumption].
        apply json_loads_size in El. pose proof (strip_length s).
        simpl in Hn. lia.
      * injection H as <-. split; [apply strip_idem|now right].
    + injection H as <-. split; [apply strip_idem|now left].
Qed.

End EntryFacts.

(** X1. The sanitized form of a mapping has the keys of the mapping, and
    [type_name] besides when the mapping has [children] or [props]: no key
    is lost and no other key appears. *)
Theorem sanitize_keeps_keys (d : dict) :
  exists d', recursive_sanitize (JDict d) = JDict d'
    /\ forall k, dict_has k d'
                 = dict_has k d
                   || (String.eqb k "type_name"
                       && (dict_has "children" d || dict_has "props" d)).
Proof.
  exists (fixups (sanitize_values d)).
  split; [now rewrite SanitizeFacts.recursive_sanitize_eq|].
  intros k. unfold fixups.
  rewrite FixupFacts.has_fix_props, FixupFacts.has_fix_children.
  unfold fix_type_name. rewrite !EntryFacts.has_sanitize_values.
  destruct (dict_has "children" d || dict_has "props" d) eqn:Ecp;
    cbn [andb]; rewrite ?andb_true_r, ?andb_false_r, ?orb_false_r.
  - destruct (dict_has "type_name" d) eqn:Et; cbn [negb].
    + rewrite EntryFacts.has_sanitize_values.
      destruct (String.eqb_spec k "type_name") as [->|Hne].
      * rewrite Et. reflexivity.
      * now rewrite orb_false_r.
    + rewrite DictFacts.dict_has_set, EntryFacts.has_sanitize_values.
      apply orb_comm.
  - apply EntryFacts.has_sanitize_values.
Qed.

(** X2. In a mapping with distinct keys, every entry other than [children]
    and [props] comes out under its key with the sanitized form of its
    value; an explicit [type_name] is never replaced by the default. *)
Theorem sanitize_keeps_entries (d : dict) (k : string) (v : json) :
  NoDup (keys d) ->
  k <> "children" -> k <> "props" ->
  dict_get k d = Some v ->
  exists d', recursive_sanitize (JDict d) = JDict d'
    /\ dict_get k d' = Some (recursive_sanitize v).
Proof.
  intros Hnd Hc Hp Hk. exists (fixups (sanitize_values d)).
  split; [now rewrite SanitizeFacts.recursive_sanitize_eq|].
  unfold fixups.
  rewrite FixupFacts.get_fix_props_other, FixupFacts.get_fix_children_other
    by assumption.
  assert (Hget : dict_get k (sanitize_values d) = Some (recursive_sanitize v)).
  { rewrite EntryFacts.get_sanitize_values by assumption. now rewrite Hk. }
  destruct (String.eqb_spec k "type_name") as [->|Hne].
  - rewrite EntryFacts.get_fix_type_name_present; [assumption|].
    unfold dict_has. now rewrite Hget.
  - now rewrite FixupFacts.get_fix_type_name_other.
Qed.

(** A padded label and an explicit kind. *)
Lemma sanitize_keeps_entries_example :
  exists d',
    recursive_sanitize
      (JDict [("type_name", JStr " Button "); ("children", JList [])])
    = JDict d'
    /\ dict_get "type_name" d' = Some (recursive_sanitize (JStr " Button ")).
Proof.
  apply (sanitize_keeps_entries
           [("type_name", JStr " Button "); ("children", JList [])]
           "type_name" (JStr " Button ")).
  - repeat constructor; simpl; intuition discriminate.
  - discriminate.
  - discriminate.
  - reflexivity.
Defined.

(** X3. In a mapping with distinct keys, [children] comes out as the
    sanitized form of its value when that is a sequence and as the empty
    sequence otherwise, and [props] as the sanitized form of its value when
    that is a mapping and as the empty mapping otherwise. *)
Theorem sanitize_coerces (d : dict) :
  NoDup (keys d) ->
  exists d', recursive_sanitize (JDict d) = JDict d'
    /\ (forall v, dict_get "children" d = Some v ->
          dict_get "children" d'
          = Some (if is_list (recursive_sanitize v) then recursive_sanitize v
                  else JList []))
    /\ (forall v, dict_get "props" d = Some v ->
          dict_get "props" d'
          = Some (if is_dict (recursive_sanitize v) then recursive_sanitize v
                  else JDict [])).
Proof.
  intros Hnd. exists (fixups (sanitize_values d)).
  split; [now rewrite SanitizeFacts.recursive_sanitize_eq|].
  unfold fixups. split.
  - intros v Hv.
    rewrite FixupFacts.get_fix_props_other by discriminate.
    rewrite FixupFacts.get_fix_children_same.
    rewrite FixupFacts.get_fix_type_name_other by discriminate.
    rewrite EntryFacts.get_sanitize_values by assumption. now rewrite Hv.
  - intros v Hv.
    rewrite FixupFacts.get_fix_props_same.
    rewrite FixupFacts.get_fix_children_other by discriminate.
    rewrite FixupFacts.get_fix_type_name_other by discriminate.
    rewrite EntryFacts.get_sanitize_values by assumption. now rewrite Hv.
Qed.

(** A number for [children] and a string for [props]: both replaced. *)
Lemma sanitize_coerces_example :
  exists d',
    recursive_sanitize (JDict [("children", JInt 3); ("props", JStr "wide")])
    = JDict d'
    /\ dict_get "children" d' = Some (JList [])
    /\ dict_get "props" d' = Some (JDict []).
Proof.
  destruct (sanitize_coerces [("children", JInt 3); ("props", JStr "wide")])
    as (d' & E & Hc & Hp).
  - repeat constructor; simpl; intuition discriminate.
  - exists d'. split; [exact E|]. split.
    + exact (Hc (JInt 3) eq_refl).
    + exact (Hp (JStr "wide") eq_refl).
Defined.

(** X4. In a mapping with distinct keys, a [children] given as the text of
    a JSON array comes out as the array's items sanitized, those that are
    not mappings dropped. *)
Theorem sanitize_unwraps_children (d : dict) (s : string) (l : list json) :
  NoDup (keys d) ->
  dict_get "children" d = Some (JStr s) ->
  bracketed (Str.strip s) = true ->
  json_loads (Str.strip s) = Some (JList l) ->
  exists d', recursive_sanitize (JDict d) = JDict d'
    /\ dict_get "children" d'
       = Some (JList (filter is_dict (map recursive_sanitize l))).
Proof.
  intros Hnd Hc Hb Hl.
  exists (fixups (sanitize_values d)).
  split; [now rewrite SanitizeFacts.recursive_sanitize_eq|].
  unfold fixups.
  rewrite FixupFacts.get_fix_props_other by discriminate.
  rewrite FixupFacts.get_fix_children_same.
  rewrite FixupFacts.get_fix_type_name_other by discriminate.
  rewrite EntryFacts.get_sanitize_values by assumption. rewrite Hc.
  cbn [option_map].
  assert (Hs : recursive_sanitize (JStr s)
               = JList (filter is_dict (map recursive_sanitize l))).
  { rewrite SanitizeFacts.recursive_sanitize_eq. cbn [unfolded]. cbv zeta.
    rewrite Hb, Hl. now rewrite SanitizeFacts.recursive_sanitize_eq. }
  now rewrite Hs.
Qed.

(** Two children sent as one string, a label and a stray number. *)
Lemma sanitize_unwraps_children_example :
  exists d',
    recursive_sanitize
      (JDict [("children",
               JStr (" [{" ++ quoted "type_name" ++ ": " ++ quoted "Label"
                     ++ "}, 7] "))])
    = JDict d'
    /\ dict_get "children" d'
       = Some (JList (filter is_dict
                        (map recursive_sanitize
                           [JDict [("type_name", JStr "Label")]; JInt 7]))).
Proof.
  apply (sanitize_unwraps_children
           [("children",
             JStr (" [{" ++ quoted "type_name" ++ ": " ++ quoted "Label"
                   ++ "}, 7] "))]
           (" [{" ++ quoted "type_name" ++ ": " ++ quoted "Label" ++ "}, 7] ")
           [JDict [("type_name", JStr "Label")]; JInt 7]).
  - repeat constructor; simpl; intuition.
  - reflexivity.
  - vm_compute. reflexivity.
  - vm_compute. reflexivity.
Defined.

(** X5. A string that comes out of the sanitizer is stripped, and is not
    the text of an object or an array that decodes: no encoded structure is
    left at the top of a result. *)
Theorem sanitize_string_clean (x : json) (t : string) :
  recursive_sanitize x = JStr t ->
  Str.strip t = t /\ (bracketed t = false \/ json_loads t = None).
Proof. apply (EntryFacts.sanitize_string_clean_upto (jsize x)), le_n. Qed.

(** A padded word comes out stripped. *)
Lemma sanitize_string_clean_example :
  Str.strip "Save" = "Save"
  /\ (bracketed "Save" = false \/ json_loads "Save" = None).
Proof.
  apply (sanitize_string_clean (JStr "  Save ") "Save").
  vm_compute. reflexivity.
Defined.

(** ** The extractor on an object inside other text *)

Module ProseFacts.
Import Str StrFacts ExtractFacts SplitFacts.

Lemma partition_within (sep t s : string) :
  within t s -> partition sep s = None -> partition sep t = None.
Proof.
  intros (p & q & ->) Hs.
  destruct (partition sep t) as [[x y]|] eqn:E; [|reflexivity].
  apply partition_spec in E. subst t.
  destruct (partition_some sep (p ++ x) (y ++ q)) as (x' & y' & H).
  rewrite !append_assoc in H. rewrite !append_assoc in Hs. congruence.
Qed.

Lemma startswith_first (c : ascii) (body : string) :
  startswith (one c) body = true -> first_index c body = Some 0.
Proof.
  unfold startswith, one. destruct body as [|a r]; simpl; [discriminate|].
  now destruct (Ascii.eqb c a).
Qed.

Lemma endswith_last (c : ascii) (body : string) :
  endswith (one c) body = true ->
  last_index c body = Some (String.length body - 1).
Proof.
  induction body as [|a r IH]; [discriminate|].
  cbn [endswith last_index]. destruct r as [|b r].
  - unfold one. simpl. rewrite Ascii.eqb_sym.
    destruct (Ascii.eqb c a); [reflexivity|discriminate].
  - replace (String.eqb (String a (String b r)) (one c)) with false.
    + simpl orb. intros H. rewrite (IH H). cbn [String.length]. f_equal. lia.
    + unfold one. simpl. now destruct (Ascii.eqb a c).
Qed.

Lemma substring_all (b post : string) :
  substring 0 (String.length b) (b ++ post) = b.
Proof.
  induction b as [|a b IH]; simpl.
  - apply substring_zero.
  - now rewrite IH.
Qed.

Lemma brace_span_prose (pre body post : string) :
  first_index "{" pre = None -> first_index "}" post = None ->
  startswith "{" body = true -> endswith "}" body = true ->
  brace_span (pre ++ body ++ post) = Some body.
Proof.
  intros Hpre Hpost Hs He. unfold brace_span.
  rewrite first_index_app, Hpre, first_index_app.
  rewrite (startswith_first "{" body Hs). cbn [option_map].
  rewrite last_index_app, last_index_app.
  rewrite (proj2 (last_none _ _) Hpost), (endswith_last "}" body He).
  f_equal.
  assert (Hlen : 1 <= String.length body).
  { destruct body; [discriminate|simpl; lia]. }
  replace (S (String.length pre + (String.length body - 1))
           - (String.length pre + 0)) with (String.length body) by lia.
  rewrite substring_app_r. apply substring_all.
Qed.

End ProseFacts.

(** X6. An object written inside other text is found: when the text holds
    no tag of a fenced block, nothing before the object holds an opening
    brace and nothing after it a closing one, the extractor returns what
    the object decodes to. *)
Theorem extract_from_prose (pre body post : string) :
  Str.contains fence_json (pre ++ body ++ post) = false ->
  first_index "{" pre = None -> first_index "}" post = None ->
  Str.startswith "{" body = true -> Str.endswith "}" body = true ->
  extract_json_from_text (pre ++ body ++ post) = json_loads body.
Proof.
  intros Hf Hpre Hpost Hs He. rewrite ExtractFacts.extract_by_span.
  assert (Hnone : Str.partition fence_json (Str.strip (pre ++ body ++ post)) = None).
  { apply (ProseFacts.partition_within _ _ (pre ++ body ++ post)).
    - apply SplitFacts.within_strip.
    - unfold Str.contains in Hf.
      now destruct (Str.partition fence_json (pre ++ body ++ post)). }
  rewrite Hnone, ExtractFacts.brace_span_strip.
  now rewrite ProseFacts.brace_span_prose.
Qed.

(** A sentence, an object, a sentence. *)
Lemma extract_from_prose_example :
  extract_json_from_text
    ("Here you go: " ++ ("{" ++ quoted "type_name" ++ ": " ++ quoted "Label" ++ "}")
     ++ " Anything else?")
  = json_loads ("{" ++ quoted "type_name" ++ ": " ++ quoted "Label" ++ "}").
Proof.
  apply (extract_from_prose "Here you go: "
           ("{" ++ quoted "type_name" ++ ": " ++ quoted "Label" ++ "}")
           " Anything else?"); vm_compute; reflexivity.
Defined.

(** ** The client: what it writes and what it reads *)

(** X7. A handshake that returns has written its three messages, in
    order, after what was written before, has read two lines (fewer when
    the stream ended), and holds tools that have a length. *)
Theorem handshake_trace (p p' : MCPClient.process) (tools : json) :
  MCPClient._handshake p = Ok (tools, p') ->
  MCPClient.stdin p'
  = MCPClient.stdin p
    ++ [MCPClient.init_req; MCPClient.initialized; MCPClient.tools_req]
  /\ MCPClient.stdout p' = skipn 2 (MCPClient.stdout p)
  /\ exists n, Py.len tools = Ok n.
Proof.
  intros H. pose proof (ClientFacts.handshake_returns _ _ _ H) as Hk.
  rewrite ClientFacts.handshake_eq in H by exact Hk. revert H.
  destruct (MCPClient.reply_of (MCPClient.next_line p)) as [v1|e1]; [|discriminate].
  destruct (MCPClient.reply_of (MCPClient.next_line (MCPClient.advance p)))
    as [res|e2]; [|discriminate].
  destruct (MCPClient.tools_of res) as [t|e3] eqn:Et; [|discriminate].
  intros H. injection H as -> <-.
  split; [|split].
  - unfold MCPClient.shaken, MCPClient.advance, MCPClient.sent. simpl.
    now rewrite <- !app_assoc.
  - unfold MCPClient.shaken, MCPClient.advance, MCPClient.sent. simpl.
    now destruct (MCPClient.stdout p) as [|l1 [|l2 rest]].
  - unfold MCPClient.tools_of in Et.
    destruct (Py.get res "result" (JDict [])) as [r|]; [|discriminate].
    cbn [bind] in Et.
    destruct (Py.get r "tools" (JList [])) as [t'|]; [|discriminate].
    cbn [bind] in Et.
    destruct (Py.len t') as [n|] eqn:El; [|discriminate].
    injection Et as <-. eauto.
Qed.

(** Two replies, the second with one tool. *)
Lemma handshake_trace_example :
  MCPClient.stdin
    {| MCPClient.stdin :=
         [MCPClient.init_req; MCPClient.initialized; MCPClient.tools_req];
       MCPClient.stdout := [];
       MCPClient.takes := 0 |}
  = [] ++ [MCPClient.init_req; MCPClient.initialized; MCPClient.tools_req]
  /\ MCPClient.stdout
       {| MCPClient.stdin :=
            [MCPClient.init_req; MCPClient.initialized; MCPClient.tools_req];
          MCPClient.stdout := [];
          MCPClient.takes := 0 |}
     = skipn 2 ["{}" ++ newline;
                "{" ++ quoted "result" ++ ": {" ++ quoted "tools" ++ ": [{}]}}"
                    ++ newline]%string
  /\ exists n, Py.len (JList [JDict []]) = Ok n.
Proof.
  apply (handshake_trace
           {| MCPClient.stdin := [];
              MCPClient.stdout :=
                ["{}" ++ newline;
                 "{" ++ quoted "result" ++ ": {" ++ quoted "tools" ++ ": [{}]}}"
                     ++ newline]%string;
              MCPClient.takes := 3 |}).
  vm_compute. reflexivity.
Defined.

(** X8. When the server takes the three messages, the first reply is
    missing or decodes, and the second reply is an object whose [result] is
    an object whose [tools] is a sequence, the handshake returns that
    sequence. *)
Theorem handshake_stores_tools (p : MCPClient.process) (d r : dict)
  (l : list json) :
  3 <= MCPClient.takes p ->
  (MCPClient.next_line p = EmptyString
   \/ exists v, json_loads (MCPClient.next_line p) = Some v) ->
  json_loads (MCPClient.next_line (MCPClient.advance p)) = Some (JDict d) ->
  dict_get "result" d = Some (JDict r) ->
  dict_get "tools" r = Some (JList l) ->
  MCPClient._handshake p = Ok (JList l, MCPClient.shaken p).
Proof.
  intros Hk H1 H2 Hr Ht. rewrite ClientFacts.handshake_eq by exact Hk.
  assert (E1 : exists v, MCPClient.reply_of (MCPClient.next_line p) = Ok v).
  { destruct H1 as [->|[v Hv]]; [now exists (JDict [])|].
    unfold MCPClient.reply_of. rewrite Hv.
    destruct (MCPClient.next_line p); eauto. }
  destruct E1 as [v1 ->].
  unfold MCPClient.reply_of at 1. rewrite H2.
  destruct (MCPClient.next_line (MCPClient.advance p)) as [|c line].
  { vm_compute in H2. discriminate. }
  unfold MCPClient.tools_of, Py.get at 1. rewrite Hr. cbn [bind Py.get].
  rewrite Ht. reflexivity.
Qed.

(** Two replies, the second with one tool. *)
Lemma handshake_stores_tools_example :
  MCPClient._handshake
    {| MCPClient.stdin := [];
       MCPClient.stdout :=
         ["{}" ++ newline;
          "{" ++ quoted "result" ++ ": {" ++ quoted "tools" ++ ": [{}]}}"
              ++ newline]%string;
       MCPClient.takes := 3 |}
  = Ok (JList [JDict []],
        MCPClient.shaken
          {| MCPClient.stdin := [];
             MCPClient.stdout :=
               ["{}" ++ newline;
                "{" ++ quoted "result" ++ ": {" ++ quoted "tools" ++ ": [{}]}}"
                    ++ newline]%string;
             MCPClient.takes := 3 |}).
Proof.
  apply (handshake_stores_tools _ [("result", JDict [("tools", JList [JDict []])])]
           [("tools", JList [JDict []])] [JDict []]).
  - simpl. lia.
  - right. eexists. vm_compute. reflexivity.
  - vm_compute. reflexivity.
  - reflexivity.
  - reflexivity.
Defined.

(** X9. A call that returns has written one request, the [tools/call]
    with its name and arguments under the id 3, and has read one line. *)
Theorem call_tool_trace (py_str : json -> string) (name : string)
  (args : json) (p p' : MCPClient.process) (v : json) :
  MCPClient.call_tool py_str name args p = Ok (v, p') ->
  MCPClient.stdin p'
  = MCPClient.stdin p
    ++ [JDict [("jsonrpc", JStr "2.0"); ("id", JInt 3);
               ("method", JStr "tools/call");
               ("params", JDict [("name", JStr name); ("arguments", args)])]]
  /\ MCPClient.stdout p' = tl (MCPClient.stdout p).
Proof.
  intros H. pose proof (ClientFacts.call_tool_returns _ _ _ _ _ _ H) as Hk.
  rewrite ClientFacts.call_tool_eq in H by exact Hk. revert H.
  destruct (MCPClient.reply_of (MCPClient.next_line p)) as [res|e]; [|discriminate].
  destruct (MCPClient.answer py_str res) as [x|e]; [|discriminate].
  intros H. injection H as _ <-. split; reflexivity.
Qed.

(** A reply with the text [ok]. *)
Lemma call_tool_trace_example :
  MCPClient.stdin
    {| MCPClient.stdin := [MCPClient.tools_call "generate_oxid_ui" (JDict [])];
       MCPClient.stdout := [];
       MCPClient.takes := 0 |}
  = [] ++ [JDict [("jsonrpc", JStr "2.0"); ("id", JInt 3);
                  ("method", JStr "tools/call");
                  ("params", JDict [("name", JStr "generate_oxid_ui");
                                    ("arguments", JDict [])])]]
  /\ MCPClient.stdout
       {| MCPClient.stdin := [MCPClient.tools_call "generate_oxid_ui" (JDict [])];
          MCPClient.stdout := [];
          MCPClient.takes := 0 |}
     = tl ["{" ++ quoted "result" ++ ": {" ++ quoted "content" ++ ": [{"
               ++ quoted "text" ++ ": " ++ quoted "ok" ++ "}]}}" ++ newline]%string.
Proof.
  apply (call_tool_trace (fun _ => EmptyString) "generate_oxid_ui" (JDict [])
           {| MCPClient.stdin := [];
              MCPClient.stdout :=
                ["{" ++ quoted "result" ++ ": {" ++ quoted "content" ++ ": [{"
                     ++ quoted "text" ++ ": " ++ quoted "ok" ++ "}]}}"
                     ++ newline]%string;
              MCPClient.takes := 1 |}
           _ (JStr "ok")).
  vm_compute. reflexivity.
Defined.

(** X10. When the stream has ended, what a call does depends on its write.
    If the server takes the request and ends without a reply, the call does
    not raise: it returns the empty mapping rendered as a string.  If the
    server has exited and takes nothing, the call raises at the write, and
    nothing is read. *)
Theorem call_tool_at_end (py_str : json -> string) (name : string)
  (args : json) (p : MCPClient.process) :
  MCPClient.stdout p = [] ->
  MCPClient.call_tool py_str name args p
  = match MCPClient.takes p with
    | 0 => Raise BrokenPipeError
    | S more =>
        Ok (JStr (py_str (JDict [])),
            {| MCPClient.stdin :=
                 MCPClient.stdin p ++ [MCPClient.tools_call name args];
               MCPClient.stdout := [];
               MCPClient.takes := more |})
    end.
Proof.
  intros H. destruct (MCPClient.takes p) as [|more] eqn:Ek.
  - now apply ClientFacts.call_tool_broken.
  - rewrite ClientFacts.call_tool_eq by lia.
    unfold MCPClient.next_line, MCPClient.advance, MCPClient.sent.
    rewrite H, Ek. reflexivity.
Qed.

(** A server that takes the request and ends. *)
Lemma call_tool_at_end_example :
  MCPClient.call_tool (fun _ => "{}") "generate_oxid_ui" (JDict [])
    {| MCPClient.stdin := []; MCPClient.stdout := []; MCPClient.takes := 1 |}
  = Ok (JStr "{}",
        {| MCPClient.stdin := [] ++ [MCPClient.tools_call "generate_oxid_ui" (JDict [])];
           MCPClient.stdout := [];
           MCPClient.takes := 0 |}).
Proof.
  apply (call_tool_at_end (fun _ => "{}") "generate_oxid_ui" (JDict [])
           {| MCPClient.stdin := []; MCPClient.stdout := []; MCPClient.takes := 1 |}).
  reflexivity.
Defined.

(** X11. Only the end of the stream counts as a missing reply: a line that
    is not empty and holds nothing but spaces, tabs and line ends makes
    [_recv] raise. *)
Theorem recv_blank_line_raises (p : MCPClient.process) (line : string)
  (rest : list string) :
  MCPClient.stdout p = line :: rest ->
  line <> EmptyString ->
  Decoder.skip_ws line = EmptyString ->
  MCPClient._recv p = Raise JSONDecodeError.
Proof.
  intros Hp Hne Hws. rewrite ClientFacts.recv_eq.
  unfold MCPClient.next_line. rewrite Hp.
  unfold MCPClient.reply_of. destruct line as [|c line]; [congruence|].
  unfold json_loads. rewrite Hws. reflexivity.
Qed.

(** A line with its end and nothing else. *)
Lemma recv_blank_line_raises_example :
  MCPClient._recv
    {| MCPClient.stdin := []; MCPClient.stdout := [newline]; MCPClient.takes := 1 |}
  = Raise JSONDecodeError.
Proof.
  apply (recv_blank_line_raises _ newline []).
  - reflexivity.
  - discriminate.
  - reflexivity.
Defined.

(** ** The arguments made ready for the brain *)

Module PrepareFacts.
Import DictFacts Pass.

Lemma get_remove_same (k : string) (d : dict) :
  dict_get k (dict_remove k d) = None.
Proof.
  unfold dict_remove. induction d as [|[k' v] d IH]; simpl; [reflexivity|].
  destruct (String.eqb k k') eqn:E; simpl; [assumption|]. now rewrite E.
Qed.

Lemma get_remove_other (k k' : string) (d : dict) :
  k' <> k -> dict_get k' (dict_remove k d) = dict_get k' d.
Proof.
  intros Hne. unfold dict_remove. induction d as [|[k0 v] d IH]; simpl; [reflexivity|].
  destruct (String.eqb_spec k k0) as [<-|Hk]; simpl.
  - destruct (String.eqb_spec k' k); [contradiction|assumption].
  - now rewrite IH.
Qed.

Section Prepare.

Variable randint : nat -> nat.

(** On a mapping the preparation goes through, and this is what it gives. *)
Lemma prepare_dict (drawn : nat) (fn_args : json) (d : dict) :
  recursive_sanitize fn_args = JDict d ->
  prepare randint drawn fn_args
  = match dict_get "view_name" (with_type d) with
    | Some v => Ok (v, JDict (dict_remove "view_name" (with_type d)), drawn)
    | None =>
        Ok (JStr ("AutoView_" ++ decimal (randint drawn)),
            JDict (dict_remove "view_name"
                     (dict_set "view_name"
                        (JStr ("AutoView_" ++ decimal (randint drawn)))
                        (with_type d))),
            S drawn)
    end.
Proof.
  intros E. unfold prepare. cbv zeta. rewrite E. cbn [Py.contains bind].
  assert (E1 : (if dict_has "type_name" d then Ok (JDict d)
                else setitem (JDict d) "type_name" (JStr "VStack"))
               = Ok (JDict (with_type d))).
  { unfold with_type. now destruct (dict_has "type_name" d). }
  rewrite E1. cbn [Py.contains bind]. unfold dict_has.
  destruct (dict_get "view_name" (with_type d)) as [v|] eqn:Ev.
  - cbn [bind fst snd pop]. rewrite Ev. reflexivity.
  - cbn [bind fst snd pop setitem]. rewrite dict_get_set_same. reflexivity.
Qed.

Lemma items_are_dicts (l : list json) (k : string) :
  Forall guaranteed l ->
  existsb (fun x => match x with
                    | JStr s => String.eqb s k
                    | _ => false
                    end) l = false.
Proof.
  induction 1 as [|x l Hx _ IH]; [reflexivity|].
  simpl. rewrite IH. now destruct Hx.
Qed.

(** On anything else it raises. *)
Lemma prepare_other (drawn : nat) (fn_args : json) :
  is_dict (recursive_sanitize fn_args) = false ->
  prepare randint drawn fn_args = Raise TypeError
  \/ prepare randint drawn fn_args = Raise AttributeError.
Proof.
  intros H. unfold prepare. cbv zeta.
  pose proof (SanitizeProps.shaped_upto _ fn_args (le_n _)) as Hs.
  destruct (recursive_sanitize fn_args) as [| | | |s|l|d]; try discriminate;
    try (left; reflexivity).
  - cbn [Py.contains bind].
    destruct (Str.contains "type_name" s); [|left; reflexivity].
    cbn [bind Py.contains].
    destruct (Str.contains "view_name" s); [right|left]; reflexivity.
  - cbn [Py.contains bind shaped] in *.
    rewrite (items_are_dicts l "type_name" Hs). left. reflexivity.
Qed.

End Prepare.

End PrepareFacts.

(** X12. The arguments are made ready exactly when they sanitize to a
    mapping: then the preparation returns, otherwise it raises a
    [TypeError] or an [AttributeError]. *)
Theorem prepare_needs_mapping (randint : nat -> nat) (drawn : nat)
  (fn_args : json) :
  (is_dict (recursive_sanitize fn_args) = true ->
   exists prepared, Pass.prepare randint drawn fn_args = Ok prepared)
  /\ (is_dict (recursive_sanitize fn_args) = false ->
      Pass.prepare randint drawn fn_args = Raise TypeError
      \/ Pass.prepare randint drawn fn_args = Raise AttributeError).
Proof.
  split.
  - intros H. destruct (recursive_sanitize fn_args) as [| | | | | |d] eqn:E;
      try discriminate.
    rewrite (PrepareFacts.prepare_dict randint drawn fn_args d E).
    destruct (dict_get "view_name" (Pass.with_type d)); eauto.
  - apply PrepareFacts.prepare_other.
Qed.

(** A list of arguments raises. *)
Lemma prepare_needs_mapping_example :
  Pass.prepare (fun _ => 100) 0 (JList [JInt 1]) = Raise TypeError
  \/ Pass.prepare (fun _ => 100) 0 (JList [JInt 1]) = Raise AttributeError.
Proof.
  apply (proj2 (prepare_needs_mapping (fun _ => 100) 0 (JList [JInt 1]))).
  reflexivity.
Defined.

(** X13. What is made ready for the brain is a mapping that has a
    [type_name], has no [view_name], and has the guarantee of the sanitizer:
    [children], when present, a sequence of such mappings, and [props],
    when present, a mapping. *)
Theorem prepared_schema (randint : nat -> nat) (drawn n : nat)
  (fn_args view_name schema : json) :
  Pass.prepare randint drawn fn_args = Ok (view_name, schema, n) ->
  exists s, schema = JDict s
    /\ dict_has "type_name" s = true
    /\ dict_has "view_name" s = false
    /\ guaranteed (JDict s).
Proof.
  intros H.
  destruct (is_dict (recursive_sanitize fn_args)) eqn:Ed.
  2:{ destruct (PrepareFacts.prepare_other randint drawn fn_args Ed) as [E|E];
        rewrite E in H; discriminate. }
  pose proof (SanitizeProps.shaped_upto _ fn_args (le_n _)) as Hs.
  destruct (recursive_sanitize fn_args) as [| | | | | |d] eqn:E; try discriminate.
  cbn [shaped] in Hs.
  rewrite (PrepareFacts.prepare_dict randint drawn fn_args d E) in H.
  assert (Hwt : dict_has "type_name" (Pass.with_type d) = true).
  { unfold Pass.with_type. destruct (dict_has "type_name" d) eqn:Et; [assumption|].
    apply DictFacts.dict_has_set_same. }
  assert (Hkeep : forall k, k <> "type_name" ->
            dict_get k (Pass.with_type d) = dict_get k d).
  { intros k Hk. unfold Pass.with_type. destruct (dict_has "type_name" d); [reflexivity|].
    now apply DictFacts.dict_get_set_other. }
  assert (Hg : forall s : dict,
            (forall k, k <> "view_name" -> k <> "type_name" ->
                       dict_get k s = dict_get k d) ->
            guaranteed (JDict s)).
  { intros s Hsd. inversion Hs as [d0 Hc Hp E0]. subst d0. constructor.
    - intros c Hcs. rewrite Hsd in Hcs by discriminate. now apply Hc.
    - intros q Hps. rewrite Hsd in Hps by discriminate. now apply Hp. }
  destruct (dict_get "view_name" (Pass.with_type d)) as [v|] eqn:Ev;
    injection H as <- <- <-; eexists; (split; [reflexivity|]).
  - split; [|split].
    + unfold dict_has. rewrite PrepareFacts.get_remove_other by discriminate.
      exact Hwt.
    + unfold dict_has. now rewrite PrepareFacts.get_remove_same.
    + apply Hg. intros k Hv Ht.
      rewrite PrepareFacts.get_remove_other by assumption. now apply Hkeep.
  - split; [|split].
    + unfold dict_has. rewrite PrepareFacts.get_remove_other by discriminate.
      rewrite DictFacts.dict_get_set_other by discriminate. exact Hwt.
    + unfold dict_has. now rewrite PrepareFacts.get_remove_same.
    + apply Hg. intros k Hv Ht.
      rewrite PrepareFacts.get_remove_other by assumption.
      rewrite DictFacts.dict_get_set_other by assumption. now apply Hkeep.
Qed.

(** A button with a name and ill-typed [props]. *)
Lemma prepared_schema_example :
  exists s,
    JDict [("props", JDict []); ("type_name", JStr "VStack")] = JDict s
    /\ dict_has "type_name" s = true
    /\ dict_has "view_name" s = false
    /\ guaranteed (JDict s).
Proof.
  apply (prepared_schema (fun _ => 100) 0 0
           (JDict [("view_name", JStr "Login"); ("props", JInt 1)])
           (JStr "Login")).
  vm_compute. reflexivity.
Defined.

(** X14. The two defaults are used only for a missing key.  A [view_name]
    among the sanitized arguments is the name used, and no number is
    drawn; without one the name is [AutoView_] and the next number drawn.
    A [type_name] among them is kept; without one it is [VStack]. *)
Theorem prepare_defaults (randint : nat -> nat) (drawn : nat)
  (fn_args : json) (d : dict) :
  recursive_sanitize fn_args = JDict d ->
  exists s,
    Pass.prepare randint drawn fn_args
    = Ok (match dict_get "view_name" d with
          | Some v => v
          | None => JStr ("AutoView_" ++ Pass.decimal (randint drawn))
          end,
          JDict s,
          match dict_get "view_name" d with
          | Some _ => drawn
          | None => S drawn
          end)
    /\ dict_get "type_name" s
       = Some (match dict_get "type_name" d with
               | Some kind => kind
               | None => JStr "VStack"
               end).
Proof.
  intros E. rewrite (PrepareFacts.prepare_dict randint drawn fn_args d E).
  assert (Hv : dict_get "view_name" (Pass.with_type d) = dict_get "view_name" d).
  { unfold Pass.with_type. destruct (dict_has "type_name" d); [reflexivity|].
    now apply DictFacts.dict_get_set_other. }
  assert (Ht : dict_get "type_name" (Pass.with_type d)
               = Some (match dict_get "type_name" d with
                       | Some kind => kind
                       | None => JStr "VStack"
                       end)).
  { unfold Pass.with_type, dict_has.
    destruct (dict_get "type_name" d) eqn:Et; [assumption|].
    apply DictFacts.dict_get_set_same. }
  rewrite Hv. destruct (dict_get "view_name" d) as [v|]; eexists;
    (split; [reflexivity|]).
  - now rewrite PrepareFacts.get_remove_other by discriminate.
  - rewrite PrepareFacts.get_remove_other by discriminate.
    now rewrite DictFacts.dict_get_set_other by discriminate.
Qed.

(** Arguments with neither key: the name is drawn, the kind is the
    default. *)
Lemma prepare_defaults_example :
  exists s,
    Pass.prepare (fun _ => 417) 0 (JDict [("props", JDict [])])
    = Ok (JStr ("AutoView_" ++ Pass.decimal 417), JDict s, 1)
    /\ dict_get "type_name" s = Some (JStr "VStack").
Proof.
  apply (prepare_defaults (fun _ => 417) 0 (JDict [("props", JDict [])])
           [("props", JDict []); ("type_name", JStr "VStack")]).
  vm_compute. reflexivity.
Defined.

(** ** One pass of the loop *)

Module PassFacts.
Import Pass.

Lemma split_chars_nonempty (s : string) :
  s <> EmptyString ->
  fst (split_chars s) <> EmptyString \/ snd (split_chars s) <> [].
Proof.
  destruct s as [|c r]; [congruence|]. intros _. simpl.
  destruct (split_chars r) as [k cs].
  destruct (Py.is_continuation c); simpl; [left|right]; discriminate.
Qed.

Lemma chars_nonempty (s : string) : s <> EmptyString -> chars s <> [].
Proof.
  intros H. unfold chars. destruct (split_chars_nonempty s H) as [Hk|Hc];
    destruct (split_chars s) as [k cs]; simpl in *.
  - destruct k; [congruence|discriminate].
  - destruct k; [assumption|discriminate].
Qed.

(** A value that counts as true has something to iterate over. *)
Lemma iterate_truthy (float_nonzero : string -> bool) (v : json) (l : list json) :
  Py.truthy float_nonzero v = true -> iterate v = Ok l -> l <> [].
Proof.
  destruct v as [| | | |s|items|d]; simpl; try (intros _ H; discriminate H).
  - intros Hs H. injection H as <-.
    destruct s as [|c r]; [discriminate|].
    assert (Hne : chars (String c r) <> []) by (apply chars_nonempty; discriminate).
    destruct (chars (String c r)); [congruence|discriminate].
  - intros Hs H. injection H as <-. destruct items; discriminate.
  - intros Hs H. injection H as <-. destruct d; discriminate.
Qed.

Section Calls.

Variable py_str : json -> string.
Variable dumps : json -> string.
Variable randint : nat -> nat.

(** A call either leaves the history alone or appends the message of the
    reply and a tool message. *)
Lemma handle_call_history (response tool : json) (messages messages' : list json)
  (w w' : world) :
  handle_call py_str dumps randint response tool messages w = Ok (messages', w') ->
  messages' = messages
  \/ exists rust_code,
       messages' = messages ++ [message_of response; Main.tool_msg rust_code].
Proof.
  unfold handle_call, message_of.
  destruct (Py.getitem tool "function") as [fn|]; [|discriminate]. cbn [bind].
  destruct (Py.getitem fn "name") as [fn_name|]; [|discriminate]. cbn [bind].
  destruct (Py.getitem fn "arguments") as [fn_args|]; [|discriminate]. cbn [bind].
  destruct (equals fn_name "generate_oxid_ui").
  2:{ intros [= <- <-]. now left. }
  destruct (prepare randint (draws w) fn_args) as [[[view schema] n]|];
    [|discriminate].
  cbn [bind fst snd].
  destruct (MCPClient.call_tool py_str "generate_oxid_ui" _ (brain w))
    as [[rust_code b]|]; [|discriminate].
  cbn [bind fst snd].
  destruct (Main.is_error rust_code) as [failed|]; [|discriminate]. cbn [bind].
  match goal with
  | |- context [bind ?x _] => destruct x as [w1|]; [|discriminate]
  end.
  cbn [bind].
  destruct (Py.getitem response "message") as [message|]; [|discriminate].
  cbn [bind]. intros [= <- <-]. right. eauto.
Qed.

(** The calls of a reply, as the history sees them. *)
Lemma handle_calls_history (response : json) (tools : list json) :
  forall (messages messages' : list json) (w w' : world),
  handle_calls py_str dumps randint response tools messages w = Ok (messages', w') ->
  exists calls : list (string * json),
    List.length calls = List.length tools
    /\ messages'
       = fold_left
           (fun messages call =>
              if String.eqb (fst call) "generate_oxid_ui" then
                messages ++ [message_of response; Main.tool_msg (snd call)]
              else messages)
           calls messages.
Proof.
  induction tools as [|tool rest IH]; intros messages messages' w w' H.
  - injection H as <- <-. exists []. split; reflexivity.
  - cbn [handle_calls] in H.
    destruct (handle_call py_str dumps randint response tool messages w)
      as [[m1 w1]|] eqn:E; [|discriminate].
    cbn [bind fst snd] in H.
    destruct (IH _ _ _ _ H) as (calls & Hlen & Hcalls).
    destruct (handle_call_history _ _ _ _ _ _ E) as [->|(rc & ->)].
    + exists ((EmptyString, JNull) :: calls). split; [simpl; congruence|].
      exact Hcalls.
    + exists (("generate_oxid_ui"%string, rc) :: calls).
      split; [simpl; congruence|]. exact Hcalls.
Qed.

(** A call of the generator answered with a text. *)
Lemma handle_call_text
  (response tool fn fn_args view_name schema message : json) (n : nat)
  (code : string) (messages : list json) (w : world)
  (b : MCPClient.process) :
  Py.getitem tool "function" = Ok fn ->
  Py.getitem fn "name" = Ok (JStr "generate_oxid_ui") ->
  Py.getitem fn "arguments" = Ok fn_args ->
  prepare randint (draws w) fn_args = Ok (view_name, schema, n) ->
  MCPClient.call_tool py_str "generate_oxid_ui"
    (JDict [("view_name", view_name); ("schema", schema)]) (brain w)
  = Ok (JStr code, b) ->
  Py.getitem response "message" = Ok message ->
  handle_call py_str dumps randint response tool messages w
  = Ok (messages ++ [message; Main.tool_msg (JStr code)],
        if Str.contains "Error:" code then
          {| brain := b; writes := writes w;
             launches := launches w; draws := n |}
        else
          {| brain := b;
             writes :=
               writes w
               ++ [((MCPClient.format py_str view_name ++ ".rs")%string, code);
                   ("temp_preview.json"%string, dumps schema)];
             launches := launches w ++ ["temp_preview.json"%string];
             draws := n |}).
Proof.
  intros Hfn Hname Hargs Hprep Hcall Hmsg. unfold handle_call.
  rewrite Hfn. cbn [bind]. rewrite Hname. cbn [bind]. rewrite Hargs.
  cbn [bind equals]. rewrite String.eqb_refl.
  rewrite Hprep. cbn [bind fst snd]. rewrite Hcall. cbn [bind fst snd].
  unfold Main.is_error, Py.contains. cbn [bind].
  destruct (Str.contains "Error:" code).
  - cbn [bind]. rewrite Hmsg. reflexivity.
  - cbn [bind save_rust_code launch_viewer writes launches
         brain draws].
    rewrite Hmsg. cbn [bind]. unfold launch_viewer.
    cbn [writes launches brain draws].
    rewrite <- app_assoc. reflexivity.
Qed.

End Calls.

(** The tool calls of a reply whose message carries none. *)
Lemma tool_calls_of_text (float_nonzero : string -> bool) (r m : dict)
  (text : string) :
  dict_get "message" r = Some (JDict m) ->
  Py.truthy float_nonzero
    (match dict_get "tool_calls" m with Some calls => calls | None => JNull end)
  = false ->
  dict_get "content" m = Some (JStr text) ->
  tool_calls_of float_nonzero (JDict r)
  = match extract_json_from_text text with
    | Some extracted =>
        if Py.truthy float_nonzero extracted then
          inner <- Py.get extracted "arguments" extracted ;;
          args <- Py.get extracted "parameters" inner ;;
          Ok (JList [JDict [("function",
                             JDict [("name", JStr "generate_oxid_ui");
                                    ("arguments", args)])]])
        else
          Ok (match dict_get "tool_calls" m with
              | Some calls => calls
              | None => JNull
              end)
    | None =>
        Ok (match dict_get "tool_calls" m with
            | Some calls => calls
            | None => JNull
            end)
    end.
Proof.
  intros Hm Hc Ht. unfold tool_calls_of.
  assert (E1 : Py.get (JDict r) "message" (JDict []) = Ok (JDict m))
    by (cbn [Py.get]; now rewrite Hm).
  assert (E2 : Py.get (JDict m) "tool_calls" JNull
               = Ok (match dict_get "tool_calls" m with
                     | Some calls => calls
                     | None => JNull
                     end))
    by (cbn [Py.get]; now destruct (dict_get "tool_calls" m)).
  assert (E3 : Py.getitem (JDict r) "message" = Ok (JDict m))
    by (cbn [Py.getitem]; now rewrite Hm).
  assert (E4 : Py.getitem (JDict m) "content" = Ok (JStr text))
    by (cbn [Py.getitem]; now rewrite Ht).
  rewrite E1. cbn [bind]. rewrite E2. cbn [bind]. rewrite Hc.
  rewrite E3. cbn [bind]. rewrite E4. cbn [bind extract_from]. reflexivity.
Qed.

Section Whole.

Variable float_nonzero : string -> bool.
Variable py_str : json -> string.
Variable dumps : json -> string.
Variable randint : nat -> nat.

(** A call of another function does nothing. *)
Lemma handle_call_foreign (response tool name : json) (messages : list json)
  (w : world) :
  names tool name -> equals name "generate_oxid_ui" = false ->
  handle_call py_str dumps randint response tool messages w = Ok (messages, w).
Proof.
  intros (t & f & args & -> & Hf & Hn & Ha) He. unfold handle_call.
  cbn [Py.getitem]. rewrite Hf. cbn [bind Py.getitem]. rewrite Hn, Ha.
  cbn [bind]. now rewrite He.
Qed.

Lemma handle_calls_foreign (response : json) (tools : list json)
  (messages : list json) (w : world) :
  Forall (fun tool => exists name,
            names tool name /\ equals name "generate_oxid_ui" = false) tools ->
  handle_calls py_str dumps randint response tools messages w = Ok (messages, w).
Proof.
  induction 1 as [|tool rest (name & Hn & He) _ IH]; [reflexivity|].
  cbn [handle_calls]. rewrite (handle_call_foreign _ _ name _ _ Hn He).
  cbn [bind fst snd]. exact IH.
Qed.

(** A pass that returns is a turn of the history. *)
Lemma pass_turn (user_input : string) (response : json)
  (messages messages' : list json) (w w' : world) :
  pass float_nonzero py_str dumps randint user_input response messages w
  = Ok (messages', w') ->
  exists t, Main.user_input t = user_input
    /\ Main.reply_message t = message_of response
    /\ messages' = Main.turn messages t.
Proof.
  unfold pass. cbv zeta.
  destruct (tool_calls_of float_nonzero response) as [tool_calls|]; [|discriminate].
  cbn [bind]. destruct (Py.truthy float_nonzero tool_calls) eqn:Et.
  - destruct (iterate tool_calls) as [tools|] eqn:Ei; [|discriminate].
    cbn [bind]. intros H.
    destruct (handle_calls_history _ _ _ _ _ _ _ _ _ H) as (calls & Hlen & ->).
    pose proof (iterate_truthy _ _ _ Et Ei) as Hne.
    exists {| Main.user_input := user_input;
              Main.reply_message := message_of response;
              Main.tool_calls := calls |}.
    split; [reflexivity|]. split; [reflexivity|].
    unfold Main.turn. cbn [Main.tool_calls Main.user_input Main.reply_message].
    destruct calls as [|call calls]; [|reflexivity].
    destruct tools; [congruence|discriminate].
  - unfold message_of.
    destruct (Py.getitem response "message") as [message|]; [|discriminate].
    cbn [bind].
    destruct (Py.getitem message "content"); [|discriminate].
    cbn [bind]. intros [= <- <-].
    exists {| Main.user_input := user_input;
              Main.reply_message := message;
              Main.tool_calls := [] |}.
    split; [reflexivity|]. split; reflexivity.
Qed.

End Whole.

End PassFacts.

(** X15. A call of the generator that the brain answers with a text: the
    request carries the view name and the schema made ready; the reply
    message and the text go into the history; and the text is written to
    the file of the view, and the schema to the preview file the viewer is
    launched on, exactly when the text does not contain [Error:]. *)
Theorem generator_call (py_str dumps : json -> string) (randint : nat -> nat)
  (response tool fn fn_args view_name schema message : json) (n : nat)
  (code : string) (messages : list json) (w : Pass.world)
  (b : MCPClient.process) :
  Py.getitem tool "function" = Ok fn ->
  Py.getitem fn "name" = Ok (JStr "generate_oxid_ui") ->
  Py.getitem fn "arguments" = Ok fn_args ->
  Pass.prepare randint (Pass.draws w) fn_args = Ok (view_name, schema, n) ->
  MCPClient.call_tool py_str "generate_oxid_ui"
    (JDict [("view_name", view_name); ("schema", schema)]) (Pass.brain w)
  = Ok (JStr code, b) ->
  Py.getitem response "message" = Ok message ->
  Pass.handle_call py_str dumps randint response tool messages w
  = Ok (messages ++ [message; Main.tool_msg (JStr code)],
        if Str.contains "Error:" code then
          {| Pass.brain := b; Pass.writes := Pass.writes w;
             Pass.launches := Pass.launches w; Pass.draws := n |}
        else
          {| Pass.brain := b;
             Pass.writes :=
               Pass.writes w
               ++ [((MCPClient.format py_str view_name ++ ".rs")%string, code);
                   ("temp_preview.json"%string, dumps schema)];
             Pass.launches := Pass.launches w ++ ["temp_preview.json"%string];
             Pass.draws := n |}).
Proof. apply PassFacts.handle_call_text. Qed.

(** A login view, generated. *)
Lemma generator_call_example :
  Pass.handle_call (fun _ => EmptyString) (fun _ => "{}") (fun _ => 100)
    (JDict [("message", JStr "reply")])
    (JDict [("function",
             JDict [("name", JStr "generate_oxid_ui");
                    ("arguments", JDict [("view_name", JStr "Login")])])])
    []
    {| Pass.brain :=
         {| MCPClient.stdin := [];
            MCPClient.stdout :=
              ["{" ++ quoted "result" ++ ": {" ++ quoted "content" ++ ": [{"
                   ++ quoted "text" ++ ": " ++ quoted "fn main" ++ "}]}}"
                   ++ newline]%string;
            MCPClient.takes := 1 |};
       Pass.writes := []; Pass.launches := []; Pass.draws := 0 |}
  = Ok ([] ++ [JStr "reply"; Main.tool_msg (JStr "fn main")],
        if Str.contains "Error:" "fn main" then
          {| Pass.brain :=
               {| MCPClient.stdin :=
                    [MCPClient.tools_call "generate_oxid_ui"
                       (JDict [("view_name", JStr "Login");
                               ("schema", JDict [("type_name", JStr "VStack")])])];
                  MCPClient.stdout := [];
                  MCPClient.takes := 0 |};
             Pass.writes := []; Pass.launches := []; Pass.draws := 0 |}
        else
          {| Pass.brain :=
               {| MCPClient.stdin :=
                    [MCPClient.tools_call "generate_oxid_ui"
                       (JDict [("view_name", JStr "Login");
                               ("schema", JDict [("type_name", JStr "VStack")])])];
                  MCPClient.stdout := [];
                  MCPClient.takes := 0 |};
             Pass.writes :=
               [] ++ [((MCPClient.format (fun _ => EmptyString) (JStr "Login")
                        ++ ".rs")%string, "fn main"%string);
                      ("temp_preview.json"%string, "{}"%string)];
             Pass.launches := [] ++ ["temp_preview.json"%string];
             Pass.draws := 0 |}).
Proof.
  apply (generator_call (fun _ => EmptyString) (fun _ => "{}") (fun _ => 100)
           (JDict [("message", JStr "reply")])
           (JDict [("function",
                    JDict [("name", JStr "generate_oxid_ui");
                           ("arguments", JDict [("view_name", JStr "Login")])])])
           (JDict [("name", JStr "generate_oxid_ui");
                   ("arguments", JDict [("view_name", JStr "Login")])])
           (JDict [("view_name", JStr "Login")])
           (JStr "Login") (JDict [("type_name", JStr "VStack")]) (JStr "reply") 0
           "fn main" []); vm_compute; reflexivity.
Defined.

(** X16. A reply with no tool call whose text holds no object, or the
    empty object, starts nothing: the history gets the user's message and
    the reply, and the brain, the files and the viewer are left alone. *)
Theorem plain_reply (float_nonzero : string -> bool)
  (py_str dumps : json -> string) (randint : nat -> nat) (user_input : string)
  (r m : dict) (text : string) (messages : list json) (w : Pass.world) :
  dict_get "message" r = Some (JDict m) ->
  Py.truthy float_nonzero
    (match dict_get "tool_calls" m with Some calls => calls | None => JNull end)
  = false ->
  dict_get "content" m = Some (JStr text) ->
  (extract_json_from_text text = None
   \/ extract_json_from_text text = Some (JDict [])) ->
  Pass.pass float_nonzero py_str dumps randint user_input (JDict r) messages w
  = Ok (Pass.prompt user_input messages ++ [JDict m], w).
Proof.
  intros Hm Hc Ht He. unfold Pass.pass, Pass.prompt.
  rewrite (PassFacts.tool_calls_of_text float_nonzero r m text Hm Hc Ht).
  assert (E3 : Py.getitem (JDict r) "message" = Ok (JDict m))
    by (cbn [Py.getitem]; now rewrite Hm).
  assert (E4 : Py.getitem (JDict m) "content" = Ok (JStr text))
    by (cbn [Py.getitem]; now rewrite Ht).
  destruct He as [He|He]; rewrite He; cbn [Py.truthy bind]; rewrite Hc;
    rewrite E3; cbn [bind]; rewrite E4; reflexivity.
Qed.

(** A reply in words. *)
Lemma plain_reply_example :
  Pass.pass (fun _ => true) (fun _ => EmptyString) (fun _ => EmptyString)
    (fun _ => 100) "hello"
    (JDict [("message", JDict [("role", JStr "assistant");
                               ("content", JStr "Hi there.")])])
    [Main.system_msg "s"]
    {| Pass.brain :=
         {| MCPClient.stdin := []; MCPClient.stdout := []; MCPClient.takes := 1 |};
       Pass.writes := []; Pass.launches := []; Pass.draws := 0 |}
  = Ok (Pass.prompt "hello" [Main.system_msg "s"]
        ++ [JDict [("role", JStr "assistant"); ("content", JStr "Hi there.")]],
        {| Pass.brain :=
         {| MCPClient.stdin := []; MCPClient.stdout := []; MCPClient.takes := 1 |};
           Pass.writes := []; Pass.launches := []; Pass.draws := 0 |}).
Proof.
  apply (plain_reply (fun _ => true) (fun _ => EmptyString) (fun _ => EmptyString)
           (fun _ => 100) "hello"
           [("message", JDict [("role", JStr "assistant");
                               ("content", JStr "Hi there.")])]
           [("role", JStr "assistant"); ("content", JStr "Hi there.")]
           "Hi there.").
  - reflexivity.
  - reflexivity.
  - reflexivity.
  - left. vm_compute. reflexivity.
Defined.

(** X17. When the reply carries no tool call and its text holds an object
    that is not empty, one call of the generator is made up, with for
    arguments the [parameters] of the object when it has them, else its
    [arguments] when it has them, else the object itself. *)
Theorem synthesized_call (float_nonzero : string -> bool) (r m e : dict)
  (text : string) :
  dict_get "message" r = Some (JDict m) ->
  Py.truthy float_nonzero
    (match dict_get "tool_calls" m with Some calls => calls | None => JNull end)
  = false ->
  dict_get "content" m = Some (JStr text) ->
  extract_json_from_text text = Some (JDict e) ->
  e <> [] ->
  Pass.tool_calls_of float_nonzero (JDict r)
  = Ok (JList
          [JDict [("function",
                   JDict [("name", JStr "generate_oxid_ui");
                          ("arguments",
                           match dict_get "parameters" e with
                           | Some parameters => parameters
                           | None =>
                               match dict_get "arguments" e with
                               | Some arguments => arguments
                               | None => JDict e
                               end
                           end)])]]).
Proof.
  intros Hm Hc Ht He Hne.
  rewrite (PassFacts.tool_calls_of_text float_nonzero r m text Hm Hc Ht), He.
  assert (Htruthy : Py.truthy float_nonzero (JDict e) = true)
    by (destruct e; [congruence|reflexivity]).
  rewrite Htruthy. cbn [Py.get bind].
  destruct (dict_get "arguments" e), (dict_get "parameters" e); reflexivity.
Qed.

(** The arguments wrapped under [parameters]. *)
Lemma synthesized_call_example :
  Pass.tool_calls_of (fun _ => true)
    (JDict [("message",
             JDict [("content",
                     JStr ("{" ++ quoted "parameters" ++ ": {" ++ quoted "view_name"
                           ++ ": " ++ quoted "Login" ++ "}}"))])])
  = Ok (JList
          [JDict [("function",
                   JDict [("name", JStr "generate_oxid_ui");
                          ("arguments",
                           match dict_get "parameters"
                                   [("parameters", JDict [("view_name", JStr "Login")])]
                           with
                           | Some parameters => parameters
                           | None =>
                               match dict_get "arguments"
                                       [("parameters",
                                         JDict [("view_name", JStr "Login")])]
                               with
                               | Some arguments => arguments
                               | None =>
                                   JDict [("parameters",
                                           JDict [("view_name", JStr "Login")])]
                               end
                           end)])]]).
Proof.
  apply (synthesized_call (fun _ => true)
           [("message",
             JDict [("content",
                     JStr ("{" ++ quoted "parameters" ++ ": {" ++ quoted "view_name"
                           ++ ": " ++ quoted "Login" ++ "}}"))])]
           [("content",
             JStr ("{" ++ quoted "parameters" ++ ": {" ++ quoted "view_name"
                   ++ ": " ++ quoted "Login" ++ "}}"))]
           [("parameters", JDict [("view_name", JStr "Login")])]
           ("{" ++ quoted "parameters" ++ ": {" ++ quoted "view_name"
            ++ ": " ++ quoted "Login" ++ "}}")).
  - reflexivity.
  - reflexivity.
  - reflexivity.
  - vm_compute. reflexivity.
  - discriminate.
Defined.

(** X18. Tool calls that name another function do nothing, and leave no
    trace: when every call of the reply names a function other than the
    generator, the history gets the user's message only, not the reply,
    and the brain, the files and the viewer are left alone. *)
Theorem foreign_calls (float_nonzero : string -> bool)
  (py_str dumps : json -> string) (randint : nat -> nat) (user_input : string)
  (r m : dict) (tools : list json) (messages : list json) (w : Pass.world) :
  dict_get "message" r = Some (JDict m) ->
  dict_get "tool_calls" m = Some (JList tools) ->
  tools <> [] ->
  Forall (fun tool => exists name,
            Pass.names tool name
            /\ Pass.equals name "generate_oxid_ui" = false) tools ->
  Pass.pass float_nonzero py_str dumps randint user_input (JDict r) messages w
  = Ok (Pass.prompt user_input messages, w).
Proof.
  intros Hm Hc Hne Hall. unfold Pass.pass, Pass.tool_calls_of, Pass.prompt.
  cbn [Py.get bind]. rewrite Hm. cbn [Py.get bind]. rewrite Hc. cbn [bind].
  assert (Ht : Py.truthy float_nonzero (JList tools) = true)
    by (destruct tools; [congruence|reflexivity]).
  rewrite Ht. cbn [bind]. rewrite Ht. cbn [Pass.iterate bind].
  now apply PassFacts.handle_calls_foreign.
Qed.

(** A call of a function the program does not have. *)
Lemma foreign_calls_example :
  Pass.pass (fun _ => true) (fun _ => EmptyString) (fun _ => EmptyString)
    (fun _ => 100) "draw"
    (JDict [("message",
             JDict [("tool_calls",
                     JList [JDict [("function",
                                    JDict [("name", JStr "search");
                                           ("arguments", JDict [])])]])])])
    [Main.system_msg "s"]
    {| Pass.brain :=
         {| MCPClient.stdin := []; MCPClient.stdout := []; MCPClient.takes := 1 |};
       Pass.writes := []; Pass.launches := []; Pass.draws := 0 |}
  = Ok (Pass.prompt "draw" [Main.system_msg "s"],
        {| Pass.brain :=
         {| MCPClient.stdin := []; MCPClient.stdout := []; MCPClient.takes := 1 |};
           Pass.writes := []; Pass.launches := []; Pass.draws := 0 |}).
Proof.
  apply (foreign_calls (fun _ => true) (fun _ => EmptyString) (fun _ => EmptyString)
           (fun _ => 100) "draw"
           [("message",
             JDict [("tool_calls",
                     JList [JDict [("function",
                                    JDict [("name", JStr "search");
                                           ("arguments", JDict [])])]])])]
           [("tool_calls",
             JList [JDict [("function",
                            JDict [("name", JStr "search");
                                   ("arguments", JDict [])])]])]
           [JDict [("function",
                    JDict [("name", JStr "search"); ("arguments", JDict [])])]]).
  - reflexivity.
  - reflexivity.
  - discriminate.
  - constructor; [|constructor]. exists (JStr "search"). split; [|reflexivity].
    exists [("function", JDict [("name", JStr "search"); ("arguments", JDict [])])],
           [("name", JStr "search"); ("arguments", JDict [])], (JDict []).
    repeat split.
Defined.

(** X19. A pass that returns changes the history as a turn of the history
    model does: the truncation, the user's message, then the reply alone or
    the reply and the tool result for each call of the generator. *)
Theorem pass_is_turn (float_nonzero : string -> bool)
  (py_str dumps : json -> string) (randint : nat -> nat) (user_input : string)
  (response : json) (messages messages' : list json) (w w' : Pass.world) :
  Pass.pass float_nonzero py_str dumps randint user_input response messages w
  = Ok (messages', w') ->
  exists t, Main.user_input t = user_input
    /\ Main.reply_message t = Pass.message_of response
    /\ messages' = Main.turn messages t.
Proof. apply PassFacts.pass_turn. Qed.

(** A reply in words is the turn of that reply. *)
Lemma pass_is_turn_example :
  exists t,
    Main.user_input t = "hello"
    /\ Main.reply_message t
       = Pass.message_of
           (JDict [("message", JDict [("role", JStr "assistant");
                                      ("content", JStr "Hi there.")])])
    /\ [Main.system_msg "s"; Main.user_msg "hello";
        JDict [("role", JStr "assistant"); ("content", JStr "Hi there.")]]
       = Main.turn [Main.system_msg "s"] t.
Proof.
  apply (pass_is_turn (fun _ => true) (fun _ => EmptyString) (fun _ => EmptyString)
           (fun _ => 100) "hello"
           (JDict [("message", JDict [("role", JStr "assistant");
                                      ("content", JStr "Hi there.")])])
           [Main.system_msg "s"] _
           {| Pass.brain :=
         {| MCPClient.stdin := []; MCPClient.stdout := []; MCPClient.takes := 1 |};
              Pass.writes := []; Pass.launches := []; Pass.draws := 0 |}
           {| Pass.brain :=
         {| MCPClient.stdin := []; MCPClient.stdout := []; MCPClient.takes := 1 |};
              Pass.writes := []; Pass.launches := []; Pass.draws := 0 |}).
  vm_compute. reflexivity.
Defined.

(** X20. The model is never given more than seven messages: what it is
    called with, the history truncated and the user's message, has at most
    seven, and what a pass leaves begins with it. *)
Theorem prompt_bounded (float_nonzero : string -> bool)
  (py_str dumps : json -> string) (randint : nat -> nat) (user_input : string)
  (response : json) (messages messages' : list json) (w w' : Pass.world) :
  Pass.pass float_nonzero py_str dumps randint user_input response messages w
  = Ok (messages', w') ->
  List.length (Pass.prompt user_input messages) <= 7
  /\ exists rest, messages' = Pass.prompt user_input messages ++ rest.
Proof.
  intros H. split.
  - unfold Pass.prompt. rewrite length_app.
    pose proof (HistoryFacts.truncate_length messages).
    unfold Main.truncate, Main.threshold in *.
    destruct (Nat.ltb_spec 6 (List.length messages)).
    + destruct messages; simpl; lia.
    + simpl. lia.
  - destruct (PassFacts.pass_turn _ _ _ _ _ _ _ _ _ _ H) as (t & Hu & _ & ->).
    rewrite HistoryFacts.turn_eq. unfold turn_messages, Pass.prompt.
    rewrite Hu. eexists. rewrite <- app_assoc. reflexivity.
Qed.

(** A history of nine messages: the model gets two. *)
Lemma prompt_bounded_example :
  List.length
    (Pass.prompt "hello"
       (Main.system_msg "s" :: repeat (Main.user_msg "x") 8)) <= 7
  /\ exists rest,
       [Main.system_msg "s"; Main.user_msg "hello";
        JDict [("role", JStr "assistant"); ("content", JStr "Hi there.")]]
       = Pass.prompt "hello" (Main.system_msg "s" :: repeat (Main.user_msg "x") 8)
         ++ rest.
Proof.
  apply (prompt_bounded (fun _ => true) (fun _ => EmptyString) (fun _ => EmptyString)
           (fun _ => 100) "hello"
           (JDict [("message", JDict [("role", JStr "assistant");
                                      ("content", JStr "Hi there.")])])
           (Main.system_msg "s" :: repeat (Main.user_msg "x") 8) _
           {| Pass.brain :=
         {| MCPClient.stdin := []; MCPClient.stdout := []; MCPClient.takes := 1 |};
              Pass.writes := []; Pass.launches := []; Pass.draws := 0 |}
           {| Pass.brain :=
         {| MCPClient.stdin := []; MCPClient.stdout := []; MCPClient.takes := 1 |};
              Pass.writes := []; Pass.launches := []; Pass.draws := 0 |}).
  vm_compute. reflexivity.
Defined.

(** X21. The first message of the history, the system message, stays the
    first through every pass that returns. *)
Theorem first_message_kept (float_nonzero : string -> bool)
  (py_str dumps : json -> string) (randint : nat -> nat) (user_input : string)
  (response sys : json) (tail messages' : list json) (w w' : Pass.world) :
  Pass.pass float_nonzero py_str dumps randint user_input response (sys :: tail) w
  = Ok (messages', w') ->
  exists tail', messages' = sys :: tail'.
Proof.
  intros H.
  destruct (PassFacts.pass_turn _ _ _ _ _ _ _ _ _ _ H) as (t & Hu & _ & ->).
  rewrite HistoryFacts.turn_eq. unfold Main.truncate.
  destruct (Main.threshold <? List.length (sys :: tail)); simpl; eauto.
Qed.

(** A history of nine messages, truncated: the system message is there. *)
Lemma first_message_kept_example :
  exists tail',
    [Main.system_msg "s"; Main.user_msg "hello";
     JDict [("role", JStr "assistant"); ("content", JStr "Hi there.")]]
    = Main.system_msg "s" :: tail'.
Proof.
  apply (first_message_kept (fun _ => true) (fun _ => EmptyString)
           (fun _ => EmptyString) (fun _ => 100) "hello"
           (JDict [("message", JDict [("role", JStr "assistant");
                                      ("content", JStr "Hi there.")])])
           (Main.system_msg "s") (repeat (Main.user_msg "x") 8) _
           {| Pass.brain :=
         {| MCPClient.stdin := []; MCPClient.stdout := []; MCPClient.takes := 1 |};
              Pass.writes := []; Pass.launches := []; Pass.draws := 0 |}
           {| Pass.brain :=
         {| MCPClient.stdin := []; MCPClient.stdout := []; MCPClient.takes := 1 |};
              Pass.writes := []; Pass.launches := []; Pass.draws := 0 |}).
  vm_compute. reflexivity.
Defined.

(** X22. An error of the brain is reported, not saved: when the brain
    takes the request of a call of the generator and its reply carries an
    [error] object with a [message],
    the history gets the reply message and the error text, and no file is
    written and no viewer launched. *)
Theorem brain_error_recorded (py_str dumps : json -> string)
  (randint : nat -> nat)
  (response tool fn fn_args view_name schema message m : json) (n : nat)
  (res e : dict) (messages : list json) (w : Pass.world)
  (b : MCPClient.process) :
  Py.getitem tool "function" = Ok fn ->
  Py.getitem fn "name" = Ok (JStr "generate_oxid_ui") ->
  Py.getitem fn "arguments" = Ok fn_args ->
  Pass.prepare randint (Pass.draws w) fn_args = Ok (view_name, schema, n) ->
  0 < MCPClient.takes (Pass.brain w) ->
  MCPClient._recv
    (MCPClient.sent
       (MCPClient.tools_call "generate_oxid_ui"
          (JDict [("view_name", view_name); ("schema", schema)]))
       (Pass.brain w))
  = Ok (JDict res, b) ->
  dict_get "error" res = Some (JDict e) ->
  dict_get "message" e = Some m ->
  Py.getitem response "message" = Ok message ->
  Pass.handle_call py_str dumps randint response tool messages w
  = Ok (messages
        ++ [message;
            Main.tool_msg
              (JStr (MCPClient.error_prefix ++ MCPClient.format py_str m))],
        {| Pass.brain := b; Pass.writes := Pass.writes w;
           Pass.launches := Pass.launches w; Pass.draws := n |}).
Proof.
  intros Hfn Hname Hargs Hprep Hk Hrecv He Hm Hmsg.
  pose proof (ClientFacts.call_tool_error py_str _ _ _ _ _ _ _ Hk Hrecv He Hm)
    as Hcall.
  rewrite (PassFacts.handle_call_text py_str dumps randint response tool fn fn_args
             view_name schema message n _ messages w b
             Hfn Hname Hargs Hprep Hcall Hmsg).
  assert (Hd : Str.contains "Error:"
                 (MCPClient.error_prefix ++ MCPClient.format py_str m) = true).
  { exact (f_equal (fun r => match r with Ok found => found | Raise _ => false end)
             (ClientFacts.error_text_detected (MCPClient.format py_str m))). }
  now rewrite Hd.
Qed.

(** The brain refuses a view. *)
Lemma brain_error_recorded_example :
  Pass.handle_call (fun _ => EmptyString) (fun _ => "{}") (fun _ => 100)
    (JDict [("message", JStr "reply")])
    (JDict [("function",
             JDict [("name", JStr "generate_oxid_ui");
                    ("arguments", JDict [("view_name", JStr "Login")])])])
    []
    {| Pass.brain :=
         {| MCPClient.stdin := [];
            MCPClient.stdout :=
              ["{" ++ quoted "error" ++ ": {" ++ quoted "message" ++ ": "
                   ++ quoted "boom" ++ "}}" ++ newline]%string;
            MCPClient.takes := 1 |};
       Pass.writes := []; Pass.launches := []; Pass.draws := 0 |}
  = Ok ([] ++ [JStr "reply";
               Main.tool_msg
                 (JStr (MCPClient.error_prefix
                        ++ MCPClient.format (fun _ => EmptyString) (JStr "boom")))],
        {| Pass.brain :=
             {| MCPClient.stdin :=
                  [MCPClient.tools_call "generate_oxid_ui"
                     (JDict [("view_name", JStr "Login");
                             ("schema", JDict [("type_name", JStr "VStack")])])];
                MCPClient.stdout := [];
                  MCPClient.takes := 0 |};
           Pass.writes := []; Pass.launches := []; Pass.draws := 0 |}).
Proof.
  apply (brain_error_recorded (fun _ => EmptyString) (fun _ => "{}") (fun _ => 100)
           (JDict [("message", JStr "reply")])
           (JDict [("function",
                    JDict [("name", JStr "generate_oxid_ui");
                           ("arguments", JDict [("view_name", JStr "Login")])])])
           (JDict [("name", JStr "generate_oxid_ui");
                   ("arguments", JDict [("view_name", JStr "Login")])])
           (JDict [("view_name", JStr "Login")])
           (JStr "Login") (JDict [("type_name", JStr "VStack")]) (JStr "reply")
           (JStr "boom") 0
           [("error", JDict [("message", JStr "boom")])]
           [("message", JStr "boom")] []); vm_compute; reflexivity.
Defined.
